(** * The LSIF backend of unicon-lsp: model and verified properties

    The development embeds the class [LSIFBackend] in its two forms: the
    sharded graph store, with its ingestion pipeline, its repair pass and its
    hover, definition and reference resolvers, and the flat store of
    src/lsifBackend.ts (module [Flat]); and the hover, definition and
    reference providers of extension.ts, which call the sharded store.  The
    properties of the specification are stated over the sharded store.

    Conventions of the embedding.
    - A record of the index is a JavaScript object read through its LSIF
      fields; a field that is absent reads [undefined] and is [None] here.
      Fields that are present carry the type the LSIF format gives them,
      ids being numbers.
    - JavaScript numbers are integers here ([Z]); this is exact for the ids
      and coordinates of an index (magnitude below 2^53).
    - Strings are sequences of bytes, the UTF-8 form of the JavaScript
      string.
    - A statement that throws is a [Throw] completion; the state reached
      before the throw is kept, as it is in the program.
    - The messages written to the output channel are not part of the model.
    - The constructors of [vscode] are those of the host: [Position]
      refuses a negative line or character, [Range] puts its two positions
      in order, and [Uri.parse], whose code is not part of the repository,
      is a parameter of the model (class [Host]): it returns a Uri or
      throws.
    - [load] is embedded on the lines of the file; [loadFile] adds the read
      of the file, which throws when the file cannot be read. *)

From Stdlib Require Import ZArith String Ascii List Bool Lia.
From stdpp Require Import base option list strings gmap.

Local Open Scope string_scope.
Local Open Scope Z_scope.

(** ** Completions: a value, or a thrown error *)

(** The errors met: the three built-in kinds that the statements of the
    program raise, and [PlainError] for an [Error] object of no such kind,
    as the constructors of [vscode] and the calls of [fs] throw. *)
Inductive Error := SyntaxError | TypeError | URIError | PlainError.

Inductive Completion (A : Type) :=
| Normal (a : A)
| Throw (e : Error).
Arguments Normal {A} a.
Arguments Throw {A} e.

#[global] Instance Completion_ret : MRet Completion := fun A a => Normal a.

#[global] Instance Completion_bind : MBind Completion := fun A B k c =>
  match c with
  | Normal a => k a
  | Throw e => Throw e
  end.

(** ** The records of an index *)

Record Position := mkPosition { line : Z; character : Z }.

Record Content := mkContent { value : option string }.

(** [contents] of a hover: an array of fragments, or a single marked string
    or markup object, which has no [map]. *)
Inductive Contents :=
| Fragments (fragments : list Content)
| Single.

Record HoverContents := mkHoverContents { contents : option Contents }.

(** One object of the stream, vertex or edge: [JSON.parse] gives [any]. *)
Record Element := mkElement {
  type : option string;
  label : option string;
  id : option Z;
  uri : option string;
  start : option Position;
  end_ : option Position;
  outV : option Z;
  inV : option Z;
  inVs : option (list Z);
  property : option string;
  shard : option Z;
  result : option HoverContents
}.

(** A line of the file, by what [split], [trim] and [JSON.parse] make of it.
    A line that parses to a number, a string, a boolean or an array reads
    [undefined] for every field: it is the object with no field. *)
Inductive Line :=
| Blank
| NotJSON
| JSONnull
| JSONobject (obj : Element).

(** ** JavaScript operators *)

(** [a === b] on values of one type; [undefined === undefined] holds. *)
Definition strictEq {A} `{EqDecision A} (a b : A) : bool := bool_decide (a = b).
Infix "===" := strictEq (at level 70, no associativity).

(** Truthiness of a string-or-undefined and of a number-or-undefined. *)
Definition truthy (s : option string) : bool :=
  match s with
  | Some s => negb (s === "")
  | None => false
  end.

Definition truthyNum (n : option Z) : bool :=
  match n with
  | Some n => negb (n === 0)
  | None => false
  end.

(** [a || b] on strings. *)
Definition orElse (a b : option string) : option string :=
  if truthy a then a else b.

(** [arr.includes(x)] for an array of numbers. *)
Definition includes (arr : list Z) (x : option Z) : bool :=
  match x with
  | Some n => existsb (fun m => m === n) arr
  | None => false
  end.

(** ** A JavaScript [Map], in insertion order *)

Module JSMap.
Section Ops.
Context {K V : Type} `{EqDecision K}.

Fixpoint get (k : K) (m : list (K * V)) : option V :=
  match m with
  | [] => None
  | (k', v) :: m' => if decide (k = k') then Some v else get k m'
  end.

Definition has (k : K) (m : list (K * V)) : bool :=
  match get k m with Some _ => true | None => false end.

(** [set] keeps the place of a key that is present and appends a new one. *)
Fixpoint set (k : K) (v : V) (m : list (K * V)) : list (K * V) :=
  match m with
  | [] => [(k, v)]
  | (k', v') :: m' =>
      if decide (k = k') then (k, v) :: m' else (k', v') :: set k v m'
  end.

Fixpoint delete (k : K) (m : list (K * V)) : list (K * V) :=
  match m with
  | [] => []
  | (k', v') :: m' =>
      if decide (k = k') then m' else (k', v') :: delete k m'
  end.
End Ops.
End JSMap.

(** ** The store *)

Record DocumentData := mkDocumentData {
  vertices : list Element;
  edges : list Element
}.

Record LSIFDatabase := mkLSIFDatabase {
  documents : list (option string * DocumentData);
  vertexIdToDocument : gmap (option Z) (option string)
}.

Record LSIFBackend := mkLSIFBackend {
  database : LSIFDatabase;
  currentDocumentUri : option string
}.

(** The constructor. *)
Definition newBackend : LSIFBackend :=
  {| database := {| documents := []; vertexIdToDocument := ∅ |};
     currentDocumentUri := None |}.

(** ** Ingestion: [load]

    Each step takes the backend and returns the completion of the statement
    together with the backend as the statement left it. *)

Definition emptyDocumentData : DocumentData := {| vertices := []; edges := [] |}.

Definition pushVertex (obj : Element) (d : DocumentData) : DocumentData :=
  {| vertices := vertices d ++ [obj]; edges := edges d |}.

Definition pushEdge (obj : Element) (d : DocumentData) : DocumentData :=
  {| vertices := vertices d; edges := edges d ++ [obj] |}.

Definition setDocuments (docs : list (option string * DocumentData))
    (this : LSIFBackend) : LSIFBackend :=
  {| database := {| documents := docs;
                    vertexIdToDocument := vertexIdToDocument (database this) |};
     currentDocumentUri := currentDocumentUri this |}.

Definition setCursor (u : option string) (this : LSIFBackend) : LSIFBackend :=
  {| database := database this; currentDocumentUri := u |}.

(** [this.database.documents.get(key)!.vertices.push(obj)] and its twin for
    edges: a [TypeError] when the shard is missing. *)
Definition pushInto (key : option string) (f : DocumentData -> DocumentData)
    (this : LSIFBackend) : Completion unit * LSIFBackend :=
  match JSMap.get key (documents (database this)) with
  | Some d => (Normal (), setDocuments (JSMap.set key (f d) (documents (database this))) this)
  | None => (Throw TypeError, this)
  end.

Definition isDocumentVertex (obj : Element) : bool :=
  (label obj === Some "document") && (type obj === Some "vertex").

Definition isContainsEdge (obj : Element) : bool :=
  (label obj === Some "contains") && (type obj === Some "edge").

(** First statement of the callback: a document vertex moves the cursor and
    opens its shard. *)
Definition openDocument (obj : Element) (this : LSIFBackend) : LSIFBackend :=
  if isDocumentVertex obj then
    let this := setCursor (uri obj) this in
    if negb (JSMap.has (currentDocumentUri this) (documents (database this))) then
      {| database :=
           {| documents :=
                JSMap.set (currentDocumentUri this) emptyDocumentData
                  (documents (database this));
              vertexIdToDocument :=
                <[id obj := currentDocumentUri this]>
                  (vertexIdToDocument (database this)) |};
         currentDocumentUri := currentDocumentUri this |}
    else this
  else this.

(** Second statement: the record goes to the shard under the cursor. *)
Definition appendUnderCursor (obj : Element) (this : LSIFBackend)
    : Completion unit * LSIFBackend :=
  if truthy (currentDocumentUri this) then
    if type obj === Some "vertex" then
      pushInto (currentDocumentUri this) (pushVertex obj) this
    else if type obj === Some "edge" then
      pushInto (currentDocumentUri this) (pushEdge obj) this
    else (Normal (), this)
  else (Normal (), this).

(** Third statement: a contains edge moves the cursor to the unassigned
    shard. *)
Definition unsorted : option string := Some "unsorted".

Definition closeDocument (obj : Element) (this : LSIFBackend) : LSIFBackend :=
  if isContainsEdge obj then
    let this := setCursor unsorted this in
    if negb (JSMap.has (currentDocumentUri this) (documents (database this))) then
      setDocuments
        (JSMap.set (currentDocumentUri this) emptyDocumentData
           (documents (database this))) this
    else this
  else this.

(** The callback of [lines.forEach]. *)
Definition ingestLine (ln : Line) (this : LSIFBackend)
    : Completion unit * LSIFBackend :=
  match ln with
  | Blank | NotJSON => (Throw SyntaxError, this)
  | JSONnull => (Throw TypeError, this)
  | JSONobject obj =>
      match appendUnderCursor obj (openDocument obj this) with
      | (Normal _, this) => (Normal (), closeDocument obj this)
      | (Throw e, this) => (Throw e, this)
      end
  end.

(** [lines.forEach]: the first throw ends the iteration. *)
Fixpoint forEach (lines : list Line) (this : LSIFBackend)
    : Completion unit * LSIFBackend :=
  match lines with
  | [] => (Normal (), this)
  | ln :: rest =>
      match ingestLine ln this with
      | (Normal _, this) => forEach rest this
      | (Throw e, this) => (Throw e, this)
      end
  end.

Definition isBlank (ln : Line) : bool :=
  match ln with Blank => true | _ => false end.

(** *** The repair pass *)

(** [arr.find(e => e.id === edge.id - k)]: [undefined - k] is [NaN], which
    equals nothing. *)
Definition findIdMinus (k : Z) (edge : Element) (arr : list Element) : option Element :=
  match id edge with
  | Some n => find (fun e => id e === Some (n - k)) arr
  | None => None
  end.

Definition unsortedEdges (this : LSIFBackend) : list Element :=
  match JSMap.get unsorted (documents (database this)) with
  | Some u => edges u
  | None => []
  end.

Definition unsortedVertices (this : LSIFBackend) : list Element :=
  match JSMap.get unsorted (documents (database this)) with
  | Some u => vertices u
  | None => []
  end.

(** [vertexIdToDocument.get(k)]: [undefined] for a missing key. *)
Definition uriOfId (this : LSIFBackend) (k : option Z) : option string :=
  match vertexIdToDocument (database this) !! k with
  | Some u => u
  | None => None
  end.

(** The body of the loop over the edges of the unassigned shard. *)
Definition repairEdge (edge : Element) (this : LSIFBackend)
    : Completion unit * LSIFBackend :=
  if (label edge === Some "item") && truthyNum (shard edge) then
    let targetDocUri := uriOfId this (shard edge) in
    if truthy targetDocUri then
      match pushInto targetDocUri (pushEdge edge) this with
      | (Throw e, this) => (Throw e, this)
      | (Normal _, this) =>
          let edgeMinus1 := findIdMinus 1 edge (unsortedEdges this) in
          match
            match edgeMinus1 with
            | Some e1 => pushInto targetDocUri (pushEdge e1) this
            | None => (Normal (), this)
            end
          with
          | (Throw e, this) => (Throw e, this)
          | (Normal _, this) =>
              let vertexMinus2 := findIdMinus 2 edge (unsortedVertices this) in
              match vertexMinus2 with
              | Some v2 => pushInto targetDocUri (pushVertex v2) this
              | None => (Normal (), this)
              end
          end
      end
    else (Normal (), this)
  else (Normal (), this).

(** [for (const edge of unsortedData.edges)]: the iterator reads the array as
    it is at each step, so it also visits what the body pushed onto it.  The
    loop takes one unit of fuel per visited edge; [None] is fuel exhausted. *)
Fixpoint repairLoop (fuel : nat) (i : nat) (this : LSIFBackend)
    : option (Completion unit * LSIFBackend) :=
  match fuel with
  | O => None
  | S fuel =>
      match unsortedEdges this !! i with
      | None => Some (Normal (), this)
      | Some edge =>
          match repairEdge edge this with
          | (Normal _, this) => repairLoop fuel (S i) this
          | (Throw e, this) => Some (Throw e, this)
          end
      end
  end.

Definition repair (fuel : nat) (this : LSIFBackend)
    : option (Completion unit * LSIFBackend) :=
  match JSMap.get unsorted (documents (database this)) with
  | None => Some (Normal (), this)
  | Some unsortedData =>
      match repairLoop fuel 0 this with
      | None => None
      | Some (Throw e, this) => Some (Throw e, this)
      | Some (Normal _, this) =>
          Some (Normal (),
                setDocuments (JSMap.delete unsorted (documents (database this))) this)
      end
  end.

(** [load], on the lines of the file read. *)
Definition load (fuel : nat) (lines : list Line) (this : LSIFBackend)
    : option (Completion unit * LSIFBackend) :=
  let lines := List.filter (fun ln => negb (isBlank ln)) lines in
  match forEach lines this with
  | (Throw e, this) => Some (Throw e, this)
  | (Normal _, this) => repair fuel this
  end.

(** [fs.readFileSync(filePath, 'utf-8')] and the split into lines: a file
    system gives the lines of the files that can be read; reading another
    path throws. *)
Definition FileSystem := string -> option (list Line).

(** [load(filePath)]. *)
Definition loadFile (fuel : nat) (fs : FileSystem) (filePath : string)
    (this : LSIFBackend) : option (Completion unit * LSIFBackend) :=
  match fs filePath with
  | None => Some (Throw PlainError, this)
  | Some lines => load fuel lines this
  end.

(** ** [decodeURIComponent]

    The built-in, on the byte form of the string: every [%] must be followed
    by two hexadecimal digits, and the escaped octets must spell well-formed
    UTF-8; anything else is a [URIError] ([None]). *)

Definition hexValue (c : ascii) : option N :=
  let n := N_of_ascii c in
  if ((48 <=? n) && (n <=? 57))%N then Some (n - 48)%N
  else if ((65 <=? n) && (n <=? 70))%N then Some (n - 55)%N
  else if ((97 <=? n) && (n <=? 102))%N then Some (n - 87)%N
  else None.

Inductive CodeUnit :=
| Literal (c : ascii)
| Escaped (b : N).

Fixpoint unescape (s : string) : option (list CodeUnit) :=
  match s with
  | EmptyString => Some []
  | String "%" (String h (String l rest)) =>
      match hexValue h, hexValue l, unescape rest with
      | Some x, Some y, Some us => Some (Escaped (16 * x + y)%N :: us)
      | _, _, _ => None
      end
  | String "%" _ => None
  | String c rest => cons (Literal c) <$> unescape rest
  end.

(** An escaped octet within [lo..hi], as a character. *)
Definition octetIn (lo hi : N) (u : CodeUnit) : option ascii :=
  match u with
  | Escaped b => if ((lo <=? b) && (b <=? hi))%N then Some (ascii_of_N b) else None
  | Literal _ => None
  end.

Fixpoint wellFormed (us : list CodeUnit) : option string :=
  match us with
  | [] => Some ""
  | Literal c :: rest => String c <$> wellFormed rest
  | Escaped b :: rest =>
      if (b <? 128)%N then String (ascii_of_N b) <$> wellFormed rest
      else if ((194 <=? b) && (b <=? 223))%N then
        match rest with
        | u1 :: rest =>
            c1 ← octetIn 128 191 u1;
            s ← wellFormed rest;
            Some (String (ascii_of_N b) (String c1 s))
        | _ => None
        end
      else if ((224 <=? b) && (b <=? 239))%N then
        match rest with
        | u1 :: u2 :: rest =>
            c1 ← octetIn (if (b =? 224)%N then 160 else 128)
                         (if (b =? 237)%N then 159 else 191) u1;
            c2 ← octetIn 128 191 u2;
            s ← wellFormed rest;
            Some (String (ascii_of_N b) (String c1 (String c2 s)))
        | _ => None
        end
      else if ((240 <=? b) && (b <=? 244))%N then
        match rest with
        | u1 :: u2 :: u3 :: rest =>
            c1 ← octetIn (if (b =? 240)%N then 144 else 128)
                         (if (b =? 244)%N then 143 else 191) u1;
            c2 ← octetIn 128 191 u2;
            c3 ← octetIn 128 191 u3;
            s ← wellFormed rest;
            Some (String (ascii_of_N b) (String c1 (String c2 (String c3 s))))
        | _ => None
        end
      else None
  end.

Definition decodeURIComponent (s : string) : option string :=
  unescape s ≫= wellFormed.

(** ** The resolvers *)

(** [position.line += 1; position.character += 1], on the caller's object. *)
Definition bump (position : Position) : Position :=
  {| line := line position + 1; character := character position + 1 |}.

(** The range test of the three resolvers, conjunct by conjunct:
    [position.line >= range.start.line && position.line <= range.end.line &&
     position.character >= range.start.character &&
     position.character <= range.end.character]. *)
Definition withinRange (position : Position) (range : Element) : Completion bool :=
  match start range with
  | None => Throw TypeError
  | Some s =>
      if line s <=? line position then
        match end_ range with
        | None => Throw TypeError
        | Some e =>
            Normal ((line position <=? line e)
                    && (character s <=? character position)
                    && (character position <=? character e))
        end
      else Normal false
  end.

Definition newline : string := String (ascii_of_nat 10) EmptyString.

(** [hoverResult.result.contents.map(content => content.value).join('\n')];
    [join] writes an [undefined] element as the empty string. *)
Definition joinContents (hoverResult : option Element) : Completion string :=
  match hoverResult with
  | None => Throw TypeError
  | Some h =>
      match result h with
      | None => Throw TypeError
      | Some r =>
          match contents r with
          | Some (Fragments cs) =>
              Normal (String.concat newline
                        (map (fun content => default "" (value content)) cs))
          | Some Single | None => Throw TypeError
          end
      end
  end.

Definition findContains (documentData : DocumentData) : option Element :=
  List.find (fun edge => label edge === Some "contains") (edges documentData).

(** *** Hover *)

Section Hover.
Variable documentData : DocumentData.

(** [for (const edge2 of documentData.edges)]; [Some text] is [return text]. *)
Fixpoint hoverViaNext (edge : Element) (es : list Element) : Completion (option string) :=
  match es with
  | [] => Normal None
  | edge2 :: rest =>
      if (label edge2 === Some "textDocument/hover") && (outV edge2 === inV edge) then
        match List.find (fun vertex2 => id vertex2 === inV edge2) (vertices documentData) with
        | Some hoverResult =>
            if label hoverResult === Some "hoverResult" then
              text ← joinContents (Some hoverResult); Normal (Some text)
            else hoverViaNext edge rest
        | None => hoverViaNext edge rest
        end
      else hoverViaNext edge rest
  end.

(** [for (const edge of documentData.edges)]. *)
Fixpoint hoverEdges (range : Element) (es : list Element) : Completion (option string) :=
  match es with
  | [] => Normal None
  | edge :: rest =>
      if (label edge === Some "next") && (outV edge === id range) then
        r ← hoverViaNext edge (edges documentData);
        match r with
        | Some text => Normal (Some text)
        | None => hoverEdges range rest
        end
      else if (label edge === Some "textDocument/hover") && (outV edge === id range) then
        text ← joinContents
                 (List.find (fun vertex3 => id vertex3 === inV edge) (vertices documentData));
        Normal (Some text)
      else hoverEdges range rest
  end.

(** [for (const rangeId of containsEdge.inVs)]. *)
Fixpoint hoverRanges (position : Position) (rangeIds : list Z) : Completion (option string) :=
  match rangeIds with
  | [] => Normal None
  | rangeId :: rest =>
      match List.find (fun vertex => id vertex === Some rangeId) (vertices documentData) with
      | Some range =>
          if label range === Some "range" then
            inside ← withinRange position range;
            if inside : bool then
              r ← hoverEdges range (edges documentData);
              match r with
              | Some text => Normal (Some text)
              | None => hoverRanges position rest
              end
            else hoverRanges position rest
          else hoverRanges position rest
      | None => hoverRanges position rest
      end
  end.
End Hover.

(** The body of [getHoverData] after its first three statements. *)
Definition hoverBody (this : LSIFBackend) (documentUri : string) (position : Position)
    : Completion (option string) :=
  match JSMap.get (Some documentUri) (documents (database this)) with
  | None => Normal None
  | Some documentData =>
      match findContains documentData with
      | None => Normal None
      | Some containsEdge =>
          match inVs containsEdge with
          | None => Throw TypeError
          | Some rangeIds => hoverRanges documentData position rangeIds
          end
      end
  end.

(** What a call of a resolver leaves: its completion, the position object
    it was given, as the call left it, and the backend.  No statement of a
    resolver assigns a field of [this] or pushes onto an array of the store:
    the backend is handed back as it came. *)
Record Outcome (A : Type) := mkOutcome {
  completion : Completion A;
  argument : Position;
  backend : LSIFBackend
}.
Arguments mkOutcome {A} _ _ _.
Arguments completion {A} _.
Arguments argument {A} _.
Arguments backend {A} _.

Definition getHoverData (this : LSIFBackend) (documentUri : string) (position : Position)
    : Outcome (option string) :=
  match decodeURIComponent documentUri with
  | None => {| completion := Throw URIError; argument := position; backend := this |}
  | Some documentUri =>
      let position := bump position in
      {| completion := hoverBody this documentUri position;
         argument := position; backend := this |}
  end.

(** *** Locations *)

(** The host's [vscode.Uri.parse]: the Uri of a string, or a throw. *)
Class Host := mkHost {
  Uri : Type;
  Uri_parse : option string -> Completion Uri
}.

Module vscode.
Record Range := mkRange { start : Position; end_ : Position }.
Record Location `{Host} := mkLocation { uri : Uri; range : Range }.

(** [new vscode.Position(line, character)]: an [Error] for a negative
    line, then for a negative character. *)
Definition newPosition (l c : Z) : Completion Position :=
  if l <? 0 then Throw PlainError
  else if c <? 0 then Throw PlainError
  else Normal {| line := l; character := c |}.

(** [start.isBefore(end)]. *)
Definition isBefore (a b : Position) : bool :=
  if line a <? line b then true
  else if line b <? line a then false
  else character a <? character b.

(** [new vscode.Range(start, end)]: the two positions, the earlier one
    first. *)
Definition newRange (a b : Position) : Range :=
  if isBefore a b then {| start := a; end_ := b |}
  else {| start := b; end_ := a |}.
End vscode.

Section WithHost.
Context `{Host}.

(** [new vscode.Location(vscode.Uri.parse(u), new vscode.Range(
      new vscode.Position(v.start.line - 1, v.start.character - 1),
      new vscode.Position(v.end.line - 1, v.end.character - 1)))], its
    arguments evaluated from left to right. *)
Definition toLocation (u : option string) (v : Element) : Completion vscode.Location :=
  parsed ← Uri_parse u;
  match start v with
  | None => Throw TypeError
  | Some s =>
      startPosition ← vscode.newPosition (line s - 1) (character s - 1);
      match end_ v with
      | None => Throw TypeError
      | Some e =>
          endPosition ← vscode.newPosition (line e - 1) (character e - 1);
          Normal {| vscode.uri := parsed;
                    vscode.range := vscode.newRange startPosition endPosition |}
      end
  end.

(** *** Definition *)

(** [definitionData.vertices.find(vertex => definedItem.inVs.includes(vertex.id))]:
    the callback runs, and reads [definedItem.inVs], only when there is a
    vertex. *)
Definition findIncluded (definedItem : Element) (vs : list Element)
    : Completion (option Element) :=
  match vs with
  | [] => Normal None
  | _ :: _ =>
      match inVs definedItem with
      | None => Throw TypeError
      | Some targets => Normal (List.find (fun vertex => includes targets (id vertex)) vs)
      end
  end.

Section Definitions.
Variable this : LSIFBackend.

(** [for (const definedItem of definitionData.edges)]. *)
Fixpoint definedItems (docUri : option string) (definitionData : DocumentData)
    (referenceItem : Element) (es : list Element)
    (locations : list vscode.Location) : Completion (list vscode.Location) :=
  match es with
  | [] => Normal locations
  | definedItem :: rest =>
      if (label definedItem === Some "item")
         && (outV definedItem === outV referenceItem)
         && (property definedItem === Some "definitions") then
        let definitionDocUri := orElse (uriOfId this (shard definedItem)) docUri in
        rangeDefinedItem ← findIncluded definedItem (vertices definitionData);
        match rangeDefinedItem with
        | Some v =>
            location ← toLocation definitionDocUri v;
            definedItems docUri definitionData referenceItem rest (locations ++ [location])
        | None => definedItems docUri definitionData referenceItem rest locations
        end
      else definedItems docUri definitionData referenceItem rest locations
  end.

(** [for (const [docUri, definitionData] of this.database.documents.entries())]. *)
Fixpoint definitionDocuments (referenceItem : Element)
    (docs : list (option string * DocumentData))
    (locations : list vscode.Location) : Completion (list vscode.Location) :=
  match docs with
  | [] => Normal locations
  | (docUri, definitionData) :: rest =>
      match findContains definitionData with
      | None => definitionDocuments referenceItem rest locations
      | Some _ =>
          locations ← definedItems docUri definitionData referenceItem
                        (edges definitionData) locations;
          definitionDocuments referenceItem rest locations
      end
  end.

(** [for (const referenceItem of documentData.edges)]. *)
Fixpoint referenceItems (range : Element) (es : list Element)
    (locations : list vscode.Location) : Completion (list vscode.Location) :=
  match es with
  | [] => Normal locations
  | referenceItem :: rest =>
      if (label referenceItem === Some "item")
         && match inVs referenceItem with
            | Some targets => includes targets (id range)
            | None => false
            end then
        locations ← definitionDocuments referenceItem (documents (database this)) locations;
        referenceItems range rest locations
      else referenceItems range rest locations
  end.

(** [for (const rangeId of containsEdge.inVs)]. *)
Fixpoint definitionRanges (documentData : DocumentData) (position : Position)
    (rangeIds : list Z) (locations : list vscode.Location)
    : Completion (list vscode.Location) :=
  match rangeIds with
  | [] => Normal locations
  | rangeId :: rest =>
      match List.find (fun vertex => id vertex === Some rangeId) (vertices documentData) with
      | Some range =>
          if label range === Some "range" then
            inside ← withinRange position range;
            if inside : bool then
              locations ← referenceItems range (edges documentData) locations;
              definitionRanges documentData position rest locations
            else definitionRanges documentData position rest locations
          else definitionRanges documentData position rest locations
      | None => definitionRanges documentData position rest locations
      end
  end.
End Definitions.

(** [if (locations.length === 0) return null; return locations]. *)
Definition nonEmpty (locations : list vscode.Location) : option (list vscode.Location) :=
  match locations with
  | [] => None
  | _ :: _ => Some locations
  end.

Definition definitionBody (this : LSIFBackend) (documentUri : string) (position : Position)
    : Completion (option (list vscode.Location)) :=
  match JSMap.get (Some documentUri) (documents (database this)) with
  | None => Normal None
  | Some documentData =>
      match findContains documentData with
      | None => Normal None
      | Some containsEdge =>
          match inVs containsEdge with
          | None => Throw TypeError
          | Some rangeIds =>
              locations ← definitionRanges this documentData position rangeIds [];
              Normal (nonEmpty locations)
          end
      end
  end.

Definition getDefinitionData (this : LSIFBackend) (documentUri : string) (position : Position)
    : Outcome (option (list vscode.Location)) :=
  match decodeURIComponent documentUri with
  | None => {| completion := Throw URIError; argument := position; backend := this |}
  | Some documentUri =>
      let position := bump position in
      {| completion := definitionBody this documentUri position;
         argument := position; backend := this |}
  end.

(** *** References *)

Section References.
Variable this : LSIFBackend.

(** The loop that looks for the range, left by [break] at the first match. *)
Fixpoint findRange (documentData : DocumentData) (position : Position)
    (rangeIds : list Z) : Completion (option Element) :=
  match rangeIds with
  | [] => Normal None
  | rangeID :: rest =>
      match List.find (fun vertex => id vertex === Some rangeID) (vertices documentData) with
      | Some range =>
          if label range === Some "range" then
            inside ← withinRange position range;
            if inside : bool then Normal (Some range)
            else findRange documentData position rest
          else findRange documentData position rest
      | None => findRange documentData position rest
      end
  end.

(** [referenceEdges], gathered over every shard in the order of the map. *)
Definition collectReferenceEdges (referenceResult : Element) : list Element :=
  flat_map
    (fun entry : option string * DocumentData =>
       List.filter
         (fun edge => (label edge === Some "item")
                      && (outV edge === id referenceResult)
                      && (property edge === Some "references"))
         (edges (snd entry)))
    (documents (database this)).

(** [for (const rangeId of itemEdge.inVs)]. *)
Fixpoint referenceRanges (targetDocumentUri : option string)
    (targetDocumentData : DocumentData) (rangeIds : list Z)
    (locations : list vscode.Location) : Completion (list vscode.Location) :=
  match rangeIds with
  | [] => Normal locations
  | rangeId :: rest =>
      match List.find (fun vertex => (id vertex === Some rangeId)
                                     && (label vertex === Some "range"))
                      (vertices targetDocumentData) with
      | Some referenceRange =>
          location ← toLocation targetDocumentUri referenceRange;
          referenceRanges targetDocumentUri targetDocumentData rest (locations ++ [location])
      | None => referenceRanges targetDocumentUri targetDocumentData rest locations
      end
  end.

(** [for (const itemEdge of referenceEdges)]. *)
Fixpoint referenceLocations (documentUri : string) (itemEdges : list Element)
    (locations : list vscode.Location) : Completion (list vscode.Location) :=
  match itemEdges with
  | [] => Normal locations
  | itemEdge :: rest =>
      let targetDocumentUri := orElse (uriOfId this (shard itemEdge)) (Some documentUri) in
      match JSMap.get targetDocumentUri (documents (database this)) with
      | None => referenceLocations documentUri rest locations
      | Some targetDocumentData =>
          match inVs itemEdge with
          | None => Throw TypeError
          | Some rangeIds =>
              locations ← referenceRanges targetDocumentUri targetDocumentData
                            rangeIds locations;
              referenceLocations documentUri rest locations
          end
      end
  end.
End References.

Definition referencesBody (this : LSIFBackend) (documentUri : string) (position : Position)
    : Completion (option (list vscode.Location)) :=
  match JSMap.get (Some documentUri) (documents (database this)) with
  | None => Normal None
  | Some documentData =>
  match findContains documentData with
  | None => Normal None
  | Some containsEdge =>
  match inVs containsEdge with
  | None => Throw TypeError
  | Some rangeIds =>
  rangeVertex ← findRange documentData position rangeIds;
  match rangeVertex with
  | None => Normal None
  | Some rangeVertex =>
  match List.find (fun edge => (label edge === Some "next") && (outV edge === id rangeVertex))
                  (edges documentData) with
  | None => Normal None
  | Some resultSetEdge =>
  match List.find (fun vertex => (id vertex === inV resultSetEdge)
                                 && (label vertex === Some "resultSet"))
                  (vertices documentData) with
  | None => Normal None
  | Some resultSetVertex =>
  match List.find (fun edge => (label edge === Some "textDocument/references")
                               && (outV edge === id resultSetVertex))
                  (edges documentData) with
  | None => Normal None
  | Some referenceEdge =>
  match List.find (fun vertex => (id vertex === inV referenceEdge)
                                 && (label vertex === Some "referenceResult"))
                  (vertices documentData) with
  | None => Normal None
  | Some referenceResult =>
  match collectReferenceEdges this referenceResult with
  | [] => Normal None
  | referenceEdges =>
      locations ← referenceLocations this documentUri referenceEdges [];
      Normal (nonEmpty locations)
  end end end end end end end end end.

Definition getReferencesData (this : LSIFBackend) (documentUri : string) (position : Position)
    : Outcome (option (list vscode.Location)) :=
  match decodeURIComponent documentUri with
  | None => {| completion := Throw URIError; argument := position; backend := this |}
  | Some documentUri =>
      let position := bump position in
      {| completion := referencesBody this documentUri position;
         argument := position; backend := this |}
  end.

End WithHost.

(** ** Records for the examples *)

Definition noFields : Element :=
  {| type := None; label := None; id := None; uri := None; start := None;
     end_ := None; outV := None; inV := None; inVs := None; property := None;
     shard := None; result := None |}.

Definition vertex (i : Z) (l : string) : Element :=
  {| type := Some "vertex"; label := Some l; id := Some i; uri := None;
     start := None; end_ := None; outV := None; inV := None; inVs := None;
     property := None; shard := None; result := None |}.

Definition documentVertex (i : Z) (u : string) : Element :=
  {| type := Some "vertex"; label := Some "document"; id := Some i; uri := Some u;
     start := None; end_ := None; outV := None; inV := None; inVs := None;
     property := None; shard := None; result := None |}.

Definition rangeVertex (i : Z) (sl sc el ec : Z) : Element :=
  {| type := Some "vertex"; label := Some "range"; id := Some i; uri := None;
     start := Some {| line := sl; character := sc |};
     end_ := Some {| line := el; character := ec |};
     outV := None; inV := None; inVs := None;
     property := None; shard := None; result := None |}.

Definition hoverResultVertex (i : Z) (fragments : list string) : Element :=
  {| type := Some "vertex"; label := Some "hoverResult"; id := Some i; uri := None;
     start := None; end_ := None; outV := None; inV := None; inVs := None;
     property := None; shard := None;
     result :=
       Some {| contents :=
                 Some (Fragments (map (fun s => {| value := Some s |}) fragments)) |} |}.

(** An edge with one target ([inV]). *)
Definition edge (i : Z) (l : string) (from to : Z) : Element :=
  {| type := Some "edge"; label := Some l; id := Some i; uri := None;
     start := None; end_ := None; outV := Some from; inV := Some to; inVs := None;
     property := None; shard := None; result := None |}.

(** An edge with several targets ([inVs]). *)
Definition containsEdge (i : Z) (from : Z) (targets : list Z) : Element :=
  {| type := Some "edge"; label := Some "contains"; id := Some i; uri := None;
     start := None; end_ := None; outV := Some from; inV := None; inVs := Some targets;
     property := None; shard := None; result := None |}.

Definition itemEdge (i : Z) (from : Z) (targets : list Z) (p : string) (s : option Z)
    : Element :=
  {| type := Some "edge"; label := Some "item"; id := Some i; uri := None;
     start := None; end_ := None; outV := Some from; inV := None; inVs := Some targets;
     property := Some p; shard := s; result := None |}.

(** The backend after a load of [lines] into a new backend, when it
    completes. *)
Definition loaded (lines : list Line) : option LSIFBackend :=
  match load (S (length lines)) lines newBackend with
  | Some (Normal _, this) => Some this
  | _ => None
  end.

(** The end-to-end scenario of the specification, the contains edge last. *)
Definition scenario : list Line :=
  map JSONobject
    [ documentVertex 1 "file:///a";
      rangeVertex 2 2 2 2 6;
      vertex 3 "resultSet";
      edge 4 "next" 2 3;
      hoverResultVertex 5 ["x"];
      edge 6 "textDocument/hover" 3 5;
      containsEdge 7 1 [2] ].

(** ** The flat backend

    The class [LSIFBackend] of src/lsifBackend.ts keeps every vertex and
    every edge of the index in two maps keyed by id.  Its [load] and its
    hover, definition and reference resolvers are embedded here, next to the
    sharded ones. *)

Module Flat.

Record LSIFDatabase := mkLSIFDatabase {
  vertices : list (option Z * Element);
  edges : list (option Z * Element)
}.

Definition newBackend : LSIFDatabase := {| vertices := []; edges := [] |}.

(** [map.values()], in insertion order. *)
Definition values (m : list (option Z * Element)) : list Element := map snd m.

Definition ingestLine (ln : Line) (this : LSIFDatabase)
    : Completion unit * LSIFDatabase :=
  match ln with
  | Blank | NotJSON => (Throw SyntaxError, this)
  | JSONnull => (Throw TypeError, this)
  | JSONobject obj =>
      if type obj === Some "vertex" then
        (Normal (), {| vertices := JSMap.set (id obj) obj (vertices this);
                       edges := edges this |})
      else if type obj === Some "edge" then
        (Normal (), {| vertices := vertices this;
                       edges := JSMap.set (id obj) obj (edges this) |})
      else (Normal (), this)
  end.

Fixpoint forEach (lines : list Line) (this : LSIFDatabase)
    : Completion unit * LSIFDatabase :=
  match lines with
  | [] => (Normal (), this)
  | ln :: rest =>
      match ingestLine ln this with
      | (Normal _, this) => forEach rest this
      | (Throw e, this) => (Throw e, this)
      end
  end.

Definition load (lines : list Line) (this : LSIFDatabase)
    : Completion unit * LSIFDatabase :=
  forEach (List.filter (fun ln => negb (isBlank ln)) lines) this.

(** The first document vertex with the uri, and the first contains edge
    out of a vertex. *)
Definition findDocument (this : LSIFDatabase) (documentUri : string) : option Element :=
  List.find (fun vertex => (label vertex === Some "document")
                           && (uri vertex === Some documentUri))
            (values (vertices this)).

Definition findContainsOf (this : LSIFDatabase) (documentVertex : Element)
    : option Element :=
  List.find (fun edge => (label edge === Some "contains")
                         && (outV edge === id documentVertex))
            (values (edges this)).

(** [if (hoverResult && hoverResult.label === 'hoverResult') return ...]:
    [Some text] is the return, [None] the fall through. *)
Definition hoverText (hoverResult : option Element) : Completion (option string) :=
  match hoverResult with
  | Some h =>
      if label h === Some "hoverResult" then
        text ← joinContents (Some h); Normal (Some text)
      else Normal None
  | None => Normal None
  end.

Section Hover.
Variable this : LSIFDatabase.

Fixpoint hoverViaNext (edge : Element) (es : list Element) : Completion (option string) :=
  match es with
  | [] => Normal None
  | edge2 :: rest =>
      if (label edge2 === Some "textDocument/hover") && (outV edge2 === inV edge) then
        r ← hoverText (JSMap.get (inV edge2) (vertices this));
        match r with
        | Some text => Normal (Some text)
        | None => hoverViaNext edge rest
        end
      else hoverViaNext edge rest
  end.

Fixpoint hoverEdges (range : Element) (es : list Element) : Completion (option string) :=
  match es with
  | [] => Normal None
  | edge :: rest =>
      if (label edge === Some "next") && (outV edge === id range) then
        r ← hoverViaNext edge (values (edges this));
        match r with
        | Some text => Normal (Some text)
        | None => hoverEdges range rest
        end
      else if (label edge === Some "textDocument/hover") && (outV edge === id range) then
        r ← hoverText (JSMap.get (inV edge) (vertices this));
        match r with
        | Some text => Normal (Some text)
        | None => hoverEdges range rest
        end
      else hoverEdges range rest
  end.

(** [const range = this.database.vertices.get(rangeId)] is not checked
    before [range.start] is read. *)
Fixpoint hoverRanges (position : Position) (rangeIds : list Z) : Completion (option string) :=
  match rangeIds with
  | [] => Normal None
  | rangeId :: rest =>
      match JSMap.get (Some rangeId) (vertices this) with
      | None => Throw TypeError
      | Some range =>
          inside ← withinRange position range;
          if inside : bool then
            r ← hoverEdges range (values (edges this));
            match r with
            | Some text => Normal (Some text)
            | None => hoverRanges position rest
            end
          else hoverRanges position rest
      end
  end.
End Hover.

Definition getHoverData (this : LSIFDatabase) (documentUri : string) (position : Position)
    : Completion (option string) * Position :=
  match decodeURIComponent documentUri with
  | None => (Throw URIError, position)
  | Some documentUri =>
      let position := bump position in
      (match findDocument this documentUri with
       | None => Normal None
       | Some documentVertex =>
           match findContainsOf this documentVertex with
           | None => Normal None
           | Some containsEdge =>
               match inVs containsEdge with
               | None => Throw TypeError
               | Some rangeIds => hoverRanges this position rangeIds
               end
           end
       end, position)
  end.

(** *** Definition: the locals [documentVertex] and [containsEdge] are
    assigned inside the loops and pass from one turn to the next. *)

Section WithHost.
Context `{Host}.

Record Locals := mkLocals {
  documentVertex : option Element;
  containsEdge : Element;
  locations : list vscode.Location
}.

Section Definitions.
Variable this : LSIFDatabase.

(** The search for the contains edge of the defining document; the
    local keeps its value when the search finds nothing. *)
Fixpoint searchContains (documentVertex : option Element) (es : list Element)
    (containsEdge : Element) : Completion Element :=
  match es with
  | [] => Normal containsEdge
  | edge :: rest =>
      if label edge === Some "contains" then
        match documentVertex with
        | None => Throw TypeError
        | Some dv =>
            if outV edge === id dv then Normal edge
            else searchContains documentVertex rest containsEdge
        end
      else searchContains documentVertex rest containsEdge
  end.

(** [for (const rangeDefinedItemID of containsEdge.inVs)]. *)
Fixpoint definedRanges (documentVertex : option Element) (definedItem : Element)
    (rangeIds : list Z) (locations : list vscode.Location)
    : Completion (list vscode.Location) :=
  match rangeIds with
  | [] => Normal locations
  | rangeDefinedItemID :: rest =>
      match inVs definedItem with
      | None => Throw TypeError
      | Some targets =>
          if includes targets (Some rangeDefinedItemID) then
            match documentVertex, JSMap.get (Some rangeDefinedItemID) (vertices this) with
            | Some dv, Some rangeDefinedItem =>
                location ← toLocation (uri dv) rangeDefinedItem;
                definedRanges documentVertex definedItem rest (locations ++ [location])
            | Some dv, None => _ ← Uri_parse (uri dv); Throw TypeError
            | None, _ => Throw TypeError
            end
          else definedRanges documentVertex definedItem rest locations
      end
  end.

(** [for (const definedItem of this.database.edges.values())]. *)
Fixpoint definedItems (referenceItem : Element) (es : list Element) (st : Locals)
    : Completion Locals :=
  match es with
  | [] => Normal st
  | definedItem :: rest =>
      if (label definedItem === Some "item")
         && (outV definedItem === outV referenceItem)
         && (property definedItem === Some "definitions") then
        let documentVertex := JSMap.get (shard definedItem) (vertices this) in
        containsEdge ← searchContains documentVertex (values (edges this)) (containsEdge st);
        match inVs containsEdge with
        | None => Throw TypeError
        | Some rangeIds =>
            locations ← definedRanges documentVertex definedItem rangeIds (locations st);
            definedItems referenceItem rest
              {| documentVertex := documentVertex; containsEdge := containsEdge;
                 locations := locations |}
        end
      else definedItems referenceItem rest st
  end.

(** [for (const referenceItem of this.database.edges.values())]. *)
Fixpoint referenceItems (range : Element) (es : list Element) (st : Locals)
    : Completion Locals :=
  match es with
  | [] => Normal st
  | referenceItem :: rest =>
      if (label referenceItem === Some "item")
         && match inVs referenceItem with
            | Some targets => includes targets (id range)
            | None => false
            end then
        st ← definedItems referenceItem (values (edges this)) st;
        referenceItems range rest st
      else referenceItems range rest st
  end.

(** [for (const rangeID of containsEdge.inVs)], over the array of the
    contains edge found first. *)
Fixpoint definitionRanges (position : Position) (rangeIds : list Z) (st : Locals)
    : Completion Locals :=
  match rangeIds with
  | [] => Normal st
  | rangeID :: rest =>
      match JSMap.get (Some rangeID) (vertices this) with
      | None => Throw TypeError
      | Some range =>
          inside ← withinRange position range;
          if inside : bool then
            st ← referenceItems range (values (edges this)) st;
            definitionRanges position rest st
          else definitionRanges position rest st
      end
  end.
End Definitions.

Definition getDefinitionData (this : LSIFDatabase) (documentUri : string)
    (position : Position) : Completion (option (list vscode.Location)) * Position :=
  match decodeURIComponent documentUri with
  | None => (Throw URIError, position)
  | Some documentUri =>
      let position := bump position in
      (match findDocument this documentUri with
       | None => Normal None
       | Some documentVertex =>
           match findContainsOf this documentVertex with
           | None => Normal None
           | Some containsEdge =>
               match inVs containsEdge with
               | None => Throw TypeError
               | Some rangeIds =>
                   st ← definitionRanges this position rangeIds
                          {| documentVertex := Some documentVertex;
                             containsEdge := containsEdge; locations := [] |};
                   Normal (nonEmpty (locations st))
               end
           end
       end, position)
  end.

(** *** References *)

Section References.
Variable this : LSIFDatabase.

(** [for (const rangeID of containsEdge.inVs)]: the loop has no [break],
    a later range that holds the position replaces an earlier one. *)
Fixpoint findRange (position : Position) (rangeIds : list Z)
    (rangeVertex : option Element) : Completion (option Element) :=
  match rangeIds with
  | [] => Normal rangeVertex
  | rangeID :: rest =>
      match JSMap.get (Some rangeID) (vertices this) with
      | None => Throw TypeError
      | Some range =>
          inside ← withinRange position range;
          findRange position rest (if inside : bool then Some range else rangeVertex)
      end
  end.

(** The target of the first edge labelled [l] out of [v]. *)
Definition follow (l : string) (v : Element) : option Element :=
  match List.find (fun edge => (label edge === Some l) && (outV edge === id v))
                  (values (edges this)) with
  | Some edge => JSMap.get (inV edge) (vertices this)
  | None => None
  end.

(** [if (!v || v.label !== l) return null]. *)
Definition labelled (l : string) (v : option Element) : option Element :=
  match v with
  | Some v => if label v === Some l then Some v else None
  | None => None
  end.

Definition itemEdgesOf (referenceResult : Element) : list Element :=
  List.filter
    (fun edge => (label edge === Some "item")
                 && (outV edge === id referenceResult)
                 && negb (property edge === None)
                 && (property edge === Some "references"))
    (values (edges this)).

(** [for (const rangeId of itemEdge.inVs)]. *)
Fixpoint referenceRanges (documentVertex : Element) (rangeIds : list Z)
    (locations : list vscode.Location) : Completion (list vscode.Location) :=
  match rangeIds with
  | [] => Normal locations
  | rangeId :: rest =>
      match labelled "range" (JSMap.get (Some rangeId) (vertices this)) with
      | Some referenceRange =>
          location ← toLocation (uri documentVertex) referenceRange;
          referenceRanges documentVertex rest (locations ++ [location])
      | None => referenceRanges documentVertex rest locations
      end
  end.

(** [for (const itemEdge of itemEdges)]. *)
Fixpoint referenceLocations (itemEdges : list Element)
    (locations : list vscode.Location) : Completion (list vscode.Location) :=
  match itemEdges with
  | [] => Normal locations
  | itemEdge :: rest =>
      match JSMap.get (shard itemEdge) (vertices this) with
      | None => referenceLocations rest locations
      | Some documentVertex =>
          match inVs itemEdge with
          | None => Throw TypeError
          | Some rangeIds =>
              locations ← referenceRanges documentVertex rangeIds locations;
              referenceLocations rest locations
          end
      end
  end.
End References.

Definition getReferencesData (this : LSIFDatabase) (documentUri : string)
    (position : Position) : Completion (option (list vscode.Location)) * Position :=
  match decodeURIComponent documentUri with
  | None => (Throw URIError, position)
  | Some documentUri =>
      let position := bump position in
      (match findDocument this documentUri with
       | None => Normal None
       | Some documentVertex =>
       match findContainsOf this documentVertex with
       | None => Normal None
       | Some containsEdge =>
       match inVs containsEdge with
       | None => Throw TypeError
       | Some rangeIds =>
       rangeVertex ← findRange this position rangeIds None;
       match rangeVertex with
       | None => Normal None
       | Some rangeVertex =>
       match labelled "resultSet" (follow this "next" rangeVertex) with
       | None => Normal None
       | Some resultSetVertex =>
       match labelled "referenceResult"
               (follow this "textDocument/references" resultSetVertex) with
       | None => Normal None
       | Some referenceResult =>
       match itemEdgesOf this referenceResult with
       | [] => Normal None
       | itemEdges =>
           locations ← referenceLocations this itemEdges [];
           Normal (nonEmpty locations)
       end end end end end end end, position)
  end.
End WithHost.

End Flat.

(** ** The providers of the host

    The hover, definition and reference providers that [activate] registers
    (extension.ts).  Each hands the backend a position object of its own,
    made from the editor's position, and turns a falsy answer into
    [undefined]. *)

(** [{ line: position.line, character: position.character }]. *)
Definition freshPosition (position : Position) : Position :=
  {| line := line position; character := character position |}.

(** [if (hoverData) return new Hover(hoverData)]: the empty text is falsy. *)
Definition provideHover (lsifBackend : LSIFBackend) (uri : string) (position : Position)
    : Completion (option string) :=
  hoverData ← completion (getHoverData lsifBackend uri (freshPosition position));
  match hoverData with
  | Some text => if text === "" then Normal None else Normal (Some text)
  | None => Normal None
  end.

Section WithHost.
Context `{Host}.

(** [if (locations && locations.length > 0) return locations; else return
    undefined]. *)
Definition orUndefined (locations : option (list vscode.Location))
    : option (list vscode.Location) :=
  match locations with
  | Some (l :: ls) => Some (l :: ls)
  | Some [] | None => None
  end.

Definition provideDefinition (lsifBackend : LSIFBackend) (uri : string)
    (position : Position) : Completion (option (list vscode.Location)) :=
  definitionLocations ←
    completion (getDefinitionData lsifBackend uri (freshPosition position));
  Normal (orUndefined definitionLocations).

Definition provideReferences (lsifBackend : LSIFBackend) (uri : string)
    (position : Position) : Completion (option (list vscode.Location)) :=
  references ← completion (getReferencesData lsifBackend uri (freshPosition position));
  Normal (orUndefined references).

End WithHost.

(** [try { lsifBackend.load(path) } catch (error) { ... }], of the load
    command and of the activation: the error is logged and the backend
    stays in use as the load left it. *)
Definition tryLoad (fuel : nat) (lines : list Line) (lsifBackend : LSIFBackend)
    : option LSIFBackend :=
  snd <$> load fuel lines lsifBackend.

(** ** The host of the examples

    A host whose [Uri.parse] accepts every string and names the Uri by it.
    The uris of the examples are file uris, which [vscode.Uri.parse]
    accepts. *)
#[global] Instance acceptingHost : Host :=
  {| Uri := option string; Uri_parse := fun u => Normal u |}.

(** An index with a reference and its definition in one document. *)
Definition crossReference : list Line :=
  map JSONobject
    [ documentVertex 1 "file:///a";
      rangeVertex 2 1 1 1 5;
      vertex 3 "resultSet";
      edge 4 "next" 2 3;
      vertex 5 "referenceResult";
      edge 6 "textDocument/references" 3 5;
      itemEdge 7 5 [2] "references" (Some 1);
      rangeVertex 8 3 1 3 5;
      itemEdge 9 5 [8] "definitions" (Some 1);
      containsEdge 10 1 [2; 8] ].

Definition crossReferenceBackend : LSIFBackend :=
  {| database :=
       {| documents :=
            [(Some "file:///a",
              {| vertices :=
                   [ documentVertex 1 "file:///a"; rangeVertex 2 1 1 1 5;
                     vertex 3 "resultSet"; vertex 5 "referenceResult";
                     rangeVertex 8 3 1 3 5 ];
                 edges :=
                   [ edge 4 "next" 2 3; edge 6 "textDocument/references" 3 5;
                     itemEdge 7 5 [2] "references" (Some 1);
                     itemEdge 9 5 [8] "definitions" (Some 1);
                     containsEdge 10 1 [2; 8] ] |})];
          vertexIdToDocument := {[ Some 1 := Some "file:///a" ]} |};
     currentDocumentUri := unsorted |}.

(** ** Predicates of the statements *)

(** A position of the index in caller coordinates: one less on the line
    and on the character. *)
Definition minusOne (p : Position) : Position :=
  {| line := line p - 1; character := character p - 1 |}.

(** [location] has the range of the stored vertex [v] in caller
    coordinates: the two bounds of [v], none of their coordinates below 1,
    each with one subtracted from its line and its character, and the
    earlier of the two first. *)
Definition locationOf `{Host} (v : Element) (location : vscode.Location) : Prop :=
  exists s e,
    start v = Some s /\ end_ v = Some e
    /\ 1 <= line s /\ 1 <= character s /\ 1 <= line e /\ 1 <= character e
    /\ vscode.range location =
       if vscode.isBefore s e
       then {| vscode.start := minusOne s; vscode.end_ := minusOne e |}
       else {| vscode.start := minusOne e; vscode.end_ := minusOne s |}.

(** [location] is the one of the vertex [v] in the document [u]: [u] is a
    uri that [Uri.parse] accepts, and gives the Uri of the location. *)
Definition locatedAt `{Host} (u : option string) (v : Element)
    (location : vscode.Location) : Prop :=
  Uri_parse u = Normal (vscode.uri location) /\ locationOf v location.

(** ** Streams of the examples *)

Definition scenarioBackend : LSIFBackend :=
  {| database :=
       {| documents :=
            [(Some "file:///a",
              {| vertices :=
                   [ documentVertex 1 "file:///a"; rangeVertex 2 2 2 2 6;
                     vertex 3 "resultSet"; hoverResultVertex 5 ["x"] ];
                 edges :=
                   [ edge 4 "next" 2 3; edge 6 "textDocument/hover" 3 5;
                     containsEdge 7 1 [2] ] |})];
          vertexIdToDocument := {[ Some 1 := Some "file:///a" ]} |};
     currentDocumentUri := unsorted |}.

(** A range with a direct hover edge whose target, vertex 9, is not in the
    index. *)
Definition danglingHover : list Line :=
  map JSONobject
    [ documentVertex 1 "file:///a";
      rangeVertex 2 2 2 2 6;
      edge 3 "textDocument/hover" 2 9;
      containsEdge 4 1 [2] ].

(** The same, with a target that is a resultSet vertex. *)
Definition mislabelledHover : list Line :=
  map JSONobject
    [ documentVertex 1 "file:///a";
      rangeVertex 2 2 2 2 6;
      vertex 9 "resultSet";
      edge 3 "textDocument/hover" 2 9;
      containsEdge 4 1 [2] ].

(** A contains edge that lists vertex 5, which is not in the index, before
    range 2. *)
Definition danglingRange : list Line :=
  map JSONobject
    [ documentVertex 1 "file:///a";
      rangeVertex 2 2 2 2 6;
      containsEdge 4 1 [5; 2] ].

(** The flat backend after a load of [lines] into a new one, when it
    completes. *)
Definition flatLoaded (lines : list Line) : option Flat.LSIFDatabase :=
  match Flat.load lines Flat.newBackend with
  | (Normal _, this) => Some this
  | _ => None
  end.

(** A definitions edge with two targets, ranges 6 and 7, both in the shard
    and both listed by its contains edge. *)
Definition twoDefinitions : list Line :=
  map JSONobject
    [ documentVertex 1 "file:///a";
      rangeVertex 2 1 1 1 5;
      rangeVertex 6 3 1 3 5;
      rangeVertex 7 5 1 5 5;
      itemEdge 4 10 [2] "references" (Some 1);
      itemEdge 5 10 [6; 7] "definitions" (Some 1);
      containsEdge 8 1 [2; 6; 7] ].

(** A references edge without [shard], met in the shard of file:///b, for
    a query in file:///a. *)
Definition referenceElsewhere : list Line :=
  map JSONobject
    [ documentVertex 1 "file:///a";
      rangeVertex 2 1 1 1 5;
      vertex 3 "resultSet";
      edge 4 "next" 2 3;
      vertex 5 "referenceResult";
      edge 6 "textDocument/references" 3 5;
      containsEdge 7 1 [2];
      documentVertex 8 "file:///b";
      rangeVertex 9 4 1 4 5;
      itemEdge 10 5 [9] "references" None;
      containsEdge 11 8 [9] ].

(** A record without [type], and a range vertex without [id] and [label]. *)
Definition untyped : Element :=
  {| type := None; label := Some "range"; id := Some 2; uri := None;
     start := Some {| line := 1; character := 1 |};
     end_ := Some {| line := 1; character := 5 |};
     outV := None; inV := None; inVs := None; property := None;
     shard := None; result := None |}.

Definition anonymous : Element :=
  {| type := Some "vertex"; label := None; id := None; uri := None;
     start := Some {| line := 1; character := 1 |};
     end_ := Some {| line := 1; character := 5 |};
     outV := None; inV := None; inVs := None; property := None;
     shard := None; result := None |}.

(** The lines that reach the callback. *)
Definition nonBlank (lines : list Line) : list Line :=
  List.filter (fun ln => negb (isBlank ln)) lines.

(** A record that moves no cursor. *)
Definition plain (obj : Element) : Prop :=
  isDocumentVertex obj = false /\ isContainsEdge obj = false.

Definition isVertex (obj : Element) : bool := type obj === Some "vertex".
Definition isEdge (obj : Element) : bool := type obj === Some "edge".

(** The shard [d] with the vertices and the edges of [records] appended. *)
Definition appended (records : list Element) (d : DocumentData) : DocumentData :=
  {| vertices := vertices d ++ List.filter isVertex records;
     edges := edges d ++ List.filter isEdge records |}.

(** [documents.has("unsorted") || documents.set("unsorted", ...)]. *)
Definition withUnsorted (docs : list (option string * DocumentData))
    : list (option string * DocumentData) :=
  if JSMap.has unsorted docs then docs else JSMap.set unsorted emptyDocumentData docs.

(** Every shard of [docs], the unassigned one apart, is still in [docs']
    and holds there what it held, followed by what came since. *)
Definition extends (docs docs' : list (option string * DocumentData)) : Prop :=
  forall key d,
    key <> unsorted -> JSMap.get key docs = Some d ->
    exists d', JSMap.get key docs' = Some d'
               /\ vertices d `prefix_of` vertices d'
               /\ edges d `prefix_of` edges d'.

Definition grows (this this' : LSIFBackend) : Prop :=
  extends (documents (database this)) (documents (database this')).

(** A first load of the scenario followed by a second load of the same
    lines. *)
Definition loadedTwice (lines : list Line) : option (Completion unit * LSIFBackend) :=
  this ← loaded lines; load (S (length lines)) lines this.

(** *** The repair pass, as the specification words it *)

(** The document an edge of the unassigned shard is migrated to: the edge
    is an item edge whose [shard] is truthy (present and not 0) and resolves
    through the id-to-uri map to a truthy (non-empty) uri. *)
Definition target (this : LSIFBackend) (e : Element) : option string :=
  if (label e === Some "item") && truthyNum (shard e) then
    if truthy (uriOfId this (shard e)) then uriOfId this (shard e) else None
  else None.

(** What the edges [es] of the unassigned shard bring to the shard of [u]:
    each migrated item edge, followed by the edge whose id is one less, and
    the vertex whose id is two less, when the unassigned shard has them. *)
Definition edgesMigratedBy (this : LSIFBackend) (u : string) (es : list Element)
    : list Element :=
  flat_map
    (fun e => if bool_decide (target this e = Some u)
              then e :: option_list (findIdMinus 1 e (unsortedEdges this))
              else [])
    es.

Definition verticesMigratedBy (this : LSIFBackend) (u : string) (es : list Element)
    : list Element :=
  flat_map
    (fun e => if bool_decide (target this e = Some u)
              then option_list (findIdMinus 2 e (unsortedVertices this))
              else [])
    es.

Definition withMigrated (this : LSIFBackend) (es : list Element)
    (entry : option string * DocumentData) : option string * DocumentData :=
  match entry with
  | (Some u, d) =>
      (Some u, {| vertices := vertices d ++ verticesMigratedBy this u es;
                  edges := edges d ++ edgesMigratedBy this u es |})
  | (None, d) => (None, d)
  end.

(** The shards after the repair pass: the unassigned shard is gone, every
    other shard has received what is migrated to it, and nothing else. *)
Definition repaired (this : LSIFBackend) : list (option string * DocumentData) :=
  map (withMigrated this (unsortedEdges this))
      (JSMap.delete unsorted (documents (database this))).

(** Every migrated edge goes to a shard of the store other than the
    unassigned one. *)
Definition targetsResolve (this : LSIFBackend) : Prop :=
  forall e u,
    e ∈ unsortedEdges this -> target this e = Some u ->
    u <> "unsorted" /\ is_Some (JSMap.get (Some u) (documents (database this))).

(** The keys of a [Map] are distinct. *)
Definition keysDistinct (this : LSIFBackend) : Prop :=
  NoDup (map fst (documents (database this))).

(** The backend once the loop of the repair pass has visited the edges
    [es] of the unassigned shard. *)
Definition stateAfter (this : LSIFBackend) (es : list Element) : LSIFBackend :=
  setDocuments (map (withMigrated this es) (documents (database this))) this.

(** What ingestion keeps true of a backend: the keys of the map of
    documents are distinct, and every uri of the id-to-uri map has its
    shard. *)
Definition wellFormedStore (this : LSIFBackend) : Prop :=
  keysDistinct this
  /\ forall k u,
       vertexIdToDocument (database this) !! k = Some (Some u) ->
       is_Some (JSMap.get (Some u) (documents (database this))).

(** No document of the index has the reserved name of the unassigned
    shard as its uri. *)
Definition noDocumentNamedUnsorted (this : LSIFBackend) : Prop :=
  map_Forall (fun _ u => u <> Some "unsorted") (vertexIdToDocument (database this)).

(** A cross-file triple in the unassigned block: after the contains edge
    of file:///a come resultSet 4, next edge 5 and item edge 6, whose
    [shard] is document 1; vertex 7 and edge 8 stay behind. *)
Definition unassignedTriple : list Line :=
  map JSONobject
    [ documentVertex 1 "file:///a";
      rangeVertex 2 1 1 1 5;
      containsEdge 3 1 [2];
      vertex 4 "resultSet";
      edge 5 "next" 2 4;
      itemEdge 6 4 [2] "references" (Some 1);
      vertex 7 "referenceResult";
      edge 8 "textDocument/references" 4 7 ].

Definition unassignedTripleBackend : LSIFBackend :=
  {| database :=
       {| documents :=
            [(Some "file:///a",
              {| vertices :=
                   [ documentVertex 1 "file:///a"; rangeVertex 2 1 1 1 5;
                     vertex 4 "resultSet" ];
                 edges :=
                   [ containsEdge 3 1 [2]; itemEdge 6 4 [2] "references" (Some 1);
                     edge 5 "next" 2 4 ] |})];
          vertexIdToDocument := {[ Some 1 := Some "file:///a" ]} |};
     currentDocumentUri := unsorted |}.

(** The same triple for a document whose id is 0. *)
Definition shardZero : list Line :=
  map JSONobject
    [ documentVertex 0 "file:///a";
      containsEdge 3 0 [];
      vertex 4 "resultSet";
      edge 5 "next" 2 4;
      itemEdge 6 4 [2] "references" (Some 0) ].

(** A definitions edge whose target, vertex 6, is a resultSet. *)
Definition mislabelledDefinition : list Line :=
  map JSONobject
    [ documentVertex 1 "file:///a";
      rangeVertex 2 1 1 1 5;
      vertex 6 "resultSet";
      itemEdge 4 10 [2] "references" (Some 1);
      itemEdge 5 10 [6] "definitions" (Some 1);
      containsEdge 8 1 [2] ].

(** The scenario with the contains edge where a producer that closes the
    list of ranges first would put it: right after the range. *)
Definition scenarioContainsFirst : list Line :=
  map JSONobject
    [ documentVertex 1 "file:///a";
      rangeVertex 2 2 2 2 6;
      containsEdge 7 1 [2];
      vertex 3 "resultSet";
      edge 4 "next" 2 3;
      hoverResultVertex 5 ["x"];
      edge 6 "textDocument/hover" 3 5 ].

(** Two definitions edges out of result 10, one in each of two documents. *)
Definition definitionsInTwoDocuments : list Line :=
  map JSONobject
    [ documentVertex 1 "file:///a";
      rangeVertex 2 1 1 1 5;
      itemEdge 3 10 [2] "references" (Some 1);
      rangeVertex 4 3 1 3 5;
      itemEdge 5 10 [4] "definitions" (Some 1);
      containsEdge 6 1 [2; 4];
      documentVertex 7 "file:///b";
      rangeVertex 8 7 1 7 5;
      itemEdge 9 10 [8] "definitions" (Some 7);
      containsEdge 10 7 [8] ].

(** The vertex of the shard that the id [rangeId] of a contains edge names,
    when it is a range. *)
Definition rangeOf (documentData : DocumentData) (rangeId : Z) : option Element :=
  match List.find (fun vertex => id vertex === Some rangeId) (vertices documentData) with
  | Some range => if label range === Some "range" then Some range else None
  | None => None
  end.

(** *** Records as the LSIF format types them *)

(** A contains or item edge has its [inVs]; a range vertex has its [start]
    and its [end]; a hoverResult vertex has an array of contents. *)
Definition hasContents (h : Element) : Prop :=
  exists r cs, result h = Some r /\ contents r = Some (Fragments cs).

Definition wellTyped (obj : Element) : Prop :=
  (label obj = Some "contains" \/ label obj = Some "item" -> is_Some (inVs obj))
  /\ (label obj = Some "range" -> is_Some (start obj) /\ is_Some (end_ obj))
  /\ (label obj = Some "hoverResult" -> hasContents obj).

Definition wellTypedShard (d : DocumentData) : Prop :=
  Forall wellTyped (vertices d) /\ Forall wellTyped (edges d).

Definition wellTypedStore (this : LSIFBackend) : Prop :=
  forall key d, (key, d) ∈ documents (database this) -> wellTypedShard d.

(** Every textDocument/hover edge of the shard leads to a vertex of the
    shard that has hover contents. *)
Definition hoverTargetsPresent (d : DocumentData) : Prop :=
  forall e, e ∈ edges d -> label e = Some "textDocument/hover" ->
    exists h, List.find (fun vertex => id vertex === inV e) (vertices d) = Some h
              /\ hasContents h.

(** An index that opens with its metaData vertex, as LSIF dumps do. *)
Definition withMetaData : list Line :=
  map JSONobject
    [ vertex 0 "metaData";
      documentVertex 1 "file:///a";
      rangeVertex 2 1 1 1 5;
      containsEdge 3 1 [2] ].

(** An index whose document is named "unsorted", with an item edge that
    resolves to it. *)
Definition namedUnsorted : list Line :=
  map JSONobject
    [ documentVertex 1 "unsorted";
      itemEdge 5 4 [2] "references" (Some 1) ].

(** The backend during the repair pass of [namedUnsorted], once [n] copies
    of the item edge are in the unassigned shard. *)
Definition namedUnsortedAfter (n : nat) : LSIFBackend :=
  {| database :=
       {| documents :=
            [(unsorted,
              {| vertices := [documentVertex 1 "unsorted"];
                 edges := replicate n (itemEdge 5 4 [2] "references" (Some 1)) |})];
          vertexIdToDocument := {[ Some 1 := Some "unsorted" ]} |};
     currentDocumentUri := unsorted |}.

(** *** Statements about a whole load *)

(** A line that [JSON.parse] turns into an object, or that is skipped. *)
Definition isRecord (ln : Line) : Prop :=
  match ln with
  | Blank | JSONobject _ => True
  | NotJSON | JSONnull => False
  end.

(** The cursor, when set, names a shard of the store. *)
Definition cursorHasShard (this : LSIFBackend) : Prop :=
  truthy (currentDocumentUri this) = true ->
  is_Some (JSMap.get (currentDocumentUri this) (documents (database this))).

(** A backend as the constructor and the loads into it leave it while no
    document is named like the unassigned shard. *)
Definition readyStore (this : LSIFBackend) : Prop :=
  wellFormedStore this /\ cursorHasShard this.

(** [v] is among the vertices, [e] among the edges, of some shard. *)
Definition storedVertex (this : LSIFBackend) (v : Element) : Prop :=
  exists key d, (key, d) ∈ documents (database this) /\ v ∈ vertices d.

Definition storedEdge (this : LSIFBackend) (e : Element) : Prop :=
  exists key d, (key, d) ∈ documents (database this) /\ e ∈ edges d.

(** Every vertex of every shard has [Pv], every edge [Pe]. *)
Definition allStored (Pv Pe : Element -> Prop) (this : LSIFBackend) : Prop :=
  forall key d, (key, d) ∈ documents (database this) ->
    Forall Pv (vertices d) /\ Forall Pe (edges d).

(** The objects of the lines of a file. *)
Definition objectsOf (lines : list Line) : list Element :=
  omap (fun ln => match ln with JSONobject obj => Some obj | _ => None end) lines.

(** *** What an answer of a resolver rests on *)

(** The hover result [h] is reached from [range] in the shard [d]: through
    a next edge and a textDocument/hover edge out of its target, to a
    hoverResult vertex; or through a textDocument/hover edge out of the
    range itself, to whatever vertex has the id of its target. *)
Definition hoverChain (d : DocumentData) (range h : Element) : Prop :=
  (exists edge edge2,
      edge ∈ edges d /\ label edge = Some "next" /\ outV edge = id range
      /\ edge2 ∈ edges d /\ label edge2 = Some "textDocument/hover"
      /\ outV edge2 = inV edge
      /\ List.find (fun vertex => id vertex === inV edge2) (vertices d) = Some h
      /\ label h = Some "hoverResult")
  \/ (exists edge,
      edge ∈ edges d /\ label edge = Some "textDocument/hover"
      /\ outV edge = id range
      /\ List.find (fun vertex => id vertex === inV edge) (vertices d) = Some h).

(** The position is within a range of the shard that its contains edge
    names. *)
Definition matchedRange (d : DocumentData) (position : Position) (range : Element) : Prop :=
  exists containsEdge rangeIds rangeId,
    findContains d = Some containsEdge /\ inVs containsEdge = Some rangeIds
    /\ rangeId ∈ rangeIds /\ rangeOf d rangeId = Some range
    /\ withinRange position range = Normal true.

(** The chain of the reference resolver, from the range to its
    referenceResult, within the shard [d]. *)
Definition referenceChain (d : DocumentData) (rangeVertex referenceResult : Element) : Prop :=
  exists resultSetEdge resultSetVertex referenceEdge,
    resultSetEdge ∈ edges d /\ label resultSetEdge = Some "next"
    /\ outV resultSetEdge = id rangeVertex
    /\ resultSetVertex ∈ vertices d /\ id resultSetVertex = inV resultSetEdge
    /\ label resultSetVertex = Some "resultSet"
    /\ referenceEdge ∈ edges d /\ label referenceEdge = Some "textDocument/references"
    /\ outV referenceEdge = id resultSetVertex
    /\ referenceResult ∈ vertices d /\ id referenceResult = inV referenceEdge
    /\ label referenceResult = Some "referenceResult".

(** The referenceResult the reference resolver reaches from the range: the
    first next edge out of the range, the first resultSet vertex with the
    id that edge leads to, the first textDocument/references edge out of
    it, and the first referenceResult vertex with the id that edge leads
    to, all of the shard [d]. *)
Definition referenceResultOf (d : DocumentData) (rangeVertex : Element) : option Element :=
  resultSetEdge ←
    List.find (fun edge => (label edge === Some "next") && (outV edge === id rangeVertex))
              (edges d);
  resultSetVertex ←
    List.find (fun vertex => (id vertex === inV resultSetEdge)
                             && (label vertex === Some "resultSet"))
              (vertices d);
  referenceEdge ←
    List.find (fun edge => (label edge === Some "textDocument/references")
                           && (outV edge === id resultSetVertex))
              (edges d);
  List.find (fun vertex => (id vertex === inV referenceEdge)
                           && (label vertex === Some "referenceResult"))
            (vertices d).

(** [location] is a reference of [referenceResult] for a query on the
    document [u]: an item edge of some shard, out of the result and with
    property references, names an id, the owning document, which is the
    one its [shard] resolves to or else [u], has a shard, and the location
    is that of the first range vertex with this id in that shard, in that
    document. *)
Definition referenceOf `{Host} (this : LSIFBackend) (u : string)
    (referenceResult : Element) (location : vscode.Location) : Prop :=
  exists itemEdge rangeIds rangeId d v,
    storedEdge this itemEdge
    /\ label itemEdge = Some "item" /\ outV itemEdge = id referenceResult
    /\ property itemEdge = Some "references"
    /\ inVs itemEdge = Some rangeIds /\ rangeId ∈ rangeIds
    /\ JSMap.get (orElse (uriOfId this (shard itemEdge)) (Some u))
                 (documents (database this)) = Some d
    /\ List.find (fun vertex => (id vertex === Some rangeId)
                                 && (label vertex === Some "range"))
                 (vertices d) = Some v
    /\ locatedAt (orElse (uriOfId this (shard itemEdge)) (Some u)) v location.

(** [location] is a definition for the range [range] of the shard [d]: an
    item edge of [d] names the range, an item edge with property
    definitions out of the same vertex sits in a shard that has a contains
    edge, and the location is that of the first vertex of that shard whose
    id the definitions edge names, in the document its [shard] resolves to
    or else the one of that shard. *)
Definition definitionOf `{Host} (this : LSIFBackend) (d : DocumentData)
    (range : Element) (location : vscode.Location) : Prop :=
  exists referenceItem targets docUri definitionData definedItem v,
    referenceItem ∈ edges d /\ label referenceItem = Some "item"
    /\ inVs referenceItem = Some targets /\ includes targets (id range) = true
    /\ (docUri, definitionData) ∈ documents (database this)
    /\ is_Some (findContains definitionData)
    /\ definedItem ∈ edges definitionData /\ label definedItem = Some "item"
    /\ outV definedItem = outV referenceItem
    /\ property definedItem = Some "definitions"
    /\ findIncluded definedItem (vertices definitionData) = Normal (Some v)
    /\ locatedAt (orElse (uriOfId this (shard definedItem)) docUri) v location.

(** What the loops of the reference resolver know of the item edge at
    hand. *)
Definition itemEdgeOf (this : LSIFBackend) (referenceResult itemEdge : Element) : Prop :=
  storedEdge this itemEdge
  /\ label itemEdge = Some "item" /\ outV itemEdge = id referenceResult
  /\ property itemEdge = Some "references".

(** [location] is a definition for some range of [d] that holds the
    position. *)
Definition definitionAt `{Host} (this : LSIFBackend) (d : DocumentData)
    (position : Position) (location : vscode.Location) : Prop :=
  exists range, matchedRange d position range /\ definitionOf this d range location.

(** In the shard, the vertex that an item edge with property definitions
    leads the resolver to, the first whose id is among its [inVs], is a
    range. *)
Definition definitionTargetsAreRanges (d : DocumentData) : Prop :=
  forall e targets v,
    e ∈ edges d -> label e = Some "item" -> property e = Some "definitions" ->
    inVs e = Some targets ->
    List.find (fun vertex => includes targets (id vertex)) (vertices d) = Some v ->
    label v = Some "range".

(** The locations of an answer; none is no location. *)
Definition answered `{Host} (r : option (list vscode.Location))
    : list vscode.Location :=
  match r with
  | Some locations => locations
  | None => []
  end.

(** The last record of the file that has the type [ty] and the id [i]. *)
Definition lastRecord (ty : string) (i : option Z) (lines : list Line) : option Element :=
  List.find (fun obj => (type obj === Some ty) && (id obj === i)) (rev (objectsOf lines)).

(** In the flat backend, [location] is a reference of [referenceResult]: an
    item edge with property references out of the result has a [shard] that
    is the id of a stored vertex, it names the id of a stored range vertex,
    and the location is that of the range under the uri of the vertex that
    the [shard] names. *)
Definition flatReferenceOf `{Host} (this : Flat.LSIFDatabase)
    (referenceResult : Element) (location : vscode.Location) : Prop :=
  exists itemEdge documentVertex rangeIds rangeId v,
    itemEdge ∈ Flat.values (Flat.edges this)
    /\ label itemEdge = Some "item" /\ outV itemEdge = id referenceResult
    /\ property itemEdge = Some "references"
    /\ JSMap.get (shard itemEdge) (Flat.vertices this) = Some documentVertex
    /\ inVs itemEdge = Some rangeIds /\ rangeId ∈ rangeIds
    /\ JSMap.get (Some rangeId) (Flat.vertices this) = Some v
    /\ label v = Some "range"
    /\ locatedAt (uri documentVertex) v location.

(** In the flat backend, the hover result [h] is reached from [range]:
    through a next edge and a textDocument/hover edge out of its target, or
    through a textDocument/hover edge out of the range itself; either way
    the vertex stored under the target of the hover edge is a
    hoverResult. *)
Definition flatHoverChain (this : Flat.LSIFDatabase) (range h : Element) : Prop :=
  (exists edge edge2,
      edge ∈ Flat.values (Flat.edges this)
      /\ label edge = Some "next" /\ outV edge = id range
      /\ edge2 ∈ Flat.values (Flat.edges this)
      /\ label edge2 = Some "textDocument/hover" /\ outV edge2 = inV edge
      /\ JSMap.get (inV edge2) (Flat.vertices this) = Some h
      /\ label h = Some "hoverResult")
  \/ (exists edge,
      edge ∈ Flat.values (Flat.edges this)
      /\ label edge = Some "textDocument/hover" /\ outV edge = id range
      /\ JSMap.get (inV edge) (Flat.vertices this) = Some h
      /\ label h = Some "hoverResult").

(** In the flat backend, [location] is a definition for [range]: an item
    edge names the range, an item edge with property definitions out of the
    same vertex has a [shard] that is the id of a stored vertex, and names
    an id that a contains edge of the store lists too, which is the first
    contains edge out of that vertex when it has one; the location is that
    of the vertex stored under this id, under the uri of the vertex that
    the [shard] names. *)
Definition flatDefinitionOf `{Host} (this : Flat.LSIFDatabase) (range : Element)
    (location : vscode.Location) : Prop :=
  exists referenceItem targets definedItem documentVertex containsEdge rangeIds
         rangeDefinedItemID definedTargets v,
    referenceItem ∈ Flat.values (Flat.edges this)
    /\ label referenceItem = Some "item"
    /\ inVs referenceItem = Some targets /\ includes targets (id range) = true
    /\ definedItem ∈ Flat.values (Flat.edges this)
    /\ label definedItem = Some "item" /\ outV definedItem = outV referenceItem
    /\ property definedItem = Some "definitions"
    /\ JSMap.get (shard definedItem) (Flat.vertices this) = Some documentVertex
    /\ containsEdge ∈ Flat.values (Flat.edges this)
    /\ label containsEdge = Some "contains"
    /\ (forall c, Flat.findContainsOf this documentVertex = Some c -> containsEdge = c)
    /\ inVs containsEdge = Some rangeIds /\ rangeDefinedItemID ∈ rangeIds
    /\ inVs definedItem = Some definedTargets
    /\ includes definedTargets (Some rangeDefinedItemID) = true
    /\ JSMap.get (Some rangeDefinedItemID) (Flat.vertices this) = Some v
    /\ locatedAt (uri documentVertex) v location.

(** The contains edge that the flat definition resolver holds is one of
    the store. *)
Definition holdsContains `{Host} (this : Flat.LSIFDatabase) (st : Flat.Locals)
    : Prop :=
  Flat.containsEdge st ∈ Flat.values (Flat.edges this)
  /\ label (Flat.containsEdge st) = Some "contains".

(** *** What the constructors of the host accept *)

(** The bounds of a range vertex are at least 1 on the line and on the
    character: in caller coordinates they are not negative. *)
Definition oneBased (obj : Element) : Prop :=
  label obj = Some "range" ->
  forall p, start obj = Some p \/ end_ obj = Some p -> 1 <= line p /\ 1 <= character p.

Definition oneBasedStore (this : LSIFBackend) : Prop :=
  forall key d, (key, d) ∈ documents (database this) -> Forall oneBased (vertices d).

(** [Uri.parse] accepts [u]. *)
Definition accepted `{Host} (u : option string) : Prop :=
  exists parsed, Uri_parse u = Normal parsed.

(** [Uri.parse] accepts the key of every shard, and every uri of the
    id-to-uri map. *)
Definition shardKeysAccepted `{Host} (this : LSIFBackend) : Prop :=
  forall key d, (key, d) ∈ documents (database this) -> accepted key.

Definition documentUrisAccepted `{Host} (this : LSIFBackend) : Prop :=
  forall k u, vertexIdToDocument (database this) !! k = Some u -> accepted u.

(** *** Coordinates *)

(** [range] is a range vertex of the shard [d] that the contains edge of
    [d] names. *)
Definition namedRange (d : DocumentData) (range : Element) : Prop :=
  exists containsEdge rangeIds rangeId,
    findContains d = Some containsEdge /\ inVs containsEdge = Some rangeIds
    /\ rangeId ∈ rangeIds /\ rangeOf d rangeId = Some range.

(** The caller position [position], with one added to its line and to its
    character, lies within the bounds of [range], component by component. *)
Definition holds (range : Element) (position : Position) : Prop :=
  exists s e,
    start range = Some s /\ end_ range = Some e
    /\ line s <= line position + 1 <= line e
    /\ character s <= character position + 1 <= character e.

(** A definition whose range is stored with its start after its end, and
    one whose range starts at line 0. *)
Definition reversedDefinition : list Line :=
  map JSONobject
    [ documentVertex 1 "file:///a";
      rangeVertex 2 1 1 1 5;
      vertex 5 "referenceResult";
      itemEdge 7 5 [2] "references" (Some 1);
      rangeVertex 8 5 3 2 1;
      itemEdge 9 5 [8] "definitions" (Some 1);
      containsEdge 10 1 [2; 8] ].

Definition definitionAtLineZero : list Line :=
  map JSONobject
    [ documentVertex 1 "file:///a";
      rangeVertex 2 1 1 1 5;
      vertex 5 "referenceResult";
      itemEdge 7 5 [2] "references" (Some 1);
      rangeVertex 8 0 1 0 5;
      itemEdge 9 5 [8] "definitions" (Some 1);
      containsEdge 10 1 [2; 8] ].

(** * Properties *)

(** ** Completions *)

Lemma bind_Normal_inv {A B} (c : Completion A) (k : A -> Completion B) (b : B) :
  c ≫= k = Normal b -> exists a, c = Normal a /\ k a = Normal b.
Proof. destruct c as [a|e]; simpl; [eauto | discriminate]. Qed.

(** ** The map of documents *)

Lemma JSMap_get_elem {K V} `{EqDecision K} (k : K) (v : V) (m : list (K * V)) :
  JSMap.get k m = Some v -> (k, v) ∈ m.
Proof.
  induction m as [|[k' v'] m IH]; simpl; [discriminate|].
  destruct (decide (k = k')) as [->|_].
  - intros [= ->]. apply list_elem_of_here.
  - intros Hg. apply list_elem_of_further, IH, Hg.
Qed.

(** ** Coordinates (C1) *)

Lemma withinRange_bump position range s e :
  start range = Some s -> end_ range = Some e ->
  withinRange (bump position) range = Normal true <->
  (line s <= line position + 1 <= line e /\
   character s <= character position + 1 <= character e).
Proof.
  intros Hs He. unfold withinRange, bump. rewrite Hs, He. simpl.
  destruct (Z.leb_spec (line s) (line position + 1)).
  - destruct (Z.leb_spec (line position + 1) (line e));
    destruct (Z.leb_spec (character s) (character position + 1));
    destruct (Z.leb_spec (character position + 1) (character e));
    simpl; split; try discriminate; try lia; reflexivity.
  - split; [discriminate | lia].
Qed.

Lemma newPosition_Normal l c p :
  vscode.newPosition l c = Normal p <->
  0 <= l /\ 0 <= c /\ p = {| line := l; character := c |}.
Proof.
  unfold vscode.newPosition.
  destruct (Z.ltb_spec l 0); [split; [discriminate|lia]|].
  destruct (Z.ltb_spec c 0); [split; [discriminate|lia]|].
  split; [by intros [= <-]|by intros (_ & _ & ->)].
Qed.

Lemma isBefore_minusOne s e :
  vscode.isBefore (minusOne s) (minusOne e) = vscode.isBefore s e.
Proof.
  assert (forall a b, (a - 1 <? b - 1) = (a <? b)) as Hlt.
  { intros a b. destruct (Z.ltb_spec (a - 1) (b - 1)), (Z.ltb_spec a b); lia || done. }
  unfold vscode.isBefore, minusOne. simpl. by rewrite !Hlt.
Qed.

(** What [toLocation] builds, and when. *)
Lemma toLocation_locatedAt {host : Host} u v location :
  toLocation u v = Normal location <-> locatedAt u v location.
Proof.
  unfold toLocation, locatedAt, locationOf. split.
  - intros Hl. apply bind_Normal_inv in Hl as (parsed & Hp & Hl).
    destruct (start v) as [s|]; [|discriminate].
    apply bind_Normal_inv in Hl as (ps & Hps & Hl).
    destruct (end_ v) as [e|]; [|discriminate].
    apply bind_Normal_inv in Hl as (pe & Hpe & Hl).
    injection Hl as <-.
    apply newPosition_Normal in Hps as (? & ? & ->).
    apply newPosition_Normal in Hpe as (? & ? & ->).
    split; [done|]. exists s, e. repeat split; try done; try lia.
    cbn [vscode.range]. unfold vscode.newRange.
    change {| line := line s - 1; character := character s - 1 |} with (minusOne s).
    change {| line := line e - 1; character := character e - 1 |} with (minusOne e).
    by rewrite isBefore_minusOne.
  - intros [Hp (s & e & Hs & He & ? & ? & ? & ? & Hr)].
    rewrite Hp, Hs, He. simpl.
    assert (vscode.newPosition (line s - 1) (character s - 1) = Normal (minusOne s))
      as -> by (apply newPosition_Normal; unfold minusOne; split; [lia|split; [lia|done]]).
    assert (vscode.newPosition (line e - 1) (character e - 1) = Normal (minusOne e))
      as -> by (apply newPosition_Normal; unfold minusOne; split; [lia|split; [lia|done]]).
    simpl. destruct location as [u0 r]. simpl in *. unfold vscode.newRange.
    by rewrite isBefore_minusOne, Hr.
Qed.

Lemma findIncluded_elem definedItem vs v :
  findIncluded definedItem vs = Normal (Some v) -> v ∈ vs.
Proof.
  unfold findIncluded. intros H.
  assert (exists targets,
            List.find (fun vertex => includes targets (id vertex)) vs = Some v)
    as [targets Hf].
  { destruct vs; [discriminate|].
    destruct (inVs definedItem) as [targets|]; [|discriminate].
    exists targets. congruence. }
  apply find_some in Hf as [Hin _]. by apply list_elem_of_In.
Qed.

Lemma nonEmpty_Some {host : Host} locations locations' :
  nonEmpty locations = Some locations' -> locations' = locations.
Proof. destruct locations; simpl; congruence. Qed.

Example crossReference_loaded : loaded crossReference = Some crossReferenceBackend.
Proof. reflexivity. Qed.


(** ** Evaluations *)

(** C3. A range with a direct textDocument/hover edge whose target vertex is
    missing, or is a vertex without hover contents: the sharded
    [getHoverData] throws a TypeError where the specification asks for none.
    The flat backend checks the target and returns none on the same index;
    it throws, in turn, on a contains edge that lists a missing vertex,
    which the sharded backend skips.  The sharded [getDefinitionData] throws
    on a definitions edge whose target is a vertex of another label. *)
Theorem hover_direct_edge_faults :
  (this ← loaded danglingHover;
   Some (completion (getHoverData this "file:///a" {| line := 1; character := 3 |})))
    = Some (Throw TypeError)
  /\ (this ← loaded mislabelledHover;
      Some (completion (getHoverData this "file:///a" {| line := 1; character := 3 |})))
    = Some (Throw TypeError)
  /\ (this ← flatLoaded danglingHover;
      Some (fst (Flat.getHoverData this "file:///a" {| line := 1; character := 3 |})))
    = Some (Normal None)
  /\ (this ← flatLoaded danglingRange;
      Some (fst (Flat.getHoverData this "file:///a" {| line := 1; character := 3 |})))
    = Some (Throw TypeError)
  /\ (this ← loaded danglingRange;
      Some (completion (getHoverData this "file:///a" {| line := 1; character := 3 |})))
    = Some (Normal None)
  /\ (this ← loaded mislabelledDefinition;
      Some (completion (getDefinitionData this "file:///a" {| line := 0; character := 0 |})))
    = Some (Throw TypeError).
Proof. repeat split; reflexivity. Qed.

(** C6. A definitions edge with two targets in the shard, both listed by the
    contains edge: the sharded [getDefinitionData] returns the location of
    the first vertex alone, where the flat one returns both. *)
Theorem definitions_first_target_only :
  (this ← loaded twoDefinitions;
   Some (completion (getDefinitionData this "file:///a" {| line := 0; character := 0 |})))
    = Some (Normal (Some
        [ {| vscode.uri := Some "file:///a";
             vscode.range := {| vscode.start := {| line := 2; character := 0 |};
                                vscode.end_ := {| line := 2; character := 4 |} |} |} ]))
  /\ (this ← flatLoaded twoDefinitions;
      Some (fst (Flat.getDefinitionData this "file:///a" {| line := 0; character := 0 |})))
    = Some (Normal (Some
        [ {| vscode.uri := Some "file:///a";
             vscode.range := {| vscode.start := {| line := 2; character := 0 |};
                                vscode.end_ := {| line := 2; character := 4 |} |} |};
          {| vscode.uri := Some "file:///a";
             vscode.range := {| vscode.start := {| line := 4; character := 0 |};
                                vscode.end_ := {| line := 4; character := 4 |} |} |} ])).
Proof. split; reflexivity. Qed.

(** C7. A references edge without [shard] met in the shard of file:///b,
    for a query in file:///a: the fallback document is file:///a, where
    range 9 is not found, and the resolver returns none. *)
Theorem references_fallback_is_query_document :
  (this ← loaded referenceElsewhere;
   Some (completion (getReferencesData this "file:///a" {| line := 0; character := 0 |})))
    = Some (Normal None).
Proof. reflexivity. Qed.

(** ** Ingestion *)

Lemma JSMap_get_set_eq {K V} `{EqDecision K} (k : K) (v : V) (m : list (K * V)) :
  JSMap.get k (JSMap.set k v m) = Some v.
Proof.
  induction m as [|[k' v'] m IH]; simpl.
  - by rewrite decide_True.
  - destruct (decide (k = k')) as [->|Hne]; simpl.
    + by rewrite decide_True.
    + by rewrite decide_False.
Qed.

Lemma JSMap_get_set_ne {K V} `{EqDecision K} (k k0 : K) (v : V) (m : list (K * V)) :
  k0 <> k -> JSMap.get k0 (JSMap.set k v m) = JSMap.get k0 m.
Proof.
  intros Hne. induction m as [|[k' v'] m IH]; simpl.
  - by rewrite decide_False.
  - destruct (decide (k = k')) as [->|Hne']; simpl.
    + by rewrite !decide_False.
    + destruct (decide (k0 = k')); [done|apply IH].
Qed.

Lemma JSMap_set_set {K V} `{EqDecision K} (k : K) (v1 v2 : V) (m : list (K * V)) :
  JSMap.set k v2 (JSMap.set k v1 m) = JSMap.set k v2 m.
Proof.
  induction m as [|[k' v'] m IH]; simpl.
  - by rewrite decide_True.
  - destruct (decide (k = k')) as [->|Hne]; simpl.
    + by rewrite decide_True.
    + rewrite decide_False by done. by rewrite IH.
Qed.

Lemma JSMap_set_same {K V} `{EqDecision K} (k : K) (v : V) (m : list (K * V)) :
  JSMap.get k m = Some v -> JSMap.set k v m = m.
Proof.
  induction m as [|[k' v'] m IH]; simpl; [discriminate|].
  destruct (decide (k = k')) as [->|Hne].
  - by intros [= ->].
  - intros Hg. by rewrite IH.
Qed.

Lemma forEach_app before after this :
  forEach (before ++ after) this =
  match forEach before this with
  | (Normal _, this') => forEach after this'
  | (Throw e, this') => (Throw e, this')
  end.
Proof.
  revert this. induction before as [|ln before IH]; intros this; simpl; [done|].
  destruct (ingestLine ln this) as [[[]|e] this']; [apply IH | done].
Qed.

Lemma truthy_Some u : u <> "" -> truthy (Some u) = true.
Proof. intros Hu. unfold truthy, strictEq. by rewrite bool_decide_eq_false_2. Qed.

Lemma setDocuments_same this :
  setDocuments (documents (database this)) this = this.
Proof. by destruct this as [[] ?]. Qed.

Lemma contains_not_document obj : isContainsEdge obj = true -> isDocumentVertex obj = false.
Proof.
  unfold isContainsEdge, isDocumentVertex, strictEq.
  intros [Hl _]%andb_prop. apply bool_decide_eq_true_1 in Hl. by rewrite Hl.
Qed.

(** A record that moves no cursor, read while the cursor names a shard. *)
Lemma ingestLine_plain obj this u d :
  plain obj ->
  currentDocumentUri this = Some u -> u <> "" ->
  JSMap.get (Some u) (documents (database this)) = Some d ->
  ingestLine (JSONobject obj) this =
  (Normal (),
   setDocuments (JSMap.set (Some u) (appended [obj] d) (documents (database this))) this).
Proof.
  intros [Hdoc Hcont] Hcur Hu Hget. simpl.
  unfold openDocument, closeDocument, appendUnderCursor. rewrite Hdoc, Hcur.
  rewrite (truthy_Some u Hu). unfold pushInto, appended, isVertex, isEdge. simpl.
  rewrite Hget.
  destruct (type obj === Some "vertex") eqn:Hv.
  - assert ((type obj === Some "edge") = false) as ->.
    { apply bool_decide_eq_true_1 in Hv. by rewrite Hv. }
    rewrite Hcont. by rewrite app_nil_r.
  - destruct (type obj === Some "edge") eqn:He; rewrite Hcont.
    + by rewrite app_nil_r.
    + rewrite !app_nil_r. destruct d as [vs es]. simpl.
      rewrite JSMap_set_same by done. by rewrite setDocuments_same.
Qed.

Lemma appended_cons obj records d :
  appended records (appended [obj] d) = appended (obj :: records) d.
Proof.
  unfold appended. simpl.
  destruct (isVertex obj), (isEdge obj); simpl;
    by rewrite <- ?app_assoc, ?app_nil_r.
Qed.

Lemma forEach_plain records : forall this u d,
  Forall plain records ->
  currentDocumentUri this = Some u -> u <> "" ->
  JSMap.get (Some u) (documents (database this)) = Some d ->
  forEach (map JSONobject records) this =
  (Normal (),
   setDocuments (JSMap.set (Some u) (appended records d) (documents (database this))) this).
Proof.
  induction records as [|obj records IH]; intros this u d Hall Hcur Hu Hget.
  - simpl. unfold appended. simpl. rewrite !app_nil_r.
    destruct d. rewrite JSMap_set_same by done. by rewrite setDocuments_same.
  - apply Forall_cons in Hall as [Hobj Hall]. cbn [map forEach].
    rewrite (ingestLine_plain obj this u d) by done.
    rewrite (IH _ u (appended [obj] d)); try done.
    + simpl. by rewrite JSMap_set_set, appended_cons.
    + simpl. apply JSMap_get_set_eq.
Qed.

(** C2, as amended. When a line of the file is not valid JSON, [load] fails:
    with a SyntaxError at that line, or with the error of an earlier line.
    The repair pass is not run, and the backend is left as the lines before
    the failing one made it: what they ingested stays in the store. *)
Theorem load_malformed_line fuel before after this :
  load fuel (before ++ NotJSON :: after) this =
  Some match forEach (nonBlank before) this with
       | (Normal _, this') => (Throw SyntaxError, this')
       | (Throw e, this') => (Throw e, this')
       end.
Proof.
  unfold load, nonBlank. rewrite List.filter_app. simpl. rewrite forEach_app.
  destruct (forEach _ this) as [[[]|e] this']; done.
Qed.

(** C2, the counterexample: after a document vertex and a line that is not
    JSON, the failed load leaves the shard of the document in the store. *)
Lemma load_not_atomic :
  load 0 [JSONobject (documentVertex 1 "file:///a"); NotJSON] newBackend =
  Some (Throw SyntaxError,
        {| database :=
             {| documents :=
                  [(Some "file:///a",
                    {| vertices := [documentVertex 1 "file:///a"]; edges := [] |})];
                vertexIdToDocument := {[ Some 1 := Some "file:///a" ]} |};
           currentDocumentUri := Some "file:///a" |}).
Proof. reflexivity. Qed.

Lemma document_not_contains obj : isDocumentVertex obj = true -> isContainsEdge obj = false.
Proof.
  unfold isContainsEdge, isDocumentVertex, strictEq.
  intros [Hl _]%andb_prop. apply bool_decide_eq_true_1 in Hl. by rewrite Hl.
Qed.

Lemma document_is_vertex obj :
  isDocumentVertex obj = true -> (type obj === Some "vertex") = true.
Proof. by intros [_ Ht]%andb_prop. Qed.

Lemma ingestLine_steps obj this this1 this2 :
  openDocument obj this = this1 ->
  appendUnderCursor obj this1 = (Normal (), this2) ->
  ingestLine (JSONobject obj) this = (Normal (), closeDocument obj this2).
Proof. intros H1 H2. cbn [ingestLine]. by rewrite H1, H2. Qed.

Lemma ingestLine_document_known obj this u d :
  isDocumentVertex obj = true -> uri obj = Some u -> u <> "" ->
  JSMap.get (Some u) (documents (database this)) = Some d ->
  ingestLine (JSONobject obj) this =
  (Normal (),
   {| database :=
        {| documents :=
             JSMap.set (Some u) (pushVertex obj d) (documents (database this));
           vertexIdToDocument := vertexIdToDocument (database this) |};
      currentDocumentUri := Some u |}).
Proof.
  intros Hdoc Huri Hu Hget.
  rewrite (ingestLine_steps obj this (setCursor (Some u) this)
             (setDocuments
                (JSMap.set (Some u) (pushVertex obj d) (documents (database this)))
                (setCursor (Some u) this))).
  - unfold closeDocument. by rewrite (document_not_contains obj Hdoc).
  - unfold openDocument. rewrite Hdoc, Huri. cbn [setCursor currentDocumentUri database].
    unfold JSMap.has. by rewrite Hget.
  - unfold appendUnderCursor. cbn [setCursor currentDocumentUri].
    rewrite (truthy_Some u Hu), (document_is_vertex obj Hdoc).
    unfold pushInto. cbn [setCursor database]. by rewrite Hget.
Qed.

Lemma ingestLine_document_new obj this u :
  isDocumentVertex obj = true -> uri obj = Some u -> u <> "" ->
  JSMap.get (Some u) (documents (database this)) = None ->
  ingestLine (JSONobject obj) this =
  (Normal (),
   {| database :=
        {| documents :=
             JSMap.set (Some u) {| vertices := [obj]; edges := [] |}
               (documents (database this));
           vertexIdToDocument :=
             <[id obj := Some u]> (vertexIdToDocument (database this)) |};
      currentDocumentUri := Some u |}).
Proof.
  intros Hdoc Huri Hu Hget.
  rewrite (ingestLine_steps obj this
     {| database :=
          {| documents :=
               JSMap.set (Some u) emptyDocumentData (documents (database this));
             vertexIdToDocument :=
               <[id obj := Some u]> (vertexIdToDocument (database this)) |};
        currentDocumentUri := Some u |}
     {| database :=
          {| documents :=
               JSMap.set (Some u) {| vertices := [obj]; edges := [] |}
                 (documents (database this));
             vertexIdToDocument :=
               <[id obj := Some u]> (vertexIdToDocument (database this)) |};
        currentDocumentUri := Some u |}).
  - unfold closeDocument. by rewrite (document_not_contains obj Hdoc).
  - unfold openDocument. rewrite Hdoc, Huri. cbn [setCursor currentDocumentUri database].
    unfold JSMap.has. by rewrite Hget.
  - unfold appendUnderCursor. cbn [currentDocumentUri].
    rewrite (truthy_Some u Hu), (document_is_vertex obj Hdoc).
    unfold pushInto. cbn [database documents]. rewrite JSMap_get_set_eq.
    unfold setDocuments. cbn [database documents vertexIdToDocument currentDocumentUri].
    by rewrite JSMap_set_set.
Qed.

Lemma ingestLine_document_unnamed obj this :
  isDocumentVertex obj = true -> truthy (uri obj) = false ->
  exists this',
    ingestLine (JSONobject obj) this = (Normal (), this')
    /\ currentDocumentUri this' = uri obj
    /\ JSMap.get (uri obj) (documents (database this'))
       = Some (default emptyDocumentData
                 (JSMap.get (uri obj) (documents (database this))))
    /\ forall key, key <> uri obj ->
         JSMap.get key (documents (database this'))
         = JSMap.get key (documents (database this)).
Proof.
  intros Hdoc Huri.
  exists (openDocument obj this). split; [|].
  - rewrite (ingestLine_steps obj this (openDocument obj this) (openDocument obj this));
      [|done|].
    + unfold closeDocument. by rewrite (document_not_contains obj Hdoc).
    + unfold appendUnderCursor.
      assert (currentDocumentUri (openDocument obj this) = uri obj) as ->;
        [|by rewrite Huri].
      unfold openDocument. rewrite Hdoc. by destruct (negb _).
  - unfold openDocument. rewrite Hdoc. cbn [setCursor currentDocumentUri database].
    unfold JSMap.has.
    destruct (JSMap.get (uri obj) (documents (database this))) as [d|] eqn:Hget;
      cbn [negb currentDocumentUri database documents default].
    + split; [done|]. split; [by rewrite ?Hget|done].
    + rewrite JSMap_get_set_eq. split; [done|]. split; [done|].
      intros key Hne. by apply JSMap_get_set_ne.
Qed.

Lemma ingestLine_contains_uncursored c this :
  isContainsEdge c = true -> truthy (currentDocumentUri this) = false ->
  ingestLine (JSONobject c) this =
  (Normal (),
   setCursor unsorted (setDocuments (withUnsorted (documents (database this))) this)).
Proof.
  intros Hc Hcur. cbn [ingestLine].
  assert (openDocument c this = this) as ->
    by (unfold openDocument; by rewrite (contains_not_document c Hc)).
  unfold appendUnderCursor. rewrite Hcur. unfold closeDocument. rewrite Hc.
  unfold withUnsorted. cbn [setCursor currentDocumentUri database]. unfold JSMap.has.
  destruct (JSMap.get unsorted _); cbn [negb]; [by rewrite setDocuments_same|done].
Qed.

Lemma ingestLine_stale_cursor obj this u :
  isDocumentVertex obj = false ->
  type obj = Some "vertex" \/ type obj = Some "edge" ->
  currentDocumentUri this = Some u -> u <> "" ->
  JSMap.get (Some u) (documents (database this)) = None ->
  ingestLine (JSONobject obj) this = (Throw TypeError, this).
Proof.
  intros Hdoc Hty Hcur Hu Hget. cbn [ingestLine].
  assert (openDocument obj this = this) as -> by (unfold openDocument; by rewrite Hdoc).
  unfold appendUnderCursor.
  rewrite Hcur, (truthy_Some u Hu). unfold pushInto. rewrite Hget.
  destruct Hty as [-> | ->]; [done|].
  by assert ((Some "edge" === Some "vertex") = false) as -> by done.
Qed.

(** C5, as amended.  The cursor alone decides where a record goes.
    - While the cursor holds a non-empty URI that has a shard, the vertex
      and edge records read before the next document vertex or contains
      edge are appended to that shard, in order.
    - A contains edge read under such a cursor is appended likewise and
      then moves the cursor to the unassigned shard, which it creates when
      absent: the records after the contains edge of a document go to the
      unassigned shard.
    - A document vertex with a non-empty uri sets the cursor to its uri and
      is appended to the shard of that uri; when the uri has no shard yet,
      the shard is created and the id of the vertex is registered for the
      uri.  With an empty or absent uri it sets the cursor to that, leaves
      an empty shard under that key when there was none, and is stored
      nowhere: the other shards stay as they were.
    - A record read while no cursor is set is stored nowhere; if it is a
      contains edge it still moves the cursor to the unassigned shard.
    - A vertex or an edge other than a document vertex, read while the
      cursor holds a non-empty URI that has no shard (the cursor an earlier
      load has left), is not stored: the push throws a TypeError. *)
Theorem ingestion_under_cursor :
  (forall records this u d,
      Forall plain records ->
      currentDocumentUri this = Some u -> u <> "" ->
      JSMap.get (Some u) (documents (database this)) = Some d ->
      forEach (map JSONobject records) this =
      (Normal (),
       setDocuments
         (JSMap.set (Some u) (appended records d) (documents (database this))) this))
  /\ (forall c this u d,
      isContainsEdge c = true ->
      currentDocumentUri this = Some u -> u <> "" ->
      JSMap.get (Some u) (documents (database this)) = Some d ->
      ingestLine (JSONobject c) this =
      (Normal (),
       setCursor unsorted
         (setDocuments
            (withUnsorted (JSMap.set (Some u) (pushEdge c d) (documents (database this))))
            this)))
  /\ (forall obj this,
      plain obj -> truthy (currentDocumentUri this) = false ->
      ingestLine (JSONobject obj) this = (Normal (), this))
  /\ (forall obj this u d,
      isDocumentVertex obj = true -> uri obj = Some u -> u <> "" ->
      JSMap.get (Some u) (documents (database this)) = Some d ->
      ingestLine (JSONobject obj) this =
      (Normal (),
       {| database :=
            {| documents :=
                 JSMap.set (Some u) (pushVertex obj d) (documents (database this));
               vertexIdToDocument := vertexIdToDocument (database this) |};
          currentDocumentUri := Some u |}))
  /\ (forall obj this u,
      isDocumentVertex obj = true -> uri obj = Some u -> u <> "" ->
      JSMap.get (Some u) (documents (database this)) = None ->
      ingestLine (JSONobject obj) this =
      (Normal (),
       {| database :=
            {| documents :=
                 JSMap.set (Some u) {| vertices := [obj]; edges := [] |}
                   (documents (database this));
               vertexIdToDocument :=
                 <[id obj := Some u]> (vertexIdToDocument (database this)) |};
          currentDocumentUri := Some u |}))
  /\ (forall obj this,
      isDocumentVertex obj = true -> truthy (uri obj) = false ->
      exists this',
        ingestLine (JSONobject obj) this = (Normal (), this')
        /\ currentDocumentUri this' = uri obj
        /\ JSMap.get (uri obj) (documents (database this'))
           = Some (default emptyDocumentData
                     (JSMap.get (uri obj) (documents (database this))))
        /\ forall key, key <> uri obj ->
             JSMap.get key (documents (database this'))
             = JSMap.get key (documents (database this)))
  /\ (forall c this,
      isContainsEdge c = true -> truthy (currentDocumentUri this) = false ->
      ingestLine (JSONobject c) this =
      (Normal (), setCursor unsorted (setDocuments (withUnsorted (documents (database this))) this)))
  /\ (forall obj this u,
      isDocumentVertex obj = false ->
      type obj = Some "vertex" \/ type obj = Some "edge" ->
      currentDocumentUri this = Some u -> u <> "" ->
      JSMap.get (Some u) (documents (database this)) = None ->
      ingestLine (JSONobject obj) this = (Throw TypeError, this)).
Proof.
  split; [exact forEach_plain|]. split; [|split; [|split; [|split; [|split; [|split]]]]].
  - intros c this u d Hc Hcur Hu Hget. simpl.
    unfold openDocument, appendUnderCursor, closeDocument.
    rewrite (contains_not_document c Hc), Hcur, (truthy_Some u Hu).
    assert ((type c === Some "edge") = true) as He.
    { by apply andb_prop in Hc as [_ ?]. }
    assert ((type c === Some "vertex") = false) as ->.
    { apply bool_decide_eq_true_1 in He. by rewrite He. }
    rewrite He. unfold pushInto. rewrite Hget, Hc. unfold withUnsorted. simpl.
    by destruct (JSMap.has _ _).
  - intros obj this [Hdoc Hcont] Hcur. simpl.
    unfold openDocument, appendUnderCursor, closeDocument.
    by rewrite Hdoc, Hcur, Hcont.
  - exact ingestLine_document_known.
  - exact ingestLine_document_new.
  - exact ingestLine_document_unnamed.
  - exact ingestLine_contains_uncursored.
  - exact ingestLine_stale_cursor.
Qed.

Lemma ingestion_under_cursor_witness :
  forEach (map JSONobject [rangeVertex 2 1 1 1 5; edge 3 "next" 2 4])
    (setCursor (Some "file:///a") scenarioBackend)
  = (Normal (),
     setDocuments
       [(Some "file:///a",
         {| vertices :=
              [ documentVertex 1 "file:///a"; rangeVertex 2 2 2 2 6;
                vertex 3 "resultSet"; hoverResultVertex 5 ["x"]; rangeVertex 2 1 1 1 5 ];
            edges :=
              [ edge 4 "next" 2 3; edge 6 "textDocument/hover" 3 5;
                containsEdge 7 1 [2]; edge 3 "next" 2 4 ] |})]
       (setCursor (Some "file:///a") scenarioBackend))
  /\ ingestLine (JSONobject (containsEdge 9 1 []))
       (setDocuments [(Some "file:///a", emptyDocumentData)]
          (setCursor (Some "file:///a") newBackend))
     = (Normal (),
        setCursor unsorted
          (setDocuments
             [(Some "file:///a", {| vertices := []; edges := [containsEdge 9 1 []] |});
              (unsorted, emptyDocumentData)]
             newBackend))
  /\ ingestLine (JSONobject (rangeVertex 2 1 1 1 5)) newBackend = (Normal (), newBackend)
  /\ ingestLine (JSONobject (documentVertex 1 "file:///a")) newBackend
     = (Normal (),
        {| database :=
             {| documents :=
                  [(Some "file:///a",
                    {| vertices := [documentVertex 1 "file:///a"]; edges := [] |})];
                vertexIdToDocument := {[ Some 1 := Some "file:///a" ]} |};
           currentDocumentUri := Some "file:///a" |})
  /\ ingestLine (JSONobject (rangeVertex 2 1 1 1 5)) scenarioBackend
     = (Throw TypeError, scenarioBackend).
Proof.
  destruct ingestion_under_cursor as (Ha & Hb & Hc & _ & Hd & _ & _ & He).
  split; [|split; [|split; [|split]]].
  - refine (Ha [rangeVertex 2 1 1 1 5; edge 3 "next" 2 4]
              (setCursor (Some "file:///a") scenarioBackend) "file:///a"
              {| vertices :=
                   [ documentVertex 1 "file:///a"; rangeVertex 2 2 2 2 6;
                     vertex 3 "resultSet"; hoverResultVertex 5 ["x"] ];
                 edges :=
                   [ edge 4 "next" 2 3; edge 6 "textDocument/hover" 3 5;
                     containsEdge 7 1 [2] ] |} _ eq_refl _ eq_refl).
    + repeat constructor.
    + discriminate.
  - refine (Hb (containsEdge 9 1 [])
              (setDocuments [(Some "file:///a", emptyDocumentData)]
                 (setCursor (Some "file:///a") newBackend))
              "file:///a" emptyDocumentData eq_refl eq_refl _ eq_refl).
    discriminate.
  - apply Hc; [split|]; reflexivity.
  - refine (Hd (documentVertex 1 "file:///a") newBackend "file:///a"
              eq_refl eq_refl _ eq_refl).
    discriminate.
  - refine (He (rangeVertex 2 1 1 1 5) scenarioBackend "unsorted" eq_refl _ eq_refl _ eq_refl).
    + by left.
    + discriminate.
Defined.

(** C5, the counterexample: a range vertex that follows the contains edge of
    file:///a, before any other document vertex, goes to the unassigned
    shard and not to the shard of file:///a. *)
Lemma record_after_contains_is_unsorted :
  forEach (map JSONobject
             [documentVertex 1 "file:///a"; containsEdge 2 1 []; rangeVertex 3 1 1 1 5])
    newBackend =
  (Normal (),
   {| database :=
        {| documents :=
             [(Some "file:///a",
               {| vertices := [documentVertex 1 "file:///a"];
                  edges := [containsEdge 2 1 []] |});
              (unsorted, {| vertices := [rangeVertex 3 1 1 1 5]; edges := [] |})];
           vertexIdToDocument := {[ Some 1 := Some "file:///a" ]} |};
      currentDocumentUri := unsorted |}).
Proof. reflexivity. Qed.

(** C9, as amended. [load] checks no field: a record without [type] is
    left out and the backend is as before; a record without [label], or
    without [id], that is of type vertex or edge is appended to the shard
    under the cursor like any other record.  Neither case is an error. *)
Theorem missing_fields_not_checked :
  (forall obj this,
      type obj = None -> ingestLine (JSONobject obj) this = (Normal (), this))
  /\ (forall obj this u d,
      label obj = None \/ (id obj = None /\ plain obj) ->
      currentDocumentUri this = Some u -> u <> "" ->
      JSMap.get (Some u) (documents (database this)) = Some d ->
      ingestLine (JSONobject obj) this =
      (Normal (),
       setDocuments
         (JSMap.set (Some u) (appended [obj] d) (documents (database this))) this)).
Proof.
  split.
  - intros obj this Ht. simpl.
    unfold openDocument, appendUnderCursor, closeDocument,
      isDocumentVertex, isContainsEdge.
    rewrite Ht. rewrite !andb_false_r. simpl. by destruct (truthy _).
  - intros obj this u d Hobj. apply ingestLine_plain.
    destruct Hobj as [Hl|[_ Hp]]; [|done].
    unfold plain, isDocumentVertex, isContainsEdge. by rewrite Hl.
Qed.

Lemma missing_fields_not_checked_witness :
  ingestLine (JSONobject untyped) scenarioBackend = (Normal (), scenarioBackend)
  /\ ingestLine (JSONobject anonymous)
       (setDocuments [(Some "file:///a", emptyDocumentData)]
          (setCursor (Some "file:///a") newBackend))
     = (Normal (),
        setDocuments
          [(Some "file:///a", {| vertices := [anonymous]; edges := [] |})]
          (setCursor (Some "file:///a") newBackend)).
Proof.
  destruct missing_fields_not_checked as [Ha Hb]. split.
  - apply Ha. reflexivity.
  - refine (Hb anonymous
              (setDocuments [(Some "file:///a", emptyDocumentData)]
                 (setCursor (Some "file:///a") newBackend))
              "file:///a" emptyDocumentData (or_introl eq_refl) eq_refl _ eq_refl).
    discriminate.
Defined.

(** C9, the counterexample: a load with a record that lacks [type] and a
    vertex that lacks [id] and [label] completes normally; the first is left
    out of the graph, the second is in the shard. *)
Lemma load_accepts_missing_fields :
  load 0 (map JSONobject [documentVertex 1 "file:///a"; untyped; anonymous]) newBackend =
  Some (Normal (),
        {| database :=
             {| documents :=
                  [(Some "file:///a",
                    {| vertices := [documentVertex 1 "file:///a"; anonymous];
                       edges := [] |})];
                vertexIdToDocument := {[ Some 1 := Some "file:///a" ]} |};
           currentDocumentUri := Some "file:///a" |}).
Proof. reflexivity. Qed.

(** ** Queries and their argument *)


(** ** A load keeps what the store held (C8) *)

Lemma JSMap_get_delete_ne {K V} `{EqDecision K} (k k0 : K) (m : list (K * V)) :
  k0 <> k -> JSMap.get k0 (JSMap.delete k m) = JSMap.get k0 m.
Proof.
  intros Hne. induction m as [|[k' v'] m IH]; simpl; [done|].
  destruct (decide (k = k')) as [->|Hne']; simpl.
  - by rewrite decide_False.
  - destruct (decide (k0 = k')); [done|apply IH].
Qed.

Lemma extends_refl docs : extends docs docs.
Proof. intros key d _ Hg. by exists d. Qed.

Lemma extends_trans docs1 docs2 docs3 :
  extends docs1 docs2 -> extends docs2 docs3 -> extends docs1 docs3.
Proof.
  intros H12 H23 key d Hk Hg.
  destruct (H12 key d Hk Hg) as (d2 & Hg2 & Hv2 & He2).
  destruct (H23 key d2 Hk Hg2) as (d3 & Hg3 & Hv3 & He3).
  exists d3. split; [done|]. split; by etrans.
Qed.

Lemma extends_set key v docs :
  (forall d, JSMap.get key docs = Some d ->
             vertices d `prefix_of` vertices v /\ edges d `prefix_of` edges v) ->
  extends docs (JSMap.set key v docs).
Proof.
  intros Hv key0 d _ Hg. destruct (decide (key0 = key)) as [->|Hne].
  - exists v. rewrite JSMap_get_set_eq. split; [done|]. by apply Hv.
  - exists d. by rewrite JSMap_get_set_ne.
Qed.

Lemma extends_delete docs : extends docs (JSMap.delete unsorted docs).
Proof. intros key d Hk Hg. exists d. by rewrite JSMap_get_delete_ne. Qed.

#[local] Instance grows_refl : Reflexive grows.
Proof. intros this. apply extends_refl. Qed.

#[local] Instance grows_trans : Transitive grows.
Proof. intros ???. apply extends_trans. Qed.

Lemma pushInto_grows key f this c this' :
  (forall d, vertices d `prefix_of` vertices (f d) /\ edges d `prefix_of` edges (f d)) ->
  pushInto key f this = (c, this') -> grows this this'.
Proof.
  intros Hf. unfold pushInto.
  destruct (JSMap.get key _) as [d|] eqn:Hg; intros [= <- <-]; [|reflexivity].
  apply extends_set. intros d' Hd'. rewrite Hg in Hd'. injection Hd' as <-. apply Hf.
Qed.

Lemma pushVertex_prefix obj d :
  vertices d `prefix_of` vertices (pushVertex obj d)
  /\ edges d `prefix_of` edges (pushVertex obj d).
Proof. split; simpl; [by apply prefix_app_r|done]. Qed.

Lemma pushEdge_prefix obj d :
  vertices d `prefix_of` vertices (pushEdge obj d)
  /\ edges d `prefix_of` edges (pushEdge obj d).
Proof. split; simpl; [done|by apply prefix_app_r]. Qed.

Lemma set_fresh_extends key docs :
  JSMap.has key docs = false -> extends docs (JSMap.set key emptyDocumentData docs).
Proof.
  unfold JSMap.has. intros Hh. apply extends_set. intros d Hg. by rewrite Hg in Hh.
Qed.

Lemma openDocument_grows obj this : grows this (openDocument obj this).
Proof.
  unfold openDocument. destruct (isDocumentVertex obj); [|reflexivity]. simpl.
  destruct (JSMap.has _ _) eqn:Hh; [apply extends_refl|]. by apply set_fresh_extends.
Qed.

Lemma closeDocument_grows obj this : grows this (closeDocument obj this).
Proof.
  unfold closeDocument. destruct (isContainsEdge obj); [|reflexivity]. simpl.
  destruct (JSMap.has _ _) eqn:Hh; [apply extends_refl|]. by apply set_fresh_extends.
Qed.

Lemma appendUnderCursor_grows obj this c this' :
  appendUnderCursor obj this = (c, this') -> grows this this'.
Proof.
  unfold appendUnderCursor. destruct (truthy _); [|intros [= <- <-]; reflexivity].
  destruct (type obj === Some "vertex").
  { apply pushInto_grows, pushVertex_prefix. }
  destruct (type obj === Some "edge").
  { apply pushInto_grows, pushEdge_prefix. }
  intros [= <- <-]. reflexivity.
Qed.

Lemma ingestLine_grows ln this c this' :
  ingestLine ln this = (c, this') -> grows this this'.
Proof.
  destruct ln as [| | |obj]; simpl; try (intros [= <- <-]; reflexivity).
  destruct (appendUnderCursor obj _) as [[[]|e] this1] eqn:Ha; intros [= <- <-].
  - etrans; [apply openDocument_grows|]. etrans; [by eapply appendUnderCursor_grows|].
    apply closeDocument_grows.
  - etrans; [apply openDocument_grows|]. by eapply appendUnderCursor_grows.
Qed.

Lemma forEach_grows lines : forall this c this',
  forEach lines this = (c, this') -> grows this this'.
Proof.
  induction lines as [|ln lines IH]; simpl; intros this c this'.
  - intros [= <- <-]. reflexivity.
  - destruct (ingestLine ln this) as [[[]|e] this1] eqn:Hl.
    + intros H. etrans; [by eapply ingestLine_grows|]. by eapply IH.
    + intros [= <- <-]. by eapply ingestLine_grows.
Qed.

Lemma repairEdge_grows edge this c this' :
  repairEdge edge this = (c, this') -> grows this this'.
Proof.
  unfold repairEdge. destruct (_ && _); [|intros [= <- <-]; first [reflexivity|assumption]].
  destruct (truthy _); [|intros [= <- <-]; first [reflexivity|assumption]].
  destruct (pushInto _ (pushEdge edge) this) as [[[]|e] this1] eqn:H1.
  2:{ intros [= <- <-]. eapply pushInto_grows; [|exact H1]. apply pushEdge_prefix. }
  assert (grows this this1) as G1.
  { eapply pushInto_grows; [|exact H1]. apply pushEdge_prefix. }
  destruct (findIdMinus 1 edge _) as [e1|].
  - destruct (pushInto _ (pushEdge e1) this1) as [[[]|e] this2] eqn:H2.
    2:{ intros [= <- <-]. etrans; [exact G1|].
        eapply pushInto_grows; [|exact H2]. apply pushEdge_prefix. }
    assert (grows this this2) as G2.
    { etrans; [exact G1|]. eapply pushInto_grows; [|exact H2]. apply pushEdge_prefix. }
    destruct (findIdMinus 2 edge _) as [v2|]; [|intros [= <- <-]; first [reflexivity|assumption]].
    intros H3. etrans; [exact G2|].
    eapply pushInto_grows; [|exact H3]. apply pushVertex_prefix.
  - destruct (findIdMinus 2 edge _) as [v2|]; [|intros [= <- <-]; first [reflexivity|assumption]].
    intros H3. etrans; [exact G1|].
    eapply pushInto_grows; [|exact H3]. apply pushVertex_prefix.
Qed.

Lemma repairLoop_grows fuel : forall i this c this',
  repairLoop fuel i this = Some (c, this') -> grows this this'.
Proof.
  induction fuel as [|fuel IH]; simpl; intros i this c this'; [discriminate|].
  destruct (unsortedEdges this !! i) as [edge|]; [|intros [= <- <-]; reflexivity].
  destruct (repairEdge edge this) as [[[]|e] this1] eqn:Hr.
  - intros H. etrans; [by eapply repairEdge_grows|]. by eapply IH.
  - intros [= <- <-]. by eapply repairEdge_grows.
Qed.

Lemma repair_grows fuel this c this' :
  repair fuel this = Some (c, this') -> grows this this'.
Proof.
  unfold repair. destruct (JSMap.get unsorted _); [|intros [= <- <-]; reflexivity].
  destruct (repairLoop fuel 0 this) as [[[[]|e] this1]|] eqn:Hl; [| |discriminate].
  - intros [= <- <-]. etrans; [by eapply repairLoop_grows|]. apply extends_delete.
  - intros [= <- <-]. by eapply repairLoop_grows.
Qed.

(** C8, as amended. A load discards nothing of the graph the backend
    held: however it completes, every shard that was in the store before
    the call (the unassigned one apart) is in the store after it, and holds
    the vertices and the edges it held before, followed by what the call
    added.  The unassigned shard is excepted: a load that completes
    deletes it. *)
Theorem load_keeps_previous_graph fuel lines this c this' :
  load fuel lines this = Some (c, this') -> grows this this'.
Proof.
  unfold load. destruct (forEach _ this) as [[[]|e] this1] eqn:Hf.
  - intros H. etrans; [by eapply forEach_grows|]. by eapply repair_grows.
  - intros [= <- <-]. by eapply forEach_grows.
Qed.

Lemma load_keeps_previous_graph_witness :
  grows scenarioBackend
    {| database :=
         {| documents :=
              [(Some "file:///a",
                {| vertices :=
                     [ documentVertex 1 "file:///a"; rangeVertex 2 2 2 2 6;
                       vertex 3 "resultSet"; hoverResultVertex 5 ["x"];
                       documentVertex 1 "file:///a"; rangeVertex 2 2 2 2 6;
                       vertex 3 "resultSet"; hoverResultVertex 5 ["x"] ];
                   edges :=
                     [ edge 4 "next" 2 3; edge 6 "textDocument/hover" 3 5;
                       containsEdge 7 1 [2];
                       edge 4 "next" 2 3; edge 6 "textDocument/hover" 3 5;
                       containsEdge 7 1 [2] ] |})];
            vertexIdToDocument := {[ Some 1 := Some "file:///a" ]} |};
       currentDocumentUri := unsorted |}.
Proof.
  apply (load_keeps_previous_graph 8 scenario scenarioBackend (Normal ())).
  reflexivity.
Defined.

(** C8, the counterexample: the scenario loaded twice into one backend.
    The second load completes and leaves every vertex and every edge of the
    shard of file:///a twice in it. *)
Lemma second_load_duplicates :
  loadedTwice scenario =
  Some (Normal (),
        {| database :=
             {| documents :=
                  [(Some "file:///a",
                    {| vertices :=
                         [ documentVertex 1 "file:///a"; rangeVertex 2 2 2 2 6;
                           vertex 3 "resultSet"; hoverResultVertex 5 ["x"];
                           documentVertex 1 "file:///a"; rangeVertex 2 2 2 2 6;
                           vertex 3 "resultSet"; hoverResultVertex 5 ["x"] ];
                       edges :=
                         [ edge 4 "next" 2 3; edge 6 "textDocument/hover" 3 5;
                           containsEdge 7 1 [2];
                           edge 4 "next" 2 3; edge 6 "textDocument/hover" 3 5;
                           containsEdge 7 1 [2] ] |})];
                vertexIdToDocument := {[ Some 1 := Some "file:///a" ]} |};
           currentDocumentUri := unsorted |}).
Proof. reflexivity. Qed.

(** ** The repair pass (C4) *)

Lemma JSMap_delete_absent {K V} `{EqDecision K} (k : K) (m : list (K * V)) :
  JSMap.get k m = None -> JSMap.delete k m = m.
Proof.
  induction m as [|[k' v'] m IH]; simpl; [done|].
  destruct (decide (k = k')); [discriminate|]. intros Hg. by rewrite IH.
Qed.

Lemma pushInto_present key f this d :
  JSMap.get key (documents (database this)) = Some d ->
  pushInto key f this =
  (Normal (), setDocuments (JSMap.set key (f d) (documents (database this))) this).
Proof. intros Hg. unfold pushInto. by rewrite Hg. Qed.

Lemma truthy_inv t : truthy t = true -> exists u, t = Some u /\ u <> "".
Proof.
  destruct t as [u|]; simpl; [|discriminate]. intros Hu. exists u. split; [done|].
  intros ->. discriminate.
Qed.

Lemma setDocuments_setDocuments X Y this :
  setDocuments X (setDocuments Y this) = setDocuments X this.
Proof. done. Qed.

Lemma documents_setDocuments X this : documents (database (setDocuments X this)) = X.
Proof. done. Qed.

Section Repair.
Variable this : LSIFBackend.

Local Abbreviation docs := (documents (database this)).
Local Abbreviation E := (unsortedEdges this).
Local Abbreviation V := (unsortedVertices this).

Lemma withMigrated_key es entry : fst (withMigrated this es entry) = fst entry.
Proof. by destruct entry as [[u|] d]. Qed.

Lemma withMigrated_nil entry : withMigrated this [] entry = entry.
Proof. destruct entry as [[u|] [vs es]]; simpl; by rewrite ?app_nil_r. Qed.

Lemma withMigrated_eta es key d :
  withMigrated this es (key, d) = (key, snd (withMigrated this es (key, d))).
Proof. by destruct key. Qed.

Lemma get_withMigrated es key (m : list (option string * DocumentData)) :
  JSMap.get key (map (withMigrated this es) m) =
  (fun d => snd (withMigrated this es (key, d))) <$> JSMap.get key m.
Proof.
  induction m as [|[k' d'] m IH]; [done|].
  cbn [map]. rewrite withMigrated_eta. cbn [JSMap.get].
  destruct (decide (key = k')) as [->|Hne]; [done|apply IH].
Qed.

Lemma delete_withMigrated es key (m : list (option string * DocumentData)) :
  JSMap.delete key (map (withMigrated this es) m) =
  map (withMigrated this es) (JSMap.delete key m).
Proof.
  induction m as [|[k' d'] m IH]; [done|].
  cbn [map]. rewrite withMigrated_eta. cbn [JSMap.delete].
  destruct (decide (key = k')) as [->|Hne]; [done|].
  cbn [map]. by rewrite <- withMigrated_eta, IH.
Qed.

Lemma edgesMigratedBy_snoc u es e :
  edgesMigratedBy this u (es ++ [e]) =
  (edgesMigratedBy this u es ++
    (if bool_decide (target this e = Some u)
     then e :: option_list (findIdMinus 1 e E) else []))%list.
Proof. unfold edgesMigratedBy. rewrite flat_map_app. simpl. by rewrite app_nil_r. Qed.

Lemma verticesMigratedBy_snoc u es e :
  verticesMigratedBy this u (es ++ [e]) =
  (verticesMigratedBy this u es ++
    (if bool_decide (target this e = Some u)
     then option_list (findIdMinus 2 e V) else []))%list.
Proof. unfold verticesMigratedBy. rewrite flat_map_app. simpl. by rewrite app_nil_r. Qed.

(** An edge that is migrated elsewhere, or not at all, changes nothing for
    the entry. *)
Lemma withMigrated_snoc_other es e entry :
  (forall u, target this e = Some u -> fst entry <> Some u) ->
  withMigrated this (es ++ [e]) entry = withMigrated this es entry.
Proof.
  destruct entry as [[u|] d]; simpl; [|done]. intros Hne.
  rewrite edgesMigratedBy_snoc, verticesMigratedBy_snoc.
  rewrite bool_decide_eq_false_2 by (intros Ht; by apply (Hne u)).
  by rewrite !app_nil_r.
Qed.

Lemma map_withMigrated_snoc_other es e (m : list (option string * DocumentData)) :
  target this e ∉ map fst m ->
  map (withMigrated this (es ++ [e])) m = map (withMigrated this es) m.
Proof.
  induction m as [|entry m IH]; simpl; [done|].
  intros Hnot. apply not_elem_of_cons in Hnot as [Hne Hnot].
  rewrite withMigrated_snoc_other, IH; [done|done|]. congruence.
Qed.

Lemma set_withMigrated_snoc es e u d (m : list (option string * DocumentData)) :
  NoDup (map fst m) ->
  target this e = Some u ->
  JSMap.get (Some u) m = Some d ->
  JSMap.set (Some u) (snd (withMigrated this (es ++ [e]) (Some u, d)))
    (map (withMigrated this es) m)
  = map (withMigrated this (es ++ [e])) m.
Proof.
  intros Hnd Ht. induction m as [|[k' d'] m IH]; [discriminate|].
  apply NoDup_cons in Hnd as [Hnot Hnd]. cbn [map fst] in Hnot.
  cbn [map]. rewrite (withMigrated_eta es k' d'). cbn [JSMap.get JSMap.set].
  destruct (decide (Some u = k')) as [<-|Hne].
  - intros [= ->]. rewrite <- withMigrated_eta. f_equal.
    rewrite map_withMigrated_snoc_other; [done|]. by rewrite Ht.
  - intros Hg. rewrite <- withMigrated_eta, IH by done. f_equal.
    symmetry. apply withMigrated_snoc_other. simpl. congruence.
Qed.

Hypothesis Hkeys : keysDistinct this.
Hypothesis Htargets : targetsResolve this.

Lemma nothing_to_unsorted es :
  es ⊆ E ->
  edgesMigratedBy this "unsorted" es = [] /\ verticesMigratedBy this "unsorted" es = [].
Proof.
  induction es as [|e es IH]; [done|]. intros Hsub.
  assert (target this e <> Some "unsorted") as Hne.
  { assert (e ∈ E) as He by (apply Hsub, list_elem_of_here).
    intros Ht. destruct (Htargets e _ He Ht) as [Hu _]. done. }
  assert (es ⊆ E) as Hes by (intros x Hx; by apply Hsub, list_elem_of_further).
  destruct (IH Hes) as [IH1 IH2].
  unfold edgesMigratedBy, verticesMigratedBy in *. simpl.
  rewrite bool_decide_eq_false_2 by done. by rewrite IH1, IH2.
Qed.

Lemma unsorted_stateAfter es :
  es ⊆ E ->
  JSMap.get unsorted (map (withMigrated this es) docs) = JSMap.get unsorted docs.
Proof.
  intros Hsub. rewrite get_withMigrated.
  destruct (JSMap.get unsorted docs) as [[vs es']|]; [|done]. simpl.
  destruct (nothing_to_unsorted es Hsub) as [-> ->]. by rewrite !app_nil_r.
Qed.

(** One turn of the loop. *)
Lemma repairEdge_stateAfter es e :
  es ⊆ E -> e ∈ E ->
  repairEdge e (stateAfter this es) = (Normal (), stateAfter this (es ++ [e])).
Proof.
  intros Hsub He.
  assert (forall D, uriOfId (setDocuments D this) (shard e) = uriOfId this (shard e))
    as Huri by done.
  destruct (target this e) as [u|] eqn:Ht.
  - (* the edge is migrated to [u] *)
    destruct (Htargets e u He Ht) as [Hu [d Hd]].
    assert (Some u <> unsorted) as Hne by (intros [= ->]; done).
    pose proof Ht as Htarget.
    unfold target in Ht. unfold repairEdge, stateAfter. rewrite Huri.
    destruct (_ && _); [|discriminate].
    destruct (truthy (uriOfId this (shard e))); [|discriminate]. rewrite Ht.
    set (D0 := map (withMigrated this es) docs).
    assert (JSMap.get (Some u) D0 = Some (snd (withMigrated this es (Some u, d)))) as Hg0.
    { unfold D0. by rewrite get_withMigrated, Hd. }
    assert (forall D, JSMap.get unsorted D = JSMap.get unsorted D0 ->
              unsortedEdges (setDocuments D this) = E
              /\ unsortedVertices (setDocuments D this) = V) as Hunsorted.
    { intros D HD. unfold unsortedEdges, unsortedVertices. simpl. rewrite HD.
      unfold D0. by rewrite (unsorted_stateAfter es Hsub). }
    set (dd := snd (withMigrated this es (Some u, d))) in *.
    rewrite (pushInto_present _ _ _ dd) by done.
    rewrite setDocuments_setDocuments, documents_setDocuments.
    set (D1 := JSMap.set (Some u) (pushEdge e dd) D0).
    destruct (Hunsorted D1) as [-> _].
    { unfold D1. by rewrite JSMap_get_set_ne. }
    assert (exists D2,
      match findIdMinus 1 e E with
      | Some e1 => pushInto (Some u) (pushEdge e1) (setDocuments D1 this)
      | None => (Normal (), setDocuments D1 this)
      end = (Normal (), setDocuments D2 this)
      /\ D2 = JSMap.set (Some u)
                {| vertices := vertices dd;
                   edges := edges dd ++ e :: option_list (findIdMinus 1 e E) |} D0)
      as (D2 & -> & HD2).
    { destruct (findIdMinus 1 e E) as [e1|]; eexists; (split; [|reflexivity]).
      - rewrite (pushInto_present _ _ _ (pushEdge e dd)).
        2:{ simpl. unfold D1. apply JSMap_get_set_eq. }
        simpl. unfold D1. rewrite JSMap_set_set. unfold pushEdge. simpl.
        by rewrite <- app_assoc.
      - done. }
    destruct (Hunsorted D2) as [_ ->].
    { rewrite HD2. by rewrite JSMap_get_set_ne. }
    assert (exists D3,
      match findIdMinus 2 e V with
      | Some v2 => pushInto (Some u) (pushVertex v2) (setDocuments D2 this)
      | None => (Normal (), setDocuments D2 this)
      end = (Normal (), setDocuments D3 this)
      /\ D3 = JSMap.set (Some u)
                {| vertices := vertices dd ++ option_list (findIdMinus 2 e V);
                   edges := edges dd ++ e :: option_list (findIdMinus 1 e E) |} D0)
      as (D3 & -> & HD3).
    { destruct (findIdMinus 2 e V) as [v2|]; eexists; (split; [|reflexivity]).
      - rewrite (pushInto_present _ _ _
                   {| vertices := vertices dd;
                      edges := edges dd ++ e :: option_list (findIdMinus 1 e E) |}).
        2:{ simpl. rewrite HD2. apply JSMap_get_set_eq. }
        simpl. rewrite HD2. by rewrite JSMap_set_set.
      - simpl. rewrite HD2. by rewrite app_nil_r. }
    f_equal. f_equal. rewrite HD3. unfold D0.
    rewrite <- (set_withMigrated_snoc es e u d docs Hkeys Htarget Hd).
    f_equal. unfold dd. simpl.
    rewrite edgesMigratedBy_snoc, verticesMigratedBy_snoc.
    rewrite bool_decide_eq_true_2 by done. by rewrite !app_assoc.
  - (* the edge stays *)
    assert (stateAfter this (es ++ [e]) = stateAfter this es) as ->.
    { unfold stateAfter. f_equal. apply map_ext. intros entry.
      apply withMigrated_snoc_other. by rewrite Ht. }
    unfold target in Ht. unfold repairEdge. unfold stateAfter at 1 2. rewrite Huri.
    destruct (_ && _); [|done].
    destruct (truthy (uriOfId this (shard e))) eqn:Htr; [|done].
    apply truthy_inv in Htr as (u & Hu & _). congruence.
Qed.
Lemma unsortedEdges_stateAfter es :
  es ⊆ E -> unsortedEdges (stateAfter this es) = E.
Proof.
  intros Hsub. unfold unsortedEdges at 1. simpl.
  rewrite (unsorted_stateAfter es Hsub). done.
Qed.

Lemma stateAfter_nil : stateAfter this [] = this.
Proof.
  unfold stateAfter. rewrite (map_ext _ Datatypes.id), map_id.
  - apply setDocuments_same.
  - apply withMigrated_nil.
Qed.

(** The loop, from its [i]-th turn on, with [n] edges left. *)
Lemma repairLoop_stateAfter n : forall i fuel,
  (i + n = length E)%nat -> (n < fuel)%nat ->
  repairLoop fuel i (stateAfter this (take i E)) = Some (Normal (), stateAfter this E).
Proof.
  induction n as [|n IH]; intros i [|fuel] Hi Hfuel; try lia; simpl.
  - rewrite unsortedEdges_stateAfter by apply subseteq_take.
    rewrite lookup_ge_None_2 by lia. by rewrite take_ge by lia.
  - rewrite unsortedEdges_stateAfter by apply subseteq_take.
    destruct (lookup_lt_is_Some_2 E i) as [e He]; [lia|]. rewrite He.
    rewrite repairEdge_stateAfter.
    + rewrite <- (take_S_r E i e He). apply IH; lia.
    + apply subseteq_take.
    + by eapply list_elem_of_lookup_2.
Qed.

Lemma repair_stateAfter fuel :
  (length E < fuel)%nat ->
  repair fuel this = Some (Normal (), setDocuments (repaired this) this).
Proof.
  intros Hfuel. unfold repair, repaired.
  destruct (JSMap.get unsorted docs) as [unsortedData|] eqn:Hu.
  - rewrite <- stateAfter_nil at 1. change [] with (take 0 E).
    rewrite (repairLoop_stateAfter (length E)) by (done || lia).
    simpl. by rewrite delete_withMigrated.
  - rewrite JSMap_delete_absent by done.
    assert (E = []) as -> by (unfold unsortedEdges; by rewrite Hu).
    fold (stateAfter this []). by rewrite stateAfter_nil.
Qed.
End Repair.

(** *** What ingestion keeps true *)

Lemma JSMap_keys_set {K V} `{EqDecision K} (k : K) (v : V) (m : list (K * V)) :
  map fst (JSMap.set k v m) =
  if JSMap.has k m then map fst m else (map fst m ++ [k])%list.
Proof.
  unfold JSMap.has. induction m as [|[k' v'] m IH]; simpl; [done|].
  destruct (decide (k = k')) as [->|Hne]; simpl; [done|].
  rewrite IH. by destruct (JSMap.get k m).
Qed.

Lemma JSMap_get_None_keys {K V} `{EqDecision K} (k : K) (m : list (K * V)) :
  JSMap.get k m = None -> k ∉ map fst m.
Proof.
  induction m as [|[k' v'] m IH]; simpl; [intros _; apply not_elem_of_nil|].
  destruct (decide (k = k')); [discriminate|]. intros Hg.
  apply not_elem_of_cons. split; [done|by apply IH].
Qed.

Lemma JSMap_set_NoDup {K V} `{EqDecision K} (k : K) (v : V) (m : list (K * V)) :
  NoDup (map fst m) -> NoDup (map fst (JSMap.set k v m)).
Proof.
  intros Hnd. rewrite JSMap_keys_set. unfold JSMap.has.
  destruct (JSMap.get k m) eqn:Hg; [done|].
  apply NoDup_app. split; [done|]. split; [|apply NoDup_singleton].
  intros x Hx ->%list_elem_of_singleton. by apply JSMap_get_None_keys in Hg.
Qed.

Lemma JSMap_set_is_Some {K V} `{EqDecision K} (k k0 : K) (v : V) (m : list (K * V)) :
  is_Some (JSMap.get k0 m) -> is_Some (JSMap.get k0 (JSMap.set k v m)).
Proof.
  intros Hs. destruct (decide (k0 = k)) as [->|Hne].
  - rewrite JSMap_get_set_eq. by eexists.
  - by rewrite JSMap_get_set_ne.
Qed.

Lemma wellFormedStore_new : wellFormedStore newBackend.
Proof. split; [apply NoDup_nil_2|]. intros k u. simpl. by rewrite lookup_empty. Qed.

Lemma wellFormedStore_set key v this :
  wellFormedStore this ->
  wellFormedStore (setDocuments (JSMap.set key v (documents (database this))) this).
Proof.
  intros [Hk Hv]. split.
  - by apply JSMap_set_NoDup.
  - intros k u Hl. simpl. apply JSMap_set_is_Some. by apply (Hv k).
Qed.

Lemma pushInto_wellFormed key f this c this' :
  wellFormedStore this -> pushInto key f this = (c, this') -> wellFormedStore this'.
Proof.
  intros Hw. unfold pushInto. destruct (JSMap.get key _); intros [= <- <-]; [|done].
  by apply wellFormedStore_set.
Qed.

Lemma openDocument_wellFormed obj this :
  wellFormedStore this -> wellFormedStore (openDocument obj this).
Proof.
  intros [Hk Hv]. unfold openDocument. destruct (isDocumentVertex obj); [|done]. simpl.
  destruct (JSMap.has _ _); simpl; [done|]. split.
  - by apply JSMap_set_NoDup.
  - intros k u. simpl. destruct (decide (k = id obj)) as [->|Hne].
    + rewrite lookup_insert_eq. intros [= ->]. rewrite JSMap_get_set_eq. by eexists.
    + rewrite lookup_insert_ne by done. intros Hl.
      apply JSMap_set_is_Some. by apply (Hv k).
Qed.

Lemma closeDocument_wellFormed obj this :
  wellFormedStore this -> wellFormedStore (closeDocument obj this).
Proof.
  intros Hw. unfold closeDocument. destruct (isContainsEdge obj); [|done]. simpl.
  destruct (JSMap.has _ _); [done|].
  by apply (wellFormedStore_set _ _ (setCursor unsorted this)).
Qed.

Lemma ingestLine_wellFormed ln this c this' :
  wellFormedStore this -> ingestLine ln this = (c, this') -> wellFormedStore this'.
Proof.
  intros Hw. destruct ln as [| | |obj]; simpl; try by intros [= <- <-].
  apply (openDocument_wellFormed obj) in Hw.
  destruct (appendUnderCursor obj _) as [c1 this1] eqn:Ha.
  assert (wellFormedStore this1) as Hw1.
  { revert Ha. unfold appendUnderCursor. destruct (truthy _); [|by intros [= <- <-]].
    destruct (type obj === Some "vertex"); [by apply pushInto_wellFormed|].
    destruct (type obj === Some "edge"); [by apply pushInto_wellFormed|].
    by intros [= <- <-]. }
  destruct c1; intros [= <- <-]; [|done]. by apply closeDocument_wellFormed.
Qed.

Lemma forEach_wellFormed lines : forall this c this',
  wellFormedStore this -> forEach lines this = (c, this') -> wellFormedStore this'.
Proof.
  induction lines as [|ln lines IH]; simpl; intros this c this' Hw.
  - by intros [= <- <-].
  - destruct (ingestLine ln this) as [[[]|e] this1] eqn:Hl.
    + apply IH. by eapply ingestLine_wellFormed.
    + intros [= <- <-]. by eapply ingestLine_wellFormed.
Qed.

Lemma wellFormed_targetsResolve this :
  wellFormedStore this -> noDocumentNamedUnsorted this -> targetsResolve this.
Proof.
  intros [_ Hv] Hno e u _ Ht. unfold target in Ht.
  destruct (_ && _); [|discriminate].
  destruct (truthy _); [|discriminate].
  unfold uriOfId in Ht.
  destruct (vertexIdToDocument (database this) !! shard e) as [t|] eqn:Hl; [|discriminate].
  subst t. split.
  - intros ->. by apply (Hno _ _ Hl).
  - by apply (Hv (shard e)).
Qed.

(** X1. The repair pass in closed form.  After the stream is consumed, the
    repair pass copies every item edge of the unassigned shard whose [shard]
    is truthy and resolves, through the id-to-uri map, to a truthy uri into
    the shard of that uri, followed by the edge whose id is the item edge's
    minus 1 and by the vertex whose id is the item edge's minus 2, when the
    unassigned shard has them; the unassigned shard is then discarded and
    no other record is migrated.  This holds for a load into a well-formed
    store when no document is named "unsorted"; the loop ends within one
    turn per edge of the unassigned shard. *)
Theorem load_repairs fuel lines this this1 :
  wellFormedStore this ->
  forEach (nonBlank lines) this = (Normal (), this1) ->
  noDocumentNamedUnsorted this1 ->
  (length (unsortedEdges this1) < fuel)%nat ->
  load fuel lines this = Some (Normal (), setDocuments (repaired this1) this1).
Proof.
  intros Hw Hf Hno Hfuel. unfold load. fold (nonBlank lines). rewrite Hf.
  assert (wellFormedStore this1) as Hw1 by (by eapply forEach_wellFormed).
  apply repair_stateAfter; [by destruct Hw1| |done].
  by apply wellFormed_targetsResolve.
Qed.

Lemma load_repairs_witness :
  load 4 unassignedTriple newBackend = Some (Normal (), unassignedTripleBackend).
Proof.
  refine (load_repairs 4 unassignedTriple newBackend
            (snd (forEach (nonBlank unassignedTriple) newBackend))
            wellFormedStore_new eq_refl _ _).
  - apply map_Forall_singleton. discriminate.
  - vm_compute. lia.
Defined.

(** C4. An item edge of the unassigned shard whose [shard] is 0, the id of
    the document file:///a.  The id-to-uri map resolves it, and the edge is
    not copied: the guard [edge.shard] reads 0 as absent.  The shard of
    file:///a ends with its document vertex and its contains edge only. *)
Theorem shard_zero_is_not_migrated :
  load 4 shardZero newBackend =
  Some (Normal (),
        {| database :=
             {| documents :=
                  [(Some "file:///a",
                    {| vertices := [documentVertex 0 "file:///a"];
                       edges := [containsEdge 3 0 []] |})];
                vertexIdToDocument := {[ Some 0 := Some "file:///a" ]} |};
           currentDocumentUri := unsorted |}).
Proof. reflexivity. Qed.

(** ** The testable properties of the specification *)

(** X2. A query for a URI that has no shard returns none, whatever the
    resolver. *)
Theorem unknown_document_gives_none {host : Host} this documentUri u position :
  decodeURIComponent documentUri = Some u ->
  JSMap.get (Some u) (documents (database this)) = None ->
  completion (getHoverData this documentUri position) = Normal None
  /\ completion (getDefinitionData this documentUri position) = Normal None
  /\ completion (getReferencesData this documentUri position) = Normal None.
Proof.
  intros Hu Hg.
  unfold getHoverData, getDefinitionData, getReferencesData,
    hoverBody, definitionBody, referencesBody.
  rewrite Hu. simpl. by rewrite Hg.
Qed.

Lemma unknown_document_gives_none_witness :
  completion (getHoverData scenarioBackend "file%3A///b" {| line := 1; character := 3 |})
    = Normal None
  /\ completion (getDefinitionData scenarioBackend "file%3A///b" {| line := 1; character := 3 |})
    = Normal None
  /\ completion (getReferencesData scenarioBackend "file%3A///b" {| line := 1; character := 3 |})
    = Normal None.
Proof.
  exact (unknown_document_gives_none scenarioBackend "file%3A///b" "file:///b"
           {| line := 1; character := 3 |} eq_refl eq_refl).
Defined.

Lemma nonEmpty_not_nil {host : Host} locations : nonEmpty locations <> Some [].
Proof. by destruct locations. Qed.

Lemma getDefinitionData_not_empty {host : Host} this documentUri position :
  completion (getDefinitionData this documentUri position) <> Normal (Some []).
Proof.
  unfold getDefinitionData. destruct (decodeURIComponent _); [|done]. simpl.
  unfold definitionBody.
  destruct (JSMap.get _ _) as [data|]; [|done].
  destruct (findContains data) as [c|]; [|done].
  destruct (inVs c) as [rangeIds|]; [|done].
  intros H. apply bind_Normal_inv in H as (ls & _ & [= H]).
  by apply nonEmpty_not_nil in H.
Qed.

Lemma getReferencesData_not_empty {host : Host} this documentUri position :
  completion (getReferencesData this documentUri position) <> Normal (Some []).
Proof.
  unfold getReferencesData. destruct (decodeURIComponent _); [|done]. simpl.
  unfold referencesBody.
  destruct (JSMap.get _ _) as [data|]; [|done].
  destruct (findContains data) as [c|]; [|done].
  destruct (inVs c) as [rangeIds|]; [|done].
  intros H. apply bind_Normal_inv in H as ([rangeVertex|] & _ & H); [|done].
  repeat (destruct (List.find _ _); [|done]).
  destruct (collectReferenceEdges _ _) as [|item0 items]; [done|].
  apply bind_Normal_inv in H as (ls & _ & [= H]).
  by apply nonEmpty_not_nil in H.
Qed.

(** X3. The definition and reference resolvers never return an empty list:
    a chain that ends without a location gives none, as an absent chain
    does. *)
Theorem empty_result_is_none {host : Host} this documentUri position :
  completion (getDefinitionData this documentUri position) <> Normal (Some [])
  /\ completion (getReferencesData this documentUri position) <> Normal (Some []).
Proof.
  split; [apply getDefinitionData_not_empty|apply getReferencesData_not_empty].
Qed.

(** The end-to-end scenario, its contains edge last: the load
    completes, hover at caller position (1,3) gives the text and hover at
    (5,5) gives none; two fragments are joined by a newline.  With the
    contains edge right after the range, the records that follow it go to
    the unassigned shard and are dropped: the same hover gives none. *)
Theorem scenario_end_to_end :
  loaded scenario = Some scenarioBackend
  /\ completion (getHoverData scenarioBackend "file:///a" {| line := 1; character := 3 |})
     = Normal (Some "x")
  /\ completion (getHoverData scenarioBackend "file:///a" {| line := 5; character := 5 |})
     = Normal None
  /\ joinContents (Some (hoverResultVertex 5 ["a"; "b"])) = Normal ("a" ++ newline ++ "b")
  /\ (this ← loaded scenarioContainsFirst;
      Some (completion (getHoverData this "file:///a" {| line := 1; character := 3 |})))
     = Some (Normal None).
Proof. repeat split; reflexivity. Qed.

(** Two definitions edges out of one result, each in the shard of its
    document: the definition resolver returns two locations, one for each
    document, each in caller coordinates. *)
Theorem definitions_fan_out_over_documents :
  (this ← loaded definitionsInTwoDocuments;
   Some (completion (getDefinitionData this "file:///a" {| line := 0; character := 0 |})))
  = Some (Normal (Some
      [ {| vscode.uri := Some "file:///a";
           vscode.range := {| vscode.start := {| line := 2; character := 0 |};
                              vscode.end_ := {| line := 2; character := 4 |} |} |};
        {| vscode.uri := Some "file:///b";
           vscode.range := {| vscode.start := {| line := 6; character := 0 |};
                              vscode.end_ := {| line := 6; character := 4 |} |} |} ])).
Proof. reflexivity. Qed.

(** X4. The range of the reference resolver is the first one, in the order
    of the contains edge, whose bounds hold the position: it is a range
    vertex of the shard named by the contains edge, the position is within
    it, and the position is within no range named earlier. *)
Theorem findRange_first_match documentData position rangeIds range :
  findRange documentData position rangeIds = Normal (Some range) ->
  exists earlier rangeId later,
    rangeIds = (earlier ++ rangeId :: later)%list
    /\ rangeOf documentData rangeId = Some range
    /\ withinRange position range = Normal true
    /\ forall rangeId' range',
         rangeId' ∈ earlier -> rangeOf documentData rangeId' = Some range' ->
         withinRange position range' = Normal false.
Proof.
  induction rangeIds as [|rangeId rest IH]; simpl; [discriminate|].
  unfold rangeOf at 1.
  destruct (List.find _ _) as [r|] eqn:Hf.
  - destruct (label r === Some "range") eqn:Hl.
    + destruct (withinRange position r) as [[]|] eqn:Hw; simpl.
      * intros [= ->]. exists [], rangeId, rest. repeat split; try done.
        -- unfold rangeOf. by rewrite Hf, Hl.
        -- intros ?? Hin. by apply elem_of_nil in Hin.
      * intros H. destruct (IH H) as (earlier & i & later & -> & Hr & Hin & Hbefore).
        exists (rangeId :: earlier), i, later. repeat split; try done.
        intros i' r' [->|Hin']%elem_of_cons Hr'; [|by eapply Hbefore].
        unfold rangeOf in Hr'. rewrite Hf, Hl in Hr'. by injection Hr' as <-.
      * discriminate.
    + intros H. destruct (IH H) as (earlier & i & later & -> & Hr & Hin & Hbefore).
      exists (rangeId :: earlier), i, later. repeat split; try done.
      intros i' r' [->|Hin']%elem_of_cons Hr'; [|by eapply Hbefore].
      unfold rangeOf in Hr'. by rewrite Hf, Hl in Hr'.
  - intros H. destruct (IH H) as (earlier & i & later & -> & Hr & Hin & Hbefore).
    exists (rangeId :: earlier), i, later. repeat split; try done.
    intros i' r' [->|Hin']%elem_of_cons Hr'; [|by eapply Hbefore].
    unfold rangeOf in Hr'. by rewrite Hf in Hr'.
Qed.

Lemma findRange_first_match_witness :
  exists earlier rangeId later,
    [8; 2] = (earlier ++ rangeId :: later)%list
    /\ rangeOf
         {| vertices := [rangeVertex 2 1 1 1 5; rangeVertex 8 3 1 3 5]; edges := [] |}
         rangeId = Some (rangeVertex 2 1 1 1 5)
    /\ withinRange {| line := 1; character := 3 |} (rangeVertex 2 1 1 1 5) = Normal true
    /\ forall rangeId' range',
         rangeId' ∈ earlier ->
         rangeOf
           {| vertices := [rangeVertex 2 1 1 1 5; rangeVertex 8 3 1 3 5]; edges := [] |}
           rangeId' = Some range' ->
         withinRange {| line := 1; character := 3 |} range' = Normal false.
Proof.
  exact (findRange_first_match
           {| vertices := [rangeVertex 2 1 1 1 5; rangeVertex 8 3 1 3 5]; edges := [] |}
           {| line := 1; character := 3 |} [8; 2] (rangeVertex 2 1 1 1 5) eq_refl).
Defined.

(** ** Where the resolvers cannot throw *)

Lemma withinRange_total position range :
  wellTyped range -> label range = Some "range" ->
  exists b, withinRange position range = Normal b.
Proof.
  intros (_ & Hr & _) Hl. destruct (Hr Hl) as [[s Hs] [e He]].
  unfold withinRange. rewrite Hs, He. destruct (_ <=? _); eauto.
Qed.

Lemma toLocation_total {host : Host} u range :
  wellTyped range -> oneBased range -> label range = Some "range" -> accepted u ->
  exists location, toLocation u range = Normal location.
Proof.
  intros (_ & Hr & _) Hone Hl [parsed Hu]. destruct (Hr Hl) as [[s Hs] [e He]].
  destruct (Hone Hl s) as [? ?]; [by left|].
  destruct (Hone Hl e) as [? ?]; [by right|].
  exists {| vscode.uri := parsed;
            vscode.range :=
              if vscode.isBefore s e
              then {| vscode.start := minusOne s; vscode.end_ := minusOne e |}
              else {| vscode.start := minusOne e; vscode.end_ := minusOne s |} |}.
  apply toLocation_locatedAt. split; [done|]. exists s, e. done.
Qed.

Lemma joinContents_total h :
  hasContents h -> exists text, joinContents (Some h) = Normal text.
Proof. intros (r & cs & Hr & Hc). unfold joinContents. rewrite Hr, Hc. eauto. Qed.

Lemma find_elem {A} (f : A -> bool) (l : list A) (x : A) :
  List.find f l = Some x -> x ∈ l /\ f x = true.
Proof. intros [Hin Hf]%find_some. split; [by apply list_elem_of_In|done]. Qed.

Lemma strictEq_true {A} `{EqDecision A} (a b : A) : (a === b) = true -> a = b.
Proof. apply bool_decide_eq_true_1. Qed.

Lemma findContains_inVs d c :
  wellTypedShard d -> findContains d = Some c -> is_Some (inVs c).
Proof.
  intros [_ He] [Hin Hl]%find_elem. apply strictEq_true in Hl.
  rewrite Forall_forall in He. destruct (He c Hin) as (Hi & _). apply Hi. by left.
Qed.

Lemma findRange_total d position rangeIds :
  wellTypedShard d -> exists r, findRange d position rangeIds = Normal r.
Proof.
  intros [Hv _]. rewrite Forall_forall in Hv.
  induction rangeIds as [|rangeID rest IH]; simpl; [eauto|].
  destruct (List.find _ _) as [range|] eqn:Hf; [|done].
  destruct (label range === Some "range") eqn:Hl; [|done].
  apply find_elem in Hf as [Hin _]. apply strictEq_true in Hl.
  destruct (withinRange_total position range (Hv _ Hin) Hl) as [[] ->]; simpl; eauto.
Qed.

Section ReferencesTotal.
Context {host : Host}.
Variable this : LSIFBackend.
Hypothesis Hstore : wellTypedStore this.
Hypothesis Hone : oneBasedStore this.
Hypothesis Hkeys : shardKeysAccepted this.

Lemma referenceRanges_total u d rangeIds locations :
  (u, d) ∈ documents (database this) ->
  exists locations', referenceRanges u d rangeIds locations = Normal locations'.
Proof.
  intros Hd. destruct (Hstore _ _ Hd) as [Hv _]. rewrite Forall_forall in Hv.
  pose proof (Hone _ _ Hd) as Ho. rewrite Forall_forall in Ho.
  revert locations.
  induction rangeIds as [|rangeId rest IH]; simpl; intros locations; [eauto|].
  destruct (List.find _ _) as [range|] eqn:Hf; [|done].
  apply find_elem in Hf as [Hin [_ Hl]%andb_prop]. apply strictEq_true in Hl.
  destruct (toLocation_total u range (Hv _ Hin) (Ho _ Hin) Hl (Hkeys _ _ Hd))
    as [location ->].
  simpl. apply IH.
Qed.

Lemma referenceLocations_total documentUri itemEdges locations :
  Forall (fun e => is_Some (inVs e)) itemEdges ->
  exists locations',
    referenceLocations this documentUri itemEdges locations = Normal locations'.
Proof.
  intros Hall. revert locations.
  induction Hall as [|itemEdge rest [rangeIds Hi] _ IH]; simpl; intros locations; [eauto|].
  destruct (JSMap.get _ _) as [d|] eqn:Hg; [|done].
  rewrite Hi. apply JSMap_get_elem in Hg.
  destruct (referenceRanges_total (orElse (uriOfId this (shard itemEdge)) (Some documentUri))
              d rangeIds locations Hg) as [locations1 ->].
  simpl. apply IH.
Qed.

Lemma collectReferenceEdges_inVs referenceResult :
  Forall (fun e => is_Some (inVs e)) (collectReferenceEdges this referenceResult).
Proof.
  apply Forall_forall. intros e Hin. apply list_elem_of_In in Hin.
  unfold collectReferenceEdges in Hin.
  apply in_flat_map in Hin as ([key d] & Hd & He). simpl in He.
  apply filter_In in He as [He Hc].
  apply andb_prop in Hc as [[Hl _]%andb_prop _]. apply strictEq_true in Hl.
  apply list_elem_of_In in Hd, He.
  destruct (Hstore _ _ Hd) as [_ Hes]. rewrite Forall_forall in Hes.
  destruct (Hes e He) as (Hi & _). apply Hi. by right.
Qed.
End ReferencesTotal.

(** X5. The reference resolver throws nothing, whatever the URI (once
    decoded) and the position, on a store in which every contains and item
    edge has its [inVs], every hoverResult vertex has a result whose
    [contents] is an array, every range vertex has a [start] and an [end]
    whose lines and characters are at least 1, and the key of every shard
    is a uri that [Uri.parse] accepts: every lookup that misses ends in
    none.  (A bound of 0 makes [vscode.Position] throw.) *)
Theorem references_never_throw {host : Host} this documentUri position :
  wellTypedStore this -> oneBasedStore this -> shardKeysAccepted this ->
  is_Some (decodeURIComponent documentUri) ->
  exists r, completion (getReferencesData this documentUri position) = Normal r.
Proof.
  intros Hstore Hone Hkeys [u Hu]. unfold getReferencesData. rewrite Hu. simpl.
  unfold referencesBody.
  destruct (JSMap.get _ _) as [d|] eqn:Hg; [|eauto].
  apply JSMap_get_elem in Hg. pose proof (Hstore _ _ Hg) as Hd.
  destruct (findContains d) as [c|] eqn:Hc; [|eauto].
  destruct (findContains_inVs d c Hd Hc) as [rangeIds ->].
  destruct (findRange_total d (bump position) rangeIds Hd) as [[rangeVertex|] ->];
    simpl; [|eauto].
  repeat (destruct (List.find _ _); [|eauto]).
  match goal with
  | |- context [collectReferenceEdges this ?rr] =>
      pose proof (collectReferenceEdges_inVs this Hstore rr) as Hall;
      destruct (collectReferenceEdges this rr) as [|item0 items]
  end; [eauto|].
  destruct (referenceLocations_total this Hstore Hone Hkeys u (item0 :: items) [] Hall)
    as [locations Hl].
  simpl in Hl. rewrite Hl. simpl. eauto.
Qed.

Lemma references_never_throw_witness :
  exists r,
    completion (getReferencesData crossReferenceBackend "file:///a"
                  {| line := 0; character := 0 |}) = Normal r.
Proof.
  refine (references_never_throw crossReferenceBackend "file:///a"
            {| line := 0; character := 0 |} _ _ _ _).
  - intros key d Hin. apply list_elem_of_singleton in Hin. injection Hin as -> ->.
    split; repeat constructor; simpl; try discriminate; try (by eexists);
      try (intros [?|?]; discriminate); try (intros ?; discriminate).
  - intros key d Hin. apply list_elem_of_singleton in Hin. injection Hin as -> ->.
    apply Forall_forall. intros v Hv Hl p Hp. simpl in Hv.
    repeat (apply elem_of_cons in Hv as [->|Hv];
            [simpl in *; try discriminate; destruct Hp as [[= <-]|[= <-]]; simpl; lia|]).
    by apply elem_of_nil in Hv.
  - intros key d Hin. by eexists.
  - by eexists.
Defined.

Section HoverTotal.
Variable d : DocumentData.
Hypothesis Hd : wellTypedShard d.
Hypothesis Htargets : hoverTargetsPresent d.

Lemma hoverViaNext_total edge es : exists r, hoverViaNext d edge es = Normal r.
Proof.
  destruct Hd as [Hv _]. rewrite Forall_forall in Hv.
  induction es as [|edge2 rest IH]; simpl; [eauto|].
  destruct (_ && _); [|done].
  destruct (List.find _ _) as [h|] eqn:Hf; [|done].
  destruct (label h === Some "hoverResult") eqn:Hl; [|done].
  apply find_elem in Hf as [Hin _]. apply strictEq_true in Hl.
  destruct (Hv h Hin) as (_ & _ & Hh).
  destruct (Hh Hl) as (r & cs & Hr & Hcs). rewrite Hr, Hcs. simpl. eauto.
Qed.

Lemma hoverEdges_total range es :
  es ⊆ edges d -> exists r, hoverEdges d range es = Normal r.
Proof.
  induction es as [|edge rest IH]; simpl; intros Hsub; [eauto|].
  assert (edge ∈ edges d) as Hin by (apply Hsub, list_elem_of_here).
  assert (rest ⊆ edges d) as Hrest
    by (intros x Hx; by apply Hsub, list_elem_of_further).
  destruct (_ && _).
  - destruct (hoverViaNext_total edge (edges d)) as [[text|] ->]; simpl; [eauto|].
    by apply IH.
  - destruct (_ && _) eqn:Hc; [|by apply IH].
    apply andb_prop in Hc as [Hl%strictEq_true _].
    destruct (Htargets edge Hin Hl) as (h & -> & Hh).
    destruct (joinContents_total h Hh) as [text ->]. simpl. eauto.
Qed.

Lemma hoverRanges_total position rangeIds :
  exists r, hoverRanges d position rangeIds = Normal r.
Proof.
  destruct Hd as [Hv _]. rewrite Forall_forall in Hv.
  induction rangeIds as [|rangeId rest IH]; simpl; [eauto|].
  destruct (List.find _ _) as [range|] eqn:Hf; [|done].
  destruct (label range === Some "range") eqn:Hl; [|done].
  apply find_elem in Hf as [Hin _]. apply strictEq_true in Hl.
  destruct (withinRange_total position range (Hv _ Hin) Hl) as [[] ->]; simpl; [|done].
  destruct (hoverEdges_total range (edges d)) as [[text|] ->]; simpl; [done|eauto|done].
Qed.
End HoverTotal.

(** X6. The hover resolver throws nothing, whatever the URI (once decoded)
    and the position, on a store in which every contains and item edge has
    its [inVs], every range vertex has a [start] and an [end], every
    hoverResult vertex has a result whose [contents] is an array, and every
    textDocument/hover edge of a shard leads to a vertex of that shard
    whose [contents] is an array.  The last condition is the one the
    direct-edge branch leaves unchecked; [contents] that is a single
    marked string or markup object, which LSIF allows too, has no [map]
    and is not covered. *)
Theorem hover_never_throws this documentUri position :
  wellTypedStore this ->
  (forall key d, (key, d) ∈ documents (database this) -> hoverTargetsPresent d) ->
  is_Some (decodeURIComponent documentUri) ->
  exists r, completion (getHoverData this documentUri position) = Normal r.
Proof.
  intros Hstore Htargets [u Hu]. unfold getHoverData. rewrite Hu. simpl.
  unfold hoverBody.
  destruct (JSMap.get _ _) as [d|] eqn:Hg; [|eauto].
  apply JSMap_get_elem in Hg. pose proof (Hstore _ _ Hg) as Hd.
  destruct (findContains d) as [c|] eqn:Hc; [|eauto].
  destruct (findContains_inVs d c Hd Hc) as [rangeIds ->].
  by apply hoverRanges_total; [|eapply Htargets].
Qed.

Lemma hover_never_throws_witness :
  exists r,
    completion (getHoverData scenarioBackend "file:///a"
                  {| line := 1; character := 3 |}) = Normal r.
Proof.
  refine (hover_never_throws scenarioBackend "file:///a"
            {| line := 1; character := 3 |} _ _ _).
  - intros key d Hin. apply list_elem_of_singleton in Hin. injection Hin as -> ->.
    split; repeat constructor; simpl; try discriminate; try (by eexists);
      try (intros [?|?]; discriminate); try (intros ?; discriminate);
      try (intros _; by repeat eexists).
  - intros key d Hin. apply list_elem_of_singleton in Hin. injection Hin as -> ->.
    intros e He Hl. simpl in He.
    repeat (apply elem_of_cons in He as [->|He]; [try discriminate|]).
    + eexists. split; [reflexivity|]. by repeat eexists.
    + by apply elem_of_nil in He.
  - by eexists.
Defined.

(** ** What a load stores *)

Lemma JSMap_set_elem {K V} `{EqDecision K} (k k0 : K) (v v0 : V) (m : list (K * V)) :
  (k0, v0) ∈ JSMap.set k v m -> (k0, v0) = (k, v) \/ (k0, v0) ∈ m.
Proof.
  induction m as [|[k' v'] m IH]; simpl.
  - intros ->%list_elem_of_singleton. by left.
  - destruct (decide (k = k')) as [->|Hne].
    + intros [->|Hin]%elem_of_cons; [by left|]. right. by apply list_elem_of_further.
    + intros [->|Hin]%elem_of_cons; [right; apply list_elem_of_here|].
      destruct (IH Hin) as [?|?]; [by left|]. right. by apply list_elem_of_further.
Qed.

Lemma JSMap_delete_elem {K V} `{EqDecision K} (k : K) (entry : K * V) (m : list (K * V)) :
  entry ∈ JSMap.delete k m -> entry ∈ m.
Proof.
  induction m as [|[k' v'] m IH]; simpl; [done|].
  destruct (decide (k = k')) as [->|Hne].
  - apply list_elem_of_further.
  - intros [->|Hin]%elem_of_cons; [apply list_elem_of_here|].
    by apply list_elem_of_further, IH.
Qed.

Section StoredRecords.
Variables Pv Pe : Element -> Prop.

Lemma allStored_set key d' this :
  allStored Pv Pe this ->
  Forall Pv (vertices d') -> Forall Pe (edges d') ->
  allStored Pv Pe (setDocuments (JSMap.set key d' (documents (database this))) this).
Proof.
  intros Hall Hv He key0 d0 Hin. simpl in Hin.
  apply JSMap_set_elem in Hin as [[= -> ->]|Hin]; [done|by eapply Hall].
Qed.

Lemma pushInto_vertex_stored key obj this c this' :
  allStored Pv Pe this -> Pv obj ->
  pushInto key (pushVertex obj) this = (c, this') -> allStored Pv Pe this'.
Proof.
  intros Hall Hobj. unfold pushInto.
  destruct (JSMap.get key _) as [d|] eqn:Hg; intros [= <- <-]; [|done].
  apply JSMap_get_elem in Hg. destruct (Hall _ _ Hg) as [Hv He].
  apply allStored_set; simpl; [done| |done].
  apply Forall_app. split; [done|by apply Forall_singleton].
Qed.

Lemma pushInto_edge_stored key obj this c this' :
  allStored Pv Pe this -> Pe obj ->
  pushInto key (pushEdge obj) this = (c, this') -> allStored Pv Pe this'.
Proof.
  intros Hall Hobj. unfold pushInto.
  destruct (JSMap.get key _) as [d|] eqn:Hg; intros [= <- <-]; [|done].
  apply JSMap_get_elem in Hg. destruct (Hall _ _ Hg) as [Hv He].
  apply allStored_set; simpl; [done|done|].
  apply Forall_app. split; [done|by apply Forall_singleton].
Qed.

Lemma allStored_fresh key this :
  allStored Pv Pe this ->
  allStored Pv Pe
    (setDocuments (JSMap.set key emptyDocumentData (documents (database this))) this).
Proof. intros Hall. apply allStored_set; [done| |]; constructor. Qed.

Lemma ingestLine_stored ln this c this' :
  allStored Pv Pe this ->
  (forall obj, ln = JSONobject obj ->
     (type obj = Some "vertex" -> Pv obj) /\ (type obj = Some "edge" -> Pe obj)) ->
  ingestLine ln this = (c, this') -> allStored Pv Pe this'.
Proof.
  intros Hall Hln. destruct ln as [| | |obj]; simpl; try by intros [= <- <-].
  destruct (Hln obj eq_refl) as [Hv He].
  assert (allStored Pv Pe (openDocument obj this)) as Hall1.
  { unfold openDocument. destruct (isDocumentVertex obj); [|done]. simpl.
    destruct (JSMap.has _ _); [done|].
    intros key d Hin. simpl in Hin.
    apply JSMap_set_elem in Hin as [[= -> ->]|Hin]; [split; constructor|by eapply Hall]. }
  destruct (appendUnderCursor obj _) as [c1 this1] eqn:Ha.
  assert (allStored Pv Pe this1) as Hall2.
  { revert Ha. unfold appendUnderCursor. destruct (truthy _); [|by intros [= <- <-]].
    destruct (type obj === Some "vertex") eqn:Htv.
    { apply pushInto_vertex_stored; [done|]. apply Hv. by apply strictEq_true in Htv. }
    destruct (type obj === Some "edge") eqn:Hte.
    { apply pushInto_edge_stored; [done|]. apply He. by apply strictEq_true in Hte. }
    by intros [= <- <-]. }
  destruct c1; intros [= <- <-]; [|done].
  unfold closeDocument. destruct (isContainsEdge obj); [|done]. simpl.
  destruct (JSMap.has _ _); [done|].
  by apply (allStored_fresh _ (setCursor unsorted this1)).
Qed.

Lemma forEach_stored lines : forall this c this',
  allStored Pv Pe this ->
  (forall obj, JSONobject obj ∈ lines ->
     (type obj = Some "vertex" -> Pv obj) /\ (type obj = Some "edge" -> Pe obj)) ->
  forEach lines this = (c, this') -> allStored Pv Pe this'.
Proof.
  induction lines as [|ln lines IH]; simpl; intros this c this' Hall Hlines.
  - by intros [= <- <-].
  - assert (allStored Pv Pe (snd (ingestLine ln this))) as Hall1.
    { destruct (ingestLine ln this) as [c1 this1] eqn:Hl.
      eapply ingestLine_stored; [done| |exact Hl].
      intros obj ->. apply Hlines, list_elem_of_here. }
    destruct (ingestLine ln this) as [[[]|e] this1]; simpl in Hall1.
    + apply IH; [done|]. intros obj Hin. by apply Hlines, list_elem_of_further.
    + by intros [= <- <-].
Qed.

Lemma unsortedEdges_stored this e :
  allStored Pv Pe this -> e ∈ unsortedEdges this -> Pe e.
Proof.
  intros Hall. unfold unsortedEdges.
  destruct (JSMap.get unsorted _) as [u|] eqn:Hg; [|by intros ?%elem_of_nil].
  apply JSMap_get_elem in Hg. destruct (Hall _ _ Hg) as [_ He].
  rewrite Forall_forall in He. apply He.
Qed.

Lemma unsortedVertices_stored this v :
  allStored Pv Pe this -> v ∈ unsortedVertices this -> Pv v.
Proof.
  intros Hall. unfold unsortedVertices.
  destruct (JSMap.get unsorted _) as [u|] eqn:Hg; [|by intros ?%elem_of_nil].
  apply JSMap_get_elem in Hg. destruct (Hall _ _ Hg) as [Hv _].
  rewrite Forall_forall in Hv. apply Hv.
Qed.

Lemma findIdMinus_elem k e arr x : findIdMinus k e arr = Some x -> x ∈ arr.
Proof.
  unfold findIdMinus. destruct (id e); [|discriminate].
  intros [Hin _]%find_some. by apply list_elem_of_In.
Qed.

Lemma repairEdge_stored edge this c this' :
  allStored Pv Pe this -> Pe edge ->
  repairEdge edge this = (c, this') -> allStored Pv Pe this'.
Proof.
  intros Hall Hedge. unfold repairEdge.
  destruct (_ && _); [|by intros [= <- <-]].
  destruct (truthy _); [|by intros [= <- <-]].
  destruct (pushInto _ (pushEdge edge) this) as [c1 this1] eqn:H1.
  assert (allStored Pv Pe this1) as Hall1 by (by eapply pushInto_edge_stored).
  destruct c1; [|by intros [= <- <-]].
  destruct (match findIdMinus 1 edge (unsortedEdges this1) with
            | Some e1 => _ | None => _ end) as [c2 this2] eqn:H2.
  assert (allStored Pv Pe this2) as Hall2.
  { destruct (findIdMinus 1 edge _) as [e1|] eqn:Hf; [|by injection H2 as <- <-].
    eapply pushInto_edge_stored; [exact Hall1| |exact H2].
    eapply unsortedEdges_stored; [exact Hall1|]. by eapply findIdMinus_elem. }
  destruct c2; [|by intros [= <- <-]].
  destruct (findIdMinus 2 edge _) as [v2|] eqn:Hf; [|by intros [= <- <-]].
  apply pushInto_vertex_stored; [done|].
  eapply unsortedVertices_stored; [exact Hall2|]. by eapply findIdMinus_elem.
Qed.

Lemma repairLoop_stored fuel : forall i this c this',
  allStored Pv Pe this ->
  repairLoop fuel i this = Some (c, this') -> allStored Pv Pe this'.
Proof.
  induction fuel as [|fuel IH]; simpl; intros i this c this' Hall; [discriminate|].
  destruct (unsortedEdges this !! i) as [edge|] eqn:Hi; [|by intros [= <- <-]].
  assert (Pe edge) as Hedge.
  { eapply unsortedEdges_stored; [done|]. by eapply list_elem_of_lookup_2. }
  destruct (repairEdge edge this) as [c1 this1] eqn:Hr.
  assert (allStored Pv Pe this1) as Hall1 by (by eapply repairEdge_stored).
  destruct c1; [by apply IH|by intros [= <- <-]].
Qed.

Lemma load_stored fuel lines this c this' :
  allStored Pv Pe this ->
  (forall obj, JSONobject obj ∈ lines ->
     (type obj = Some "vertex" -> Pv obj) /\ (type obj = Some "edge" -> Pe obj)) ->
  load fuel lines this = Some (c, this') -> allStored Pv Pe this'.
Proof.
  intros Hall Hlines. unfold load.
  destruct (forEach _ this) as [c1 this1] eqn:Hf.
  assert (allStored Pv Pe this1) as Hall1.
  { eapply forEach_stored; [done| |exact Hf].
    intros obj Hin. apply Hlines.
    apply list_elem_of_In, filter_In in Hin as [Hin _]. by apply list_elem_of_In. }
  destruct c1; [|by intros [= <- <-]].
  unfold repair. destruct (JSMap.get unsorted _); [|by intros [= <- <-]].
  destruct (repairLoop fuel 0 this1) as [[c2 this2]|] eqn:Hl; [|discriminate].
  assert (allStored Pv Pe this2) as Hall2 by (by eapply repairLoop_stored).
  destruct c2; intros [= <- <-]; [|done].
  intros key d0 Hin. simpl in Hin. apply JSMap_delete_elem in Hin. by eapply Hall2.
Qed.
End StoredRecords.

(** X7. Whatever a load leaves in the shards was there before or comes
    from the file: a vertex of a shard after the load was a vertex of a
    shard before it, or is an object of the file whose type is vertex; an
    edge likewise.  A load stores no record without its type and puts no
    vertex among the edges. *)
Theorem load_stores_records_of_the_file fuel lines this c this' :
  load fuel lines this = Some (c, this') ->
  (forall v, storedVertex this' v ->
     storedVertex this v \/ (JSONobject v ∈ lines /\ type v = Some "vertex"))
  /\ (forall e, storedEdge this' e ->
     storedEdge this e \/ (JSONobject e ∈ lines /\ type e = Some "edge")).
Proof.
  intros Hload.
  pose proof (load_stored
    (fun v => storedVertex this v \/ (JSONobject v ∈ lines /\ type v = Some "vertex"))
    (fun e => storedEdge this e \/ (JSONobject e ∈ lines /\ type e = Some "edge"))
    fuel lines this c this') as Hinv.
  assert (allStored
    (fun v => storedVertex this v \/ (JSONobject v ∈ lines /\ type v = Some "vertex"))
    (fun e => storedEdge this e \/ (JSONobject e ∈ lines /\ type e = Some "edge"))
    this') as Hall.
  { apply Hinv; [| |done].
    - intros key d Hin. split; apply Forall_forall; intros x Hx; left; by exists key, d.
    - intros obj Hin. split; intros Ht; right; done. }
  split; intros x (key & d & Hin & Hx); destruct (Hall key d Hin) as [Hv He].
  - rewrite Forall_forall in Hv. by apply Hv.
  - rewrite Forall_forall in He. by apply He.
Qed.

Lemma load_stores_records_of_the_file_witness :
  (forall v, storedVertex scenarioBackend v ->
     storedVertex newBackend v \/ (JSONobject v ∈ scenario /\ type v = Some "vertex"))
  /\ (forall e, storedEdge scenarioBackend e ->
     storedEdge newBackend e \/ (JSONobject e ∈ scenario /\ type e = Some "edge")).
Proof.
  exact (load_stores_records_of_the_file 8 scenario newBackend (Normal ())
           scenarioBackend eq_refl).
Defined.

(** ** When a load throws *)

Lemma readyStore_new : readyStore newBackend.
Proof. split; [apply wellFormedStore_new|]. intros Ht. discriminate. Qed.

Lemma openDocument_cursor obj this :
  cursorHasShard this -> cursorHasShard (openDocument obj this).
Proof.
  intros Hc. unfold openDocument. destruct (isDocumentVertex obj); [|done]. simpl.
  unfold JSMap.has. destruct (JSMap.get (uri obj) _) eqn:Hg; simpl.
  - intros _. simpl. rewrite Hg. by eexists.
  - intros _. simpl. rewrite JSMap_get_set_eq. by eexists.
Qed.

Lemma closeDocument_cursor obj this :
  cursorHasShard this -> cursorHasShard (closeDocument obj this).
Proof.
  intros Hc. unfold closeDocument. destruct (isContainsEdge obj); [|done]. simpl.
  unfold JSMap.has. destruct (JSMap.get unsorted _) eqn:Hg; simpl.
  - intros _. simpl. rewrite Hg. by eexists.
  - intros _. simpl. rewrite JSMap_get_set_eq. by eexists.
Qed.

Lemma pushInto_cursor key f this c this' :
  cursorHasShard this -> pushInto key f this = (c, this') -> cursorHasShard this'.
Proof.
  intros Hc. unfold pushInto. destruct (JSMap.get key _); intros [= <- <-]; [|done].
  intros Ht. simpl. apply JSMap_set_is_Some. by apply Hc.
Qed.

Lemma appendUnderCursor_normal obj this :
  cursorHasShard this ->
  exists this', appendUnderCursor obj this = (Normal (), this') /\ cursorHasShard this'.
Proof.
  intros Hc. unfold appendUnderCursor.
  destruct (truthy (currentDocumentUri this)) eqn:Ht; [|eauto].
  destruct (Hc Ht) as [d Hd].
  destruct (type obj === Some "vertex").
  { rewrite (pushInto_present _ _ _ d Hd). eexists. split; [done|].
    eapply pushInto_cursor; [exact Hc|]. by apply pushInto_present. }
  destruct (type obj === Some "edge"); [|eauto].
  rewrite (pushInto_present _ _ _ d Hd). eexists. split; [done|].
  eapply pushInto_cursor; [exact Hc|]. by apply pushInto_present.
Qed.

Lemma ingestLine_object obj this :
  cursorHasShard this ->
  exists this', ingestLine (JSONobject obj) this = (Normal (), this')
                /\ cursorHasShard this'.
Proof.
  intros Hc. simpl.
  destruct (appendUnderCursor_normal obj _ (openDocument_cursor obj this Hc))
    as (this1 & -> & Hc1).
  eexists. split; [done|]. by apply closeDocument_cursor.
Qed.

Lemma forEach_throws lines : forall this e this',
  readyStore this -> forEach lines this = (Throw e, this') ->
  (e = SyntaxError /\ (NotJSON ∈ lines \/ Blank ∈ lines))
  \/ (e = TypeError /\ JSONnull ∈ lines).
Proof.
  induction lines as [|ln lines IH]; simpl; intros this e this' [Hw Hc]; [discriminate|].
  destruct ln as [| | |obj].
  - intros [= <- <-]. left. split; [done|]. right. apply list_elem_of_here.
  - intros [= <- <-]. left. split; [done|]. left. apply list_elem_of_here.
  - intros [= <- <-]. right. split; [done|]. apply list_elem_of_here.
  - destruct (ingestLine_object obj this Hc) as (this1 & Hl & Hc1).
    rewrite Hl. intros Hf.
    assert (readyStore this1) as Hr1.
    { split; [|done]. eapply ingestLine_wellFormed; [exact Hw|exact Hl]. }
    destruct (IH _ _ _ Hr1 Hf) as [[-> [?|?]]|[-> ?]].
    + left. split; [done|]. left. by apply list_elem_of_further.
    + left. split; [done|]. right. by apply list_elem_of_further.
    + right. split; [done|]. by apply list_elem_of_further.
Qed.

Lemma forEach_ready lines : forall this c this',
  readyStore this -> forEach lines this = (c, this') -> wellFormedStore this'.
Proof. intros this c this' [Hw _]. by apply forEach_wellFormed. Qed.

Lemma repairEdge_normal edge this :
  wellFormedStore this ->
  exists this', repairEdge edge this = (Normal (), this') /\ wellFormedStore this'.
Proof.
  intros Hw. unfold repairEdge.
  destruct (_ && _); [|eauto].
  destruct (truthy (uriOfId this (shard edge))) eqn:Ht; [|eauto].
  apply truthy_inv in Ht as (u & Hu & _). rewrite Hu.
  assert (is_Some (JSMap.get (Some u) (documents (database this)))) as [d Hd].
  { destruct Hw as [_ Hv]. apply (Hv (shard edge)).
    unfold uriOfId in Hu. by destruct (_ !! _) as [t|]; [subst t|]. }
  rewrite (pushInto_present _ _ _ d Hd).
  set (this1 := setDocuments _ this).
  assert (wellFormedStore this1) as Hw1 by (by apply wellFormedStore_set).
  assert (forall s, wellFormedStore s ->
            is_Some (JSMap.get (Some u) (documents (database s))) ->
            forall f, exists s', pushInto (Some u) f s = (Normal (), s')
                                 /\ wellFormedStore s'
                                 /\ is_Some (JSMap.get (Some u) (documents (database s'))))
    as Hpush.
  { intros s Hs [ds Hds] f. rewrite (pushInto_present _ _ _ ds Hds).
    eexists. split; [done|]. split; [by apply wellFormedStore_set|].
    simpl. rewrite JSMap_get_set_eq. by eexists. }
  assert (is_Some (JSMap.get (Some u) (documents (database this1)))) as Hs1.
  { simpl. rewrite JSMap_get_set_eq. by eexists. }
  assert (exists this2,
    match findIdMinus 1 edge (unsortedEdges this1) with
    | Some e1 => pushInto (Some u) (pushEdge e1) this1
    | None => (Normal (), this1)
    end = (Normal (), this2)
    /\ wellFormedStore this2
    /\ is_Some (JSMap.get (Some u) (documents (database this2))))
    as (this2 & -> & Hw2 & Hs2).
  { destruct (findIdMinus 1 edge _); [by apply Hpush|eauto]. }
  destruct (findIdMinus 2 edge _); [|eauto].
  destruct (Hpush this2 Hw2 Hs2 (pushVertex e)) as (this3 & -> & Hw3 & _). eauto.
Qed.

Lemma repairLoop_normal fuel : forall i this c this',
  wellFormedStore this -> repairLoop fuel i this = Some (c, this') ->
  c = Normal () /\ wellFormedStore this'.
Proof.
  induction fuel as [|fuel IH]; simpl; intros i this c this' Hw; [discriminate|].
  destruct (unsortedEdges this !! i) as [edge|]; [|by intros [= <- <-]].
  destruct (repairEdge_normal edge this Hw) as (this1 & -> & Hw1). by apply IH.
Qed.

Lemma pushInto_throws key f this e this' :
  pushInto key f this = (Throw e, this') -> e = TypeError.
Proof. unfold pushInto. destruct (JSMap.get key _); by intros [= <- <-]. Qed.

Lemma ingestLine_throws ln this e this' :
  ingestLine ln this = (Throw e, this') ->
  (e = SyntaxError /\ (ln = NotJSON \/ ln = Blank)) \/ e = TypeError.
Proof.
  destruct ln as [| | |obj]; cbn [ingestLine].
  - intros [= <- <-]. left. split; [done|by right].
  - intros [= <- <-]. left. split; [done|by left].
  - intros [= <- <-]. by right.
  - destruct (appendUnderCursor obj (openDocument obj this)) as [[[]|e1] this1] eqn:Ha;
      [discriminate|].
    intros [= <- <-]. right. unfold appendUnderCursor in Ha.
    destruct (truthy _); [|discriminate].
    destruct (type obj === Some "vertex"); [by eapply pushInto_throws|].
    destruct (type obj === Some "edge"); [by eapply pushInto_throws|discriminate].
Qed.

Lemma forEach_throws_kind lines : forall this e this',
  forEach lines this = (Throw e, this') ->
  (e = SyntaxError /\ (NotJSON ∈ lines \/ Blank ∈ lines)) \/ e = TypeError.
Proof.
  induction lines as [|ln lines IH]; cbn [forEach]; intros this e this'; [discriminate|].
  destruct (ingestLine ln this) as [[[]|e1] this1] eqn:Hl.
  - intros Hf. destruct (IH _ _ _ Hf) as [[-> [?|?]]| ->]; [| |by right].
    + left. split; [done|]. left. by apply list_elem_of_further.
    + left. split; [done|]. right. by apply list_elem_of_further.
  - intros [= <- <-]. destruct (ingestLine_throws _ _ _ _ Hl) as [[-> [-> | ->]]| ->].
    + left. split; [done|]. left. apply list_elem_of_here.
    + left. split; [done|]. right. apply list_elem_of_here.
    + by right.
Qed.

Lemma cursorHasShard_dec this : cursorHasShard this \/ ~ cursorHasShard this.
Proof.
  unfold cursorHasShard. destruct (truthy (currentDocumentUri this)); [|by left].
  destruct (JSMap.get _ _) as [d|].
  - left. intros _. by eexists.
  - right. intros Hc. by destruct (Hc eq_refl).
Qed.

(** X8. What [load(filePath)] can throw.  On a backend whose map of
    documents has distinct keys and holds a shard for every uri of the
    id-to-uri map (a new backend is such), a load throws only: the error
    of the read, when the file cannot be read; a SyntaxError, for a line of
    the file that is not JSON; or a TypeError, for a line that is [null]
    or, when the backend came with its cursor on a uri that has no shard
    (as a completed load leaves it when its last contains edge put the
    cursor on the unassigned shard), for a record pushed under that
    cursor.  The repair pass throws nothing, and no record, whatever
    fields it has or lacks, makes a load throw when the cursor it starts
    from is unset or names a shard. *)
Theorem load_throws_only_for_a_line fuel fs filePath this e this' :
  wellFormedStore this ->
  loadFile fuel fs filePath this = Some (Throw e, this') ->
  (e = PlainError /\ fs filePath = None)
  \/ exists lines,
       fs filePath = Some lines
       /\ ((e = SyntaxError /\ NotJSON ∈ lines)
           \/ (e = TypeError /\ (JSONnull ∈ lines \/ ~ cursorHasShard this))).
Proof.
  intros Hw. unfold loadFile. destruct (fs filePath) as [lines|]; [|intros [= <- <-]; by left].
  intros Hl. right. exists lines. split; [done|]. revert Hl. unfold load.
  destruct (forEach _ this) as [[[]|e1] this1] eqn:Hf.
  - pose proof (forEach_wellFormed _ _ _ _ Hw Hf) as Hw1.
    unfold repair. destruct (JSMap.get unsorted _); [|discriminate].
    destruct (repairLoop fuel 0 this1) as [[c2 this2]|] eqn:Hl; [|discriminate].
    destruct (repairLoop_normal _ _ _ _ _ Hw1 Hl) as [-> _]. discriminate.
  - intros [= <- <-].
    destruct (forEach_throws_kind _ _ _ _ Hf) as [[-> [Hin|Hin]]| ->].
    + left. split; [done|].
      apply list_elem_of_In, filter_In in Hin as [Hin _]. by apply list_elem_of_In.
    + apply list_elem_of_In, filter_In in Hin as [_ Hb]. discriminate.
    + right. split; [done|].
      destruct (cursorHasShard_dec this) as [Hc|Hc]; [|by right].
      left. destruct (forEach_throws _ _ _ _ (conj Hw Hc) Hf) as [[[=] _]|[_ Hin]].
      apply list_elem_of_In, filter_In in Hin as [Hin _]. by apply list_elem_of_In.
Qed.

Lemma load_throws_only_for_a_line_witness :
  (SyntaxError = PlainError
   /\ (fun _ : string => Some [JSONobject (documentVertex 1 "file:///a"); NotJSON])
        "index.lsif" = None)
  \/ exists lines,
       (fun _ : string => Some [JSONobject (documentVertex 1 "file:///a"); NotJSON])
         "index.lsif" = Some lines
       /\ ((SyntaxError = SyntaxError /\ NotJSON ∈ lines)
           \/ (SyntaxError = TypeError
               /\ (JSONnull ∈ lines \/ ~ cursorHasShard newBackend))).
Proof.
  exact (load_throws_only_for_a_line 0
           (fun _ => Some [JSONobject (documentVertex 1 "file:///a"); NotJSON])
           "index.lsif" newBackend SyntaxError _ wellFormedStore_new eq_refl).
Defined.

(** ** A second load, and a loop that does not end *)

Lemma JSMap_get_delete_eq {K V} `{EqDecision K} (k : K) (m : list (K * V)) :
  NoDup (map fst m) -> JSMap.get k (JSMap.delete k m) = None.
Proof.
  induction m as [|[k' v'] m IH]; simpl; [done|].
  intros [Hnot Hnd]%NoDup_cons.
  destruct (decide (k = k')) as [->|Hne]; simpl.
  - destruct (JSMap.get k' m) eqn:Hg; [|done].
    apply JSMap_get_elem in Hg. exfalso. apply Hnot.
    apply list_elem_of_fmap. by exists (k', v).
  - rewrite decide_False by done. by apply IH.
Qed.

Lemma load_leaves_no_unsorted fuel lines this this' :
  wellFormedStore this ->
  load fuel lines this = Some (Normal (), this') ->
  JSMap.get unsorted (documents (database this')) = None.
Proof.
  intros Hw. unfold load.
  destruct (forEach _ this) as [[[]|e1] this1] eqn:Hf; [|discriminate].
  pose proof (forEach_wellFormed _ _ _ _ Hw Hf) as Hw1.
  unfold repair. destruct (JSMap.get unsorted _) eqn:Hg; [|by intros [= <-]].
  destruct (repairLoop fuel 0 this1) as [[c2 this2]|] eqn:Hl; [|discriminate].
  destruct (repairLoop_normal _ _ _ _ _ Hw1 Hl) as [-> [Hk _]].
  intros [= <-]. simpl. by apply JSMap_get_delete_eq.
Qed.

(** X9. The cursor outlives a load.  When a load completes with the cursor
    on the unassigned shard, as after a file whose last document ends with
    its contains edge, the shard is discarded and the cursor is left on it:
    a next load whose first line is a vertex or an edge other than a
    document vertex throws a TypeError at that line and changes nothing. *)
Theorem reload_under_stale_cursor fuel lines this this1 fuel' obj rest :
  wellFormedStore this ->
  load fuel lines this = Some (Normal (), this1) ->
  currentDocumentUri this1 = unsorted ->
  isDocumentVertex obj = false ->
  type obj = Some "vertex" \/ type obj = Some "edge" ->
  load fuel' (JSONobject obj :: rest) this1 = Some (Throw TypeError, this1).
Proof.
  intros Hw Hload Hcur Hdoc Htype.
  pose proof (load_leaves_no_unsorted _ _ _ _ Hw Hload) as Hnone.
  unfold load. cbn [List.filter isBlank negb forEach].
  assert (ingestLine (JSONobject obj) this1 = (Throw TypeError, this1)) as ->; [|done].
  simpl. unfold openDocument, appendUnderCursor. rewrite Hdoc, Hcur.
  assert (truthy unsorted = true) as -> by done.
  unfold pushInto. rewrite Hnone.
  destruct Htype as [->| ->]; done.
Qed.

Lemma reload_under_stale_cursor_witness :
  load 0 withMetaData
    {| database :=
         {| documents :=
              [(Some "file:///a",
                {| vertices := [documentVertex 1 "file:///a"; rangeVertex 2 1 1 1 5];
                   edges := [containsEdge 3 1 [2]] |})];
            vertexIdToDocument := {[ Some 1 := Some "file:///a" ]} |};
       currentDocumentUri := unsorted |}
  = Some (Throw TypeError,
          {| database :=
               {| documents :=
                    [(Some "file:///a",
                      {| vertices := [documentVertex 1 "file:///a"; rangeVertex 2 1 1 1 5];
                         edges := [containsEdge 3 1 [2]] |})];
                  vertexIdToDocument := {[ Some 1 := Some "file:///a" ]} |};
             currentDocumentUri := unsorted |}).
Proof.
  exact (reload_under_stale_cursor 5 withMetaData newBackend _ 0
           (vertex 0 "metaData") _ wellFormedStore_new eq_refl eq_refl eq_refl
           (or_introl eq_refl)).
Defined.

Lemma pushInto_unsorted key f this c this' :
  (forall d, edges d `prefix_of` edges (f d)) ->
  pushInto key f this = (c, this') ->
  unsortedEdges this `prefix_of` unsortedEdges this'
  /\ vertexIdToDocument (database this') = vertexIdToDocument (database this).
Proof.
  intros Hf. unfold pushInto.
  destruct (JSMap.get key _) as [d|] eqn:Hg; intros [= <- <-]; [|done].
  split; [|done]. unfold unsortedEdges. simpl.
  destruct (decide (unsorted = key)) as [<-|Hne].
  - rewrite JSMap_get_set_eq, Hg. apply Hf.
  - by rewrite JSMap_get_set_ne.
Qed.

Lemma repairEdge_unsorted edge this c this' :
  repairEdge edge this = (c, this') ->
  unsortedEdges this `prefix_of` unsortedEdges this'
  /\ vertexIdToDocument (database this') = vertexIdToDocument (database this).
Proof.
  assert (forall obj d, edges d `prefix_of` edges (pushEdge obj d)) as Hpe.
  { intros obj d. simpl. by apply prefix_app_r. }
  assert (forall obj d, edges d `prefix_of` edges (pushVertex obj d)) as Hpv by done.
  unfold repairEdge.
  destruct (_ && _); [|by intros [= <- <-]].
  destruct (truthy _); [|by intros [= <- <-]].
  destruct (pushInto _ (pushEdge edge) this) as [c1 this1] eqn:H1.
  destruct (pushInto_unsorted _ _ _ _ _ (Hpe edge) H1) as [P1 V1].
  destruct c1; [|by intros [= <- <-]].
  destruct (match findIdMinus 1 edge (unsortedEdges this1) with
            | Some e1 => _ | None => _ end) as [c2 this2] eqn:H2.
  assert (unsortedEdges this1 `prefix_of` unsortedEdges this2
          /\ vertexIdToDocument (database this2) = vertexIdToDocument (database this1))
    as [P2 V2].
  { destruct (findIdMinus 1 edge _) as [e1|]; [|by injection H2 as <- <-].
    by eapply pushInto_unsorted; [apply Hpe|exact H2]. }
  assert (unsortedEdges this `prefix_of` unsortedEdges this2) as P12 by (by etrans).
  destruct c2; [|intros [= <- <-]; split; [done|congruence]].
  destruct (findIdMinus 2 edge _) as [v2|];
    [|intros [= <- <-]; split; [done|congruence]].
  intros H3. destruct (pushInto_unsorted _ _ _ _ _ (Hpv v2) H3) as [P3 V3].
  split; [by etrans|congruence].
Qed.

Lemma target_same_map this this' e :
  vertexIdToDocument (database this') = vertexIdToDocument (database this) ->
  target this' e = target this e.
Proof. intros Hv. unfold target, uriOfId. by rewrite Hv. Qed.

(** A turn on an edge that resolves to the unassigned shard puts the edge
    at the end of the array being read. *)
Lemma repairEdge_onto_itself edge this this' :
  target this edge = Some "unsorted" ->
  repairEdge edge this = (Normal (), this') ->
  unsortedEdges this' !! length (unsortedEdges this) = Some edge.
Proof.
  intros Ht. unfold target in Ht. unfold repairEdge.
  destruct (_ && _); [|discriminate].
  destruct (truthy _); [|discriminate]. rewrite Ht.
  unfold pushInto at 1.
  destruct (JSMap.get (Some "unsorted") _) as [d|] eqn:Hg; [|discriminate].
  set (this1 := setDocuments _ this).
  assert (unsortedEdges this = edges d) as Hd.
  { unfold unsortedEdges, unsorted. by rewrite Hg. }
  assert (unsortedEdges this1 = (edges d ++ [edge])%list) as H1.
  { unfold unsortedEdges, unsorted, this1. simpl. by rewrite JSMap_get_set_eq. }
  assert (forall s, (edges d ++ [edge])%list `prefix_of` unsortedEdges s ->
            unsortedEdges s !! length (unsortedEdges this) = Some edge) as Hlook.
  { intros s Hp. eapply prefix_lookup_Some; [|exact Hp].
    rewrite Hd. by apply list_lookup_middle. }
  assert (forall obj d0, edges d0 `prefix_of` edges (pushEdge obj d0)) as Hpe.
  { intros obj d0. simpl. by apply prefix_app_r. }
  assert (forall obj d0, edges d0 `prefix_of` edges (pushVertex obj d0)) as Hpv by done.
  destruct (match findIdMinus 1 edge (unsortedEdges this1) with
            | Some e1 => _ | None => _ end) as [c2 this2] eqn:H2.
  assert (unsortedEdges this1 `prefix_of` unsortedEdges this2) as P2.
  { destruct (findIdMinus 1 edge (unsortedEdges this1)) as [e1|];
      [|by injection H2 as <- <-].
    by eapply pushInto_unsorted; [apply Hpe|exact H2]. }
  destruct c2; [|discriminate].
  destruct (findIdMinus 2 edge _) as [v2|].
  - intros H3. apply Hlook. rewrite <- H1. etrans; [exact P2|].
    by eapply pushInto_unsorted; [apply Hpv|exact H3].
  - intros [= <-]. apply Hlook. by rewrite <- H1.
Qed.

Lemma repairLoop_never_ends fuel : forall i this k e,
  wellFormedStore this ->
  (i <= k)%nat -> unsortedEdges this !! k = Some e ->
  target this e = Some "unsorted" ->
  repairLoop fuel i this = None.
Proof.
  induction fuel as [|fuel IH]; intros i this k e Hw Hik Hk Ht; [done|].
  cbn [repairLoop].
  destruct (unsortedEdges this !! i) as [edge|] eqn:Hi.
  2:{ apply lookup_ge_None in Hi. apply lookup_lt_Some in Hk. lia. }
  destruct (repairEdge_normal edge this Hw) as (this1 & Hr & Hw1). rewrite Hr.
  destruct (repairEdge_unsorted _ _ _ _ Hr) as [Hp Hv].
  destruct (decide (i = k)) as [->|Hne].
  - assert (edge = e) as -> by congruence.
    apply (IH _ _ (length (unsortedEdges this)) e); [done| | |].
    + apply lookup_lt_Some in Hk. lia.
    + by apply repairEdge_onto_itself.
    + by rewrite (target_same_map this this1).
  - apply (IH _ _ k e); [done|lia| |].
    + by eapply prefix_lookup_Some.
    + by rewrite (target_same_map this this1).
Qed.

(** X10. The loop of the repair pass reads the array it iterates as it
    grows.  When, after the lines are ingested, an edge of the unassigned
    shard resolves to the unassigned shard itself (a document is named
    "unsorted"), every turn on it pushes it onto the array being read: the
    loop does not end and no amount of fuel brings the load to a
    completion. *)
Theorem load_never_ends_when_an_edge_resolves_to_unsorted fuel lines this this1 e :
  wellFormedStore this ->
  forEach (nonBlank lines) this = (Normal (), this1) ->
  e ∈ unsortedEdges this1 -> target this1 e = Some "unsorted" ->
  load fuel lines this = None.
Proof.
  intros Hw Hf Hin Ht. unfold load. fold (nonBlank lines). rewrite Hf.
  pose proof (forEach_wellFormed _ _ _ _ Hw Hf) as Hw1.
  apply list_elem_of_lookup in Hin as [k Hk].
  unfold repair.
  destruct (JSMap.get unsorted (documents (database this1))) eqn:Hg.
  - by rewrite (repairLoop_never_ends fuel 0 this1 k e) by (done || lia).
  - unfold unsortedEdges in Hk. by rewrite Hg in Hk.
Qed.

Lemma load_never_ends_when_an_edge_resolves_to_unsorted_witness :
  load 1000 namedUnsorted newBackend = None.
Proof.
  refine (load_never_ends_when_an_edge_resolves_to_unsorted 1000 namedUnsorted
            newBackend (namedUnsortedAfter 1)
            (itemEdge 5 4 [2] "references" (Some 1)) wellFormedStore_new eq_refl _ eq_refl).
  apply list_elem_of_here.
Defined.

(** ** What the answers rest on *)

Section HoverSound.
Variable d : DocumentData.

Lemma hoverViaNext_sound edge es text :
  es ⊆ edges d ->
  hoverViaNext d edge es = Normal (Some text) ->
  exists edge2 h,
    edge2 ∈ edges d /\ label edge2 = Some "textDocument/hover"
    /\ outV edge2 = inV edge
    /\ List.find (fun vertex => id vertex === inV edge2) (vertices d) = Some h
    /\ label h = Some "hoverResult" /\ joinContents (Some h) = Normal text.
Proof.
  induction es as [|edge2 rest IH]; cbn [hoverViaNext]; intros Hsub; [discriminate|].
  assert (edge2 ∈ edges d) as Hin by (apply Hsub, list_elem_of_here).
  assert (rest ⊆ edges d) as Hrest
    by (intros x Hx; by apply Hsub, list_elem_of_further).
  destruct (_ && _) eqn:Hc; [|by apply IH].
  destruct (List.find _ _) as [h|] eqn:Hf; [|by apply IH].
  destruct (label h === Some "hoverResult") eqn:Hl; [|by apply IH].
  intros H. apply bind_Normal_inv in H as (t & Ht & [= ->]).
  apply andb_prop in Hc as [Hl2%strictEq_true Ho%strictEq_true].
  apply strictEq_true in Hl. exists edge2, h. done.
Qed.

Lemma hoverEdges_sound range es text :
  es ⊆ edges d ->
  hoverEdges d range es = Normal (Some text) ->
  exists h, hoverChain d range h /\ joinContents (Some h) = Normal text.
Proof.
  induction es as [|edge rest IH]; cbn [hoverEdges]; intros Hsub; [discriminate|].
  assert (edge ∈ edges d) as Hin by (apply Hsub, list_elem_of_here).
  assert (rest ⊆ edges d) as Hrest
    by (intros x Hx; by apply Hsub, list_elem_of_further).
  destruct (_ && _) eqn:Hc.
  - intros H. apply bind_Normal_inv in H as ([t|] & Hv & H); [|by apply IH].
    injection H as ->.
    apply hoverViaNext_sound in Hv as (edge2 & h & ? & ? & ? & ? & ? & ?); [|done].
    apply andb_prop in Hc as [Hl%strictEq_true Ho%strictEq_true].
    exists h. split; [|done]. left. exists edge, edge2. done.
  - destruct ((label edge === Some "textDocument/hover") && _) eqn:Hc2;
      [|by apply IH].
    intros H. apply bind_Normal_inv in H as (t & Ht & [= ->]).
    apply andb_prop in Hc2 as [Hl%strictEq_true Ho%strictEq_true].
    destruct (List.find _ _) as [h|] eqn:Hf; [|discriminate].
    exists h. split; [|done]. right. exists edge. done.
Qed.

Lemma hoverRanges_sound position rangeIds text :
  hoverRanges d position rangeIds = Normal (Some text) ->
  exists rangeId range h,
    rangeId ∈ rangeIds /\ rangeOf d rangeId = Some range
    /\ withinRange position range = Normal true
    /\ hoverChain d range h /\ joinContents (Some h) = Normal text.
Proof.
  induction rangeIds as [|rangeId rest IH]; cbn [hoverRanges]; [discriminate|].
  assert (hoverRanges d position rest = Normal (Some text) ->
          exists rangeId0 range h,
            rangeId0 ∈ rangeId :: rest /\ rangeOf d rangeId0 = Some range
            /\ withinRange position range = Normal true
            /\ hoverChain d range h /\ joinContents (Some h) = Normal text) as Hrest.
  { intros H. destruct (IH H) as (i & r & h & Hi & ?). exists i, r, h.
    split; [by apply list_elem_of_further|done]. }
  destruct (List.find _ _) as [range|] eqn:Hf; [|done].
  destruct (label range === Some "range") eqn:Hl; [|done].
  intros H. apply bind_Normal_inv in H as ([] & Hw & H); [|by apply Hrest].
  apply bind_Normal_inv in H as ([t|] & He & H); [|by apply Hrest].
  injection H as ->.
  apply hoverEdges_sound in He as (h & Hch & Hj); [|done].
  exists rangeId, range, h. split; [apply list_elem_of_here|].
  split; [|done]. unfold rangeOf. by rewrite Hf, Hl.
Qed.
Lemma hoverViaNext_none edge es edge2 h :
  hoverViaNext d edge es = Normal None ->
  edge2 ∈ es -> label edge2 = Some "textDocument/hover" -> outV edge2 = inV edge ->
  List.find (fun vertex => id vertex === inV edge2) (vertices d) = Some h ->
  label h = Some "hoverResult" -> False.
Proof.
  intros Hnone Hin Hl Ho Hf Hh.
  induction es as [|e rest IH]; [by apply elem_of_nil in Hin|].
  cbn [hoverViaNext] in Hnone.
  apply elem_of_cons in Hin as [<-|Hin].
  - rewrite Hl, Ho, Hf, Hh in Hnone.
    assert ((Some "textDocument/hover" === Some "textDocument/hover") = true) as Ht
      by done.
    assert ((inV edge === inV edge) = true) as Hi by (by apply bool_decide_eq_true_2).
    assert ((Some "hoverResult" === Some "hoverResult") = true) as Hr by done.
    rewrite Ht, Hi, Hr in Hnone. cbn [andb] in Hnone.
    destruct (joinContents (Some h)); simpl in Hnone; discriminate.
  - apply IH; [|done].
    destruct (_ && _); [|done].
    destruct (List.find _ _) as [h'|]; [|done].
    destruct (label h' === Some "hoverResult"); [|done].
    destruct (joinContents (Some h')); simpl in Hnone; discriminate.
Qed.

Lemma hoverEdges_none range es h :
  hoverEdges d range es = Normal None ->
  ~ ((exists edge edge2,
        edge ∈ es /\ label edge = Some "next" /\ outV edge = id range
        /\ edge2 ∈ edges d /\ label edge2 = Some "textDocument/hover"
        /\ outV edge2 = inV edge
        /\ List.find (fun vertex => id vertex === inV edge2) (vertices d) = Some h
        /\ label h = Some "hoverResult")
     \/ (exists edge,
        edge ∈ es /\ label edge = Some "textDocument/hover"
        /\ outV edge = id range
        /\ List.find (fun vertex => id vertex === inV edge) (vertices d) = Some h)).
Proof.
  induction es as [|e rest IH]; intros Hnone.
  - intros [(edge & ? & Hin & _)|(edge & Hin & _)]; by apply elem_of_nil in Hin.
  - cbn [hoverEdges] in Hnone.
    destruct ((label e === Some "next") && (outV e === id range)) eqn:Hc.
    + apply bind_Normal_inv in Hnone as ([t|] & Hv & Hnone); [discriminate|].
      intros [(edge & edge2 & Hin & Hl & Ho & Hin2 & Hl2 & Ho2 & Hf & Hh)
             |(edge & Hin & Hl & Ho & Hf)].
      * apply elem_of_cons in Hin as [->|Hin].
        -- by eapply (hoverViaNext_none e (edges d) edge2 h).
        -- apply (IH Hnone). left. exists edge, edge2. done.
      * apply elem_of_cons in Hin as [->|Hin].
        -- apply andb_prop in Hc as [Hn%strictEq_true _]. congruence.
        -- apply (IH Hnone). right. exists edge. done.
    + destruct ((label e === Some "textDocument/hover") && (outV e === id range)) eqn:Hc2.
      * apply bind_Normal_inv in Hnone as (t & _ & [=]).
      * intros [(edge & edge2 & Hin & Hl & Ho & Hin2 & Hl2 & Ho2 & Hf & Hh)
               |(edge & Hin & Hl & Ho & Hf)].
        -- apply elem_of_cons in Hin as [->|Hin].
           ++ rewrite Hl, Ho in Hc.
              assert ((id range === id range) = true) as Hi
                by (by apply bool_decide_eq_true_2).
              rewrite Hi in Hc. by vm_compute in Hc.
           ++ apply (IH Hnone). left. exists edge, edge2. done.
        -- apply elem_of_cons in Hin as [->|Hin].
           ++ rewrite Hl, Ho in Hc2.
              assert ((id range === id range) = true) as Hi
                by (by apply bool_decide_eq_true_2).
              rewrite Hi in Hc2. by vm_compute in Hc2.
           ++ apply (IH Hnone). right. exists edge. done.
Qed.

Lemma hoverRanges_none position rangeIds rangeId range h :
  hoverRanges d position rangeIds = Normal None ->
  rangeId ∈ rangeIds -> rangeOf d rangeId = Some range ->
  withinRange position range = Normal true ->
  ~ hoverChain d range h.
Proof.
  intros Hnone Hin Hr Hw.
  induction rangeIds as [|i rest IH]; [by apply elem_of_nil in Hin|].
  cbn [hoverRanges] in Hnone.
  apply elem_of_cons in Hin as [<-|Hin].
  - unfold rangeOf in Hr.
    destruct (List.find _ _) as [r|] eqn:Hf; [|discriminate].
    destruct (label r === Some "range"); [|discriminate].
    injection Hr as ->. rewrite Hw in Hnone. simpl in Hnone.
    apply bind_Normal_inv in Hnone as ([t|] & He & Hnone); [discriminate|].
    by apply hoverEdges_none.
  - apply IH; [|done].
    destruct (List.find _ _) as [r|]; [|done].
    destruct (label r === Some "range"); [|done].
    apply bind_Normal_inv in Hnone as ([] & _ & Hnone); [|done].
    by apply bind_Normal_inv in Hnone as ([t|] & _ & Hnone).
Qed.
End HoverSound.

Lemma hoverBody_spec this u position r :
  hoverBody this u position = Normal r ->
  match r with
  | Some text =>
      exists d range h,
        JSMap.get (Some u) (documents (database this)) = Some d
        /\ matchedRange d position range
        /\ hoverChain d range h
        /\ joinContents (Some h) = Normal text
  | None =>
      forall d range h,
        JSMap.get (Some u) (documents (database this)) = Some d ->
        matchedRange d position range ->
        ~ hoverChain d range h
  end.
Proof.
  unfold hoverBody.
  destruct (JSMap.get _ _) as [d|] eqn:Hg.
  2: { intros [= <-]. intros d range h [=]. }
  destruct (findContains d) as [c|] eqn:Hc.
  2: { intros [= <-]. intros d' range h [= <-] (c & ? & ? & Hc' & _). congruence. }
  destruct (inVs c) as [rangeIds|] eqn:Hi; [|discriminate].
  destruct r as [text|]; intros H.
  - apply hoverRanges_sound in H as (rangeId & range & h & ? & ? & ? & ? & ?).
    exists d, range, h. split; [done|]. split; [|done].
    exists c, rangeIds, rangeId. done.
  - intros d' range h [= <-] (c' & ids & rangeId & Hc' & Hi' & Hin & Hr & Hw).
    rewrite Hc in Hc'. injection Hc' as <-. rewrite Hi in Hi'. injection Hi' as <-.
    by eapply hoverRanges_none.
Qed.


(** X11. What a hover answer rests on.  When [getHoverData] returns a
    text, the shard of the decoded URI has a contains edge that names a
    range vertex of the shard with the converted position within its
    bounds, a chain of the shard leads from that range to a vertex (by a
    next edge and a hover edge to a hoverResult, or by a direct hover
    edge), and the text is the contents of that vertex joined by newlines.
    When it returns none, the shard of the decoded URI, if there is one,
    has no such chain from any range that holds the position. *)
Theorem hover_answers_from_the_index this documentUri u position r :
  decodeURIComponent documentUri = Some u ->
  completion (getHoverData this documentUri position) = Normal r ->
  match r with
  | Some text =>
      exists d range h,
        JSMap.get (Some u) (documents (database this)) = Some d
        /\ matchedRange d (bump position) range
        /\ hoverChain d range h
        /\ joinContents (Some h) = Normal text
  | None =>
      forall d range h,
        JSMap.get (Some u) (documents (database this)) = Some d ->
        matchedRange d (bump position) range ->
        ~ hoverChain d range h
  end.
Proof.
  intros Hu. unfold getHoverData. rewrite Hu. simpl. apply hoverBody_spec.
Qed.

Lemma hover_answers_from_the_index_witness :
  exists d range h,
    JSMap.get (Some "file:///a") (documents (database scenarioBackend)) = Some d
    /\ matchedRange d (bump {| line := 1; character := 3 |}) range
    /\ hoverChain d range h
    /\ joinContents (Some h) = Normal "x".
Proof.
  exact (hover_answers_from_the_index scenarioBackend "file:///a" "file:///a"
           {| line := 1; character := 3 |} (Some "x") eq_refl eq_refl).
Defined.

Lemma strictEq_intro {A} `{EqDecision A} (a b : A) : a = b -> (a === b) = true.
Proof. apply bool_decide_eq_true_2. Qed.

Section ReferencesSound.
Context {host : Host}.
Variable this : LSIFBackend.
Variable u : string.
Variable referenceResult : Element.

Lemma collectReferenceEdges_itemEdgeOf :
  Forall (itemEdgeOf this referenceResult) (collectReferenceEdges this referenceResult).
Proof.
  apply Forall_forall. intros e He. apply list_elem_of_In in He.
  unfold collectReferenceEdges in He. apply in_flat_map in He as ([k d] & Hkd & He).
  apply filter_In in He as [He Hc]. simpl in He.
  apply andb_prop in Hc as [Hc Hp]. apply andb_prop in Hc as [Hl Ho].
  apply strictEq_true in Hl, Ho, Hp.
  split; [|done]. exists k, d. split; by apply list_elem_of_In.
Qed.

Lemma referenceRanges_sound itemEdge allIds d rangeIds locations locations' :
  itemEdgeOf this referenceResult itemEdge -> inVs itemEdge = Some allIds ->
  JSMap.get (orElse (uriOfId this (shard itemEdge)) (Some u))
            (documents (database this)) = Some d ->
  rangeIds ⊆ allIds ->
  Forall (referenceOf this u referenceResult) locations ->
  referenceRanges (orElse (uriOfId this (shard itemEdge)) (Some u)) d rangeIds locations
    = Normal locations' ->
  Forall (referenceOf this u referenceResult) locations'.
Proof.
  intros (Hs & Hl & Ho & Hp) Hi Hg.
  revert locations. induction rangeIds as [|rangeId rest IH]; intros locations Hsub Hall;
    cbn [referenceRanges]; [by intros [= <-]|].
  assert (rest ⊆ allIds) as Hrest
    by (intros x Hx; by apply Hsub, list_elem_of_further).
  destruct (List.find _ _) as [v|] eqn:Hf; [|by apply IH].
  intros H. apply bind_Normal_inv in H as (location & Hloc & H).
  apply IH in H; [done|done|].
  apply Forall_app. split; [done|]. apply Forall_singleton.
  apply toLocation_locatedAt in Hloc.
  exists itemEdge, allIds, rangeId, d, v.
  split_and!; try done. apply Hsub, list_elem_of_here.
Qed.

Lemma referenceLocations_sound itemEdges locations locations' :
  Forall (itemEdgeOf this referenceResult) itemEdges ->
  Forall (referenceOf this u referenceResult) locations ->
  referenceLocations this u itemEdges locations = Normal locations' ->
  Forall (referenceOf this u referenceResult) locations'.
Proof.
  revert locations. induction itemEdges as [|itemEdge rest IH];
    intros locations Hedges Hall; cbn [referenceLocations]; [by intros [= <-]|].
  apply Forall_cons in Hedges as [He Hrest].
  destruct (JSMap.get _ _) as [d|] eqn:Hg; [|by apply IH].
  destruct (inVs itemEdge) as [rangeIds|] eqn:Hi; [|discriminate].
  intros H. apply bind_Normal_inv in H as (locations1 & H1 & H).
  apply IH in H; [done|done|].
  by eapply referenceRanges_sound.
Qed.
End ReferencesSound.

Section ReferencesComplete.
Context {host : Host}.
Variable this : LSIFBackend.
Variable u : string.

Lemma collectReferenceEdges_complete referenceResult itemEdge :
  itemEdgeOf this referenceResult itemEdge ->
  itemEdge ∈ collectReferenceEdges this referenceResult.
Proof.
  intros ((k & d & Hkd & He) & Hl & Ho & Hp).
  apply list_elem_of_In. unfold collectReferenceEdges. apply in_flat_map.
  exists (k, d). split; [by apply list_elem_of_In|].
  apply filter_In. split; [by apply list_elem_of_In|].
  rewrite Hl, Ho, Hp. by rewrite !strictEq_intro.
Qed.

Lemma referenceRanges_complete targetDocumentUri d rangeIds locations locations' :
  referenceRanges targetDocumentUri d rangeIds locations = Normal locations' ->
  locations ⊆ locations'
  /\ forall rangeId v location,
       rangeId ∈ rangeIds ->
       List.find (fun vertex => (id vertex === Some rangeId)
                                && (label vertex === Some "range"))
                 (vertices d) = Some v ->
       locatedAt targetDocumentUri v location ->
       location ∈ locations'.
Proof.
  revert locations. induction rangeIds as [|i rest IH]; intros locations;
    cbn [referenceRanges].
  - intros [= <-]. split; [done|]. intros ??? Hin. by apply elem_of_nil in Hin.
  - destruct (List.find _ _) as [r|] eqn:Hf.
    + intros H. apply bind_Normal_inv in H as (location & Hloc & H).
      destruct (IH _ H) as [Hsub Hhit]. split.
      * intros x Hx. apply Hsub, elem_of_app. by left.
      * intros rangeId v location' [->|Hin]%elem_of_cons Hf' Hl'.
        -- rewrite Hf in Hf'. injection Hf' as <-.
           apply toLocation_locatedAt in Hl'. rewrite Hloc in Hl'.
           injection Hl' as <-. apply Hsub, elem_of_app. right. apply list_elem_of_here.
        -- by eapply Hhit.
    + intros H0. destruct (IH _ H0) as [Hsub Hhit]. split; [done|].
      intros rangeId v location' [->|Hin]%elem_of_cons Hf' Hl'.
      * congruence.
      * by eapply Hhit.
Qed.

Lemma referenceLocations_complete itemEdges locations locations' :
  referenceLocations this u itemEdges locations = Normal locations' ->
  locations ⊆ locations'
  /\ forall itemEdge rangeIds rangeId d v location,
       itemEdge ∈ itemEdges -> inVs itemEdge = Some rangeIds -> rangeId ∈ rangeIds ->
       JSMap.get (orElse (uriOfId this (shard itemEdge)) (Some u))
                 (documents (database this)) = Some d ->
       List.find (fun vertex => (id vertex === Some rangeId)
                                && (label vertex === Some "range"))
                 (vertices d) = Some v ->
       locatedAt (orElse (uriOfId this (shard itemEdge)) (Some u)) v location ->
       location ∈ locations'.
Proof.
  revert locations. induction itemEdges as [|e rest IH]; intros locations;
    cbn [referenceLocations].
  - intros [= <-]. split; [done|]. intros ?????? Hin. by apply elem_of_nil in Hin.
  - destruct (JSMap.get _ _) as [d0|] eqn:Hg.
    + destruct (inVs e) as [ids|] eqn:Hi; [|discriminate].
      intros H0. apply bind_Normal_inv in H0 as (mid & Hmid & H0).
      apply referenceRanges_complete in Hmid as [Hsub Hhit].
      destruct (IH _ H0) as [Hsub' Hhit']. split.
      * intros x Hx. by apply Hsub', Hsub.
      * intros itemEdge rangeIds rangeId d v location
          [->|Hin]%elem_of_cons Hi' Hr Hg' Hf Hl.
        -- rewrite Hi in Hi'. injection Hi' as <-.
           rewrite Hg in Hg'. injection Hg' as <-.
           apply Hsub'. by eapply Hhit.
        -- by eapply Hhit'.
    + intros H0. destruct (IH _ H0) as [Hsub' Hhit']. split; [done|].
      intros itemEdge rangeIds rangeId d v location
        [->|Hin]%elem_of_cons Hi' Hr Hg' Hf Hl.
      * congruence.
      * by eapply Hhit'.
Qed.
End ReferencesComplete.

Lemma referencesBody_spec {host : Host} this u position locations :
  referencesBody this u position = Normal (Some locations) ->
  exists d containsEdge rangeIds rangeVertex referenceResult,
    JSMap.get (Some u) (documents (database this)) = Some d
    /\ findContains d = Some containsEdge /\ inVs containsEdge = Some rangeIds
    /\ findRange d position rangeIds = Normal (Some rangeVertex)
    /\ referenceChain d rangeVertex referenceResult
    /\ locations <> []
    /\ forall location,
         location ∈ locations <-> referenceOf this u referenceResult location.
Proof.
  unfold referencesBody.
  destruct (JSMap.get _ _) as [d|] eqn:Hg; [|discriminate].
  destruct (findContains d) as [c|] eqn:Hc; [|discriminate].
  destruct (inVs c) as [rangeIds|] eqn:Hi; [|discriminate].
  intros H. apply bind_Normal_inv in H as ([rangeVertex|] & Hr & H); [|discriminate].
  destruct (List.find _ (edges d)) as [resultSetEdge|] eqn:H1; [|discriminate].
  destruct (List.find _ (vertices d)) as [resultSetVertex|] eqn:H2; [|discriminate].
  destruct (List.find _ (edges d)) as [referenceEdge|] eqn:H3 in H; [|discriminate].
  destruct (List.find _ (vertices d)) as [referenceResult|] eqn:H4 in H; [|discriminate].
  pose proof (collectReferenceEdges_itemEdgeOf this referenceResult) as Hedges.
  pose proof (collectReferenceEdges_complete this referenceResult) as Hall.
  destruct (collectReferenceEdges this referenceResult) as [|e0 es] eqn:Hcoll;
    [discriminate|].
  apply bind_Normal_inv in H as (locs & Hlocs & H).
  pose proof Hlocs as Hsound.
  apply (referenceLocations_sound this u referenceResult) in Hsound;
    [|done|by apply Forall_nil].
  apply referenceLocations_complete in Hlocs as [_ Hhit].
  destruct locs as [|l0 ls]; [discriminate|]. injection H as <-.
  apply find_elem in H1 as [? [?%strictEq_true ?%strictEq_true]%andb_prop].
  apply find_elem in H2 as [? [?%strictEq_true ?%strictEq_true]%andb_prop].
  apply find_elem in H3 as [? [?%strictEq_true ?%strictEq_true]%andb_prop].
  apply find_elem in H4 as [? [?%strictEq_true ?%strictEq_true]%andb_prop].
  exists d, c, rangeIds, rangeVertex, referenceResult.
  split; [done|]. split; [done|]. split; [done|]. split; [done|].
  split; [exists resultSetEdge, resultSetVertex, referenceEdge; done|].
  split; [done|].
  intros location. split.
  - rewrite Forall_forall in Hsound. apply Hsound.
  - intros (itemEdge & ids & rangeId & d' & v & Hs & Hl & Ho & Hp & Hi' & Hin
            & Hg' & Hf & Hloc).
    eapply Hhit; [|done..]. apply Hall. done.
Qed.

Lemma referencesBody_none {host : Host} this u position :
  referencesBody this u position = Normal None ->
  forall d containsEdge rangeIds rangeVertex referenceResult,
    JSMap.get (Some u) (documents (database this)) = Some d ->
    findContains d = Some containsEdge -> inVs containsEdge = Some rangeIds ->
    findRange d position rangeIds = Normal (Some rangeVertex) ->
    referenceResultOf d rangeVertex = Some referenceResult ->
    forall location, ~ referenceOf this u referenceResult location.
Proof.
  unfold referencesBody, referenceResultOf.
  intros H d c rangeIds rangeVertex referenceResult Hg Hc Hi Hf Hch location.
  rewrite Hg, Hc, Hi, Hf in H. cbn [mbind Completion_bind] in H.
  destruct (List.find _ (edges d)) as [resultSetEdge|]; [|discriminate].
  cbn [mbind option_bind] in Hch.
  destruct (List.find _ (vertices d)) as [resultSetVertex|]; [|discriminate].
  cbn [mbind option_bind] in Hch.
  destruct (List.find _ (edges d)) as [referenceEdge|]; [|discriminate].
  cbn [mbind option_bind] in Hch. rewrite Hch in H.
  pose proof (collectReferenceEdges_complete this referenceResult) as Hall.
  intros (itemEdge & ids & rangeId & d' & v & Hs & Hl & Ho & Hp & Hi' & Hin
          & Hg' & Hfv & Hloc).
  assert (itemEdge ∈ collectReferenceEdges this referenceResult) as Hmem
    by (by apply Hall).
  destruct (collectReferenceEdges this referenceResult) as [|e0 es] eqn:Hcoll;
    [by apply elem_of_nil in Hmem|].
  apply bind_Normal_inv in H as (locs & Hlocs & H).
  apply referenceLocations_complete in Hlocs as [_ Hhit].
  destruct locs as [|l0 ls]; [|discriminate].
  eapply elem_of_nil, Hhit; done.
Qed.

(** X12. The locations of the reference resolver are those of the index.
    When [getReferencesData] returns locations, the shard of the decoded
    URI has a contains edge, the range found for the converted position
    leads through a next edge, a resultSet vertex and a
    textDocument/references edge to a referenceResult vertex, all of that
    shard; the list is not empty; and a location is in the list exactly
    when an item edge of some shard with property references out of that
    referenceResult names an id, the document that the edge's [shard]
    resolves to (or else the document of the query) has a shard, and the
    location is that of the first range vertex with this id in that
    shard, under the uri of that document.
    A location of a vertex under a uri is the one [locatedAt] gives:
    [Uri.parse] accepts the uri and its value is the Uri of the location,
    the bounds of the vertex are at least 1 on line and character, and the
    range of the location has the two bounds with one subtracted from each
    line and character, the earlier bound first. *)
Theorem reference_locations_are_those_of_the_index {host : Host} this documentUri u position
    locations :
  decodeURIComponent documentUri = Some u ->
  completion (getReferencesData this documentUri position) = Normal (Some locations) ->
  exists d containsEdge rangeIds rangeVertex referenceResult,
    JSMap.get (Some u) (documents (database this)) = Some d
    /\ findContains d = Some containsEdge /\ inVs containsEdge = Some rangeIds
    /\ findRange d (bump position) rangeIds = Normal (Some rangeVertex)
    /\ referenceChain d rangeVertex referenceResult
    /\ locations <> []
    /\ forall location,
         location ∈ locations <-> referenceOf this u referenceResult location.
Proof.
  intros Hu. unfold getReferencesData. rewrite Hu. simpl. apply referencesBody_spec.
Qed.

Lemma reference_locations_are_those_of_the_index_witness :
  exists d containsEdge rangeIds rangeVertex referenceResult,
    JSMap.get (Some "file:///a") (documents (database crossReferenceBackend)) = Some d
    /\ findContains d = Some containsEdge /\ inVs containsEdge = Some rangeIds
    /\ findRange d (bump {| line := 0; character := 0 |}) rangeIds
         = Normal (Some rangeVertex)
    /\ referenceChain d rangeVertex referenceResult
    /\ [ {| vscode.uri := Some "file:///a";
            vscode.range := {| vscode.start := {| line := 0; character := 0 |};
                               vscode.end_ := {| line := 0; character := 4 |} |} |} ]
       <> []
    /\ forall location,
         location ∈
           [ {| vscode.uri := Some "file:///a";
                vscode.range := {| vscode.start := {| line := 0; character := 0 |};
                                   vscode.end_ := {| line := 0; character := 4 |} |} |} ]
         <-> referenceOf crossReferenceBackend "file:///a" referenceResult location.
Proof.
  exact (reference_locations_are_those_of_the_index crossReferenceBackend
           "file:///a" "file:///a" {| line := 0; character := 0 |} _ eq_refl eq_refl).
Defined.

Section DefinitionsSound.
Context {host : Host}.
Variable this : LSIFBackend.
Variable d : DocumentData.
Variable position : Position.

Lemma definedItems_sound range referenceItem targets docUri definitionData es
    locations locations' :
  matchedRange d position range ->
  referenceItem ∈ edges d -> label referenceItem = Some "item" ->
  inVs referenceItem = Some targets -> includes targets (id range) = true ->
  (docUri, definitionData) ∈ documents (database this) ->
  is_Some (findContains definitionData) ->
  es ⊆ edges definitionData ->
  Forall (definitionAt this d position) locations ->
  definedItems this docUri definitionData referenceItem es locations = Normal locations' ->
  Forall (definitionAt this d position) locations'.
Proof.
  intros Hm Hr Hl Hi Hinc Hdoc Hc.
  revert locations. induction es as [|definedItem rest IH]; intros locations Hsub Hall;
    cbn [definedItems]; [by intros [= <-]|].
  assert (definedItem ∈ edges definitionData) as Hin by (apply Hsub, list_elem_of_here).
  assert (rest ⊆ edges definitionData) as Hrest
    by (intros x Hx; by apply Hsub, list_elem_of_further).
  destruct (_ && _) eqn:Hcond; [|by apply IH].
  intros H. apply bind_Normal_inv in H as ([v|] & Hf & H); [|by apply IH in H].
  apply bind_Normal_inv in H as (location & Hloc & H).
  apply IH in H; [done|done|].
  apply Forall_app. split; [done|]. apply Forall_singleton.
  apply toLocation_locatedAt in Hloc.
  apply andb_prop in Hcond as [Hcond Hp]. apply andb_prop in Hcond as [Hl2 Ho].
  apply strictEq_true in Hl2, Ho, Hp.
  exists range. split; [done|].
  exists referenceItem, targets, docUri, definitionData, definedItem, v.
  done.
Qed.

Lemma definitionDocuments_sound range referenceItem targets docs locations locations' :
  matchedRange d position range ->
  referenceItem ∈ edges d -> label referenceItem = Some "item" ->
  inVs referenceItem = Some targets -> includes targets (id range) = true ->
  docs ⊆ documents (database this) ->
  Forall (definitionAt this d position) locations ->
  definitionDocuments this referenceItem docs locations = Normal locations' ->
  Forall (definitionAt this d position) locations'.
Proof.
  intros Hm Hr Hl Hi Hinc.
  revert locations. induction docs as [|[docUri definitionData] rest IH];
    intros locations Hsub Hall; cbn [definitionDocuments]; [by intros [= <-]|].
  assert ((docUri, definitionData) ∈ documents (database this)) as Hin
    by (apply Hsub, list_elem_of_here).
  assert (rest ⊆ documents (database this)) as Hrest
    by (intros x Hx; by apply Hsub, list_elem_of_further).
  destruct (findContains definitionData) as [c|] eqn:Hc; [|by apply IH].
  intros H. apply bind_Normal_inv in H as (locations1 & H1 & H).
  apply IH in H; [done|done|].
  eapply (definedItems_sound range referenceItem targets docUri definitionData);
    [done..| |done|exact Hall|exact H1].
  by rewrite Hc.
Qed.

Lemma referenceItems_sound range es locations locations' :
  matchedRange d position range ->
  es ⊆ edges d ->
  Forall (definitionAt this d position) locations ->
  referenceItems this range es locations = Normal locations' ->
  Forall (definitionAt this d position) locations'.
Proof.
  intros Hm.
  revert locations. induction es as [|referenceItem rest IH]; intros locations Hsub Hall;
    cbn [referenceItems]; [by intros [= <-]|].
  assert (referenceItem ∈ edges d) as Hin by (apply Hsub, list_elem_of_here).
  assert (rest ⊆ edges d) as Hrest
    by (intros x Hx; by apply Hsub, list_elem_of_further).
  destruct (_ && _) eqn:Hcond; [|by apply IH].
  intros H. apply bind_Normal_inv in H as (locations1 & H1 & H).
  apply IH in H; [done|done|].
  apply andb_prop in Hcond as [Hl%strictEq_true Hinc].
  destruct (inVs referenceItem) as [targets|] eqn:Hi; [|discriminate].
  by eapply (definitionDocuments_sound range referenceItem targets).
Qed.

Lemma definitionRanges_sound containsEdge allIds rangeIds locations locations' :
  findContains d = Some containsEdge -> inVs containsEdge = Some allIds ->
  rangeIds ⊆ allIds ->
  Forall (definitionAt this d position) locations ->
  definitionRanges this d position rangeIds locations = Normal locations' ->
  Forall (definitionAt this d position) locations'.
Proof.
  intros Hc Hi.
  revert locations. induction rangeIds as [|rangeId rest IH]; intros locations Hsub Hall;
    cbn [definitionRanges]; [by intros [= <-]|].
  assert (rest ⊆ allIds) as Hrest
    by (intros x Hx; by apply Hsub, list_elem_of_further).
  destruct (List.find _ _) as [range|] eqn:Hf; [|by apply IH].
  destruct (label range === Some "range") eqn:Hl; [|by apply IH].
  intros H. apply bind_Normal_inv in H as ([] & Hw & H); [|by apply IH in H].
  apply bind_Normal_inv in H as (locations1 & H1 & H).
  apply IH in H; [done|done|].
  eapply (referenceItems_sound range); [|done|exact Hall|exact H1].
  exists containsEdge, allIds, rangeId. repeat split; try done.
  - apply Hsub, list_elem_of_here.
  - unfold rangeOf. by rewrite Hf, Hl.
Qed.
End DefinitionsSound.

Section DefinitionsComplete.
Context {host : Host}.
Variable this : LSIFBackend.

Lemma definedItems_complete docUri definitionData referenceItem es locations locations' :
  definedItems this docUri definitionData referenceItem es locations = Normal locations' ->
  locations ⊆ locations'
  /\ forall definedItem v location,
       definedItem ∈ es -> label definedItem = Some "item" ->
       outV definedItem = outV referenceItem ->
       property definedItem = Some "definitions" ->
       findIncluded definedItem (vertices definitionData) = Normal (Some v) ->
       locatedAt (orElse (uriOfId this (shard definedItem)) docUri) v location ->
       location ∈ locations'.
Proof.
  revert locations. induction es as [|e rest IH]; intros locations; cbn [definedItems].
  - intros [= <-]. split; [done|]. intros ??? Hin. by apply elem_of_nil in Hin.
  - intros H.
    assert (exists mid, locations ⊆ mid
              /\ definedItems this docUri definitionData referenceItem rest mid
                 = Normal locations'
              /\ forall v location,
                   label e = Some "item" -> outV e = outV referenceItem ->
                   property e = Some "definitions" ->
                   findIncluded e (vertices definitionData) = Normal (Some v) ->
                   locatedAt (orElse (uriOfId this (shard e)) docUri) v location ->
                   location ∈ mid) as (mid & Hsub & Hrest & Hhit).
    { destruct (_ && _) eqn:Hcond.
      - apply bind_Normal_inv in H as ([v|] & Hf & H).
        + apply bind_Normal_inv in H as (location & Hloc & H).
          exists (locations ++ [location])%list. split; [|split; [done|]].
          * intros x Hx. apply elem_of_app. by left.
          * intros v' location' _ _ _ Hf' Hl'. rewrite Hf in Hf'.
            injection Hf' as <-. apply toLocation_locatedAt in Hl'.
            rewrite Hloc in Hl'. injection Hl' as <-.
            apply elem_of_app. right. apply list_elem_of_here.
        + exists locations. split; [done|split; [done|]].
          intros v' location' _ _ _ Hf'. congruence.
      - exists locations. split; [done|split; [done|]].
        intros v' location' Hl Ho Hp. rewrite Hl, Ho, Hp in Hcond.
        rewrite !strictEq_intro in Hcond by done. discriminate. }
    destruct (IH _ Hrest) as [Hsub' Hhit']. split.
    + intros x Hx. by apply Hsub', Hsub.
    + intros definedItem v location [->|Hin]%elem_of_cons ?????.
      * apply Hsub'. by eapply Hhit.
      * by eapply Hhit'.
Qed.

Lemma definitionDocuments_complete referenceItem docs locations locations' :
  definitionDocuments this referenceItem docs locations = Normal locations' ->
  locations ⊆ locations'
  /\ forall docUri definitionData definedItem v location,
       (docUri, definitionData) ∈ docs -> is_Some (findContains definitionData) ->
       definedItem ∈ edges definitionData -> label definedItem = Some "item" ->
       outV definedItem = outV referenceItem ->
       property definedItem = Some "definitions" ->
       findIncluded definedItem (vertices definitionData) = Normal (Some v) ->
       locatedAt (orElse (uriOfId this (shard definedItem)) docUri) v location ->
       location ∈ locations'.
Proof.
  revert locations. induction docs as [|[k dd] rest IH]; intros locations;
    cbn [definitionDocuments].
  - intros [= <-]. split; [done|]. intros ????? Hin. by apply elem_of_nil in Hin.
  - destruct (findContains dd) as [c|] eqn:Hc.
    + intros H. apply bind_Normal_inv in H as (mid & Hmid & H).
      apply definedItems_complete in Hmid as [Hsub Hhit].
      destruct (IH _ H) as [Hsub' Hhit']. split.
      * intros x Hx. by apply Hsub', Hsub.
      * intros docUri definitionData definedItem v location
          [[= -> ->]|Hin]%elem_of_cons ???????.
        -- apply Hsub'. by eapply Hhit.
        -- by eapply Hhit'.
    + intros H. destruct (IH _ H) as [Hsub' Hhit']. split; [done|].
      intros docUri definitionData definedItem v location
        [[= -> ->]|Hin]%elem_of_cons [c Hc'] ??????.
      * congruence.
      * eapply Hhit'; [done| |done..]. by exists c.
Qed.

Lemma referenceItems_complete d range es locations locations' :
  es ⊆ edges d ->
  referenceItems this range es locations = Normal locations' ->
  locations ⊆ locations'
  /\ forall referenceItem targets docUri definitionData definedItem v location,
       referenceItem ∈ es -> label referenceItem = Some "item" ->
       inVs referenceItem = Some targets -> includes targets (id range) = true ->
       (docUri, definitionData) ∈ documents (database this) ->
       is_Some (findContains definitionData) ->
       definedItem ∈ edges definitionData -> label definedItem = Some "item" ->
       outV definedItem = outV referenceItem ->
       property definedItem = Some "definitions" ->
       findIncluded definedItem (vertices definitionData) = Normal (Some v) ->
       locatedAt (orElse (uriOfId this (shard definedItem)) docUri) v location ->
       location ∈ locations'.
Proof.
  intros _. revert locations. induction es as [|e rest IH]; intros locations;
    cbn [referenceItems].
  - intros [= <-]. split; [done|]. intros ??????? Hin. by apply elem_of_nil in Hin.
  - destruct (_ && _) eqn:Hcond.
    + intros H. apply bind_Normal_inv in H as (mid & Hmid & H).
      apply definitionDocuments_complete in Hmid as [Hsub Hhit].
      destruct (IH _ H) as [Hsub' Hhit']. split.
      * intros x Hx. by apply Hsub', Hsub.
      * intros referenceItem targets docUri definitionData definedItem v location
          [->|Hin]%elem_of_cons ???????????.
        -- apply Hsub'. by eapply Hhit.
        -- by eapply Hhit'.
    + intros H. destruct (IH _ H) as [Hsub' Hhit']. split; [done|].
      intros referenceItem targets docUri definitionData definedItem v location
        [->|Hin]%elem_of_cons Hl Hi Hinc ????????.
      * rewrite Hl, Hi, Hinc in Hcond. rewrite strictEq_intro in Hcond by done.
        discriminate.
      * by eapply Hhit'.
Qed.

Lemma definitionRanges_complete d position rangeIds locations locations' :
  definitionRanges this d position rangeIds locations = Normal locations' ->
  locations ⊆ locations'
  /\ forall rangeId range location,
       rangeId ∈ rangeIds -> rangeOf d rangeId = Some range ->
       withinRange position range = Normal true ->
       definitionOf this d range location ->
       location ∈ locations'.
Proof.
  revert locations. induction rangeIds as [|i rest IH]; intros locations;
    cbn [definitionRanges].
  - intros [= <-]. split; [done|]. intros ??? Hin. by apply elem_of_nil in Hin.
  - intros H.
    assert (exists mid, locations ⊆ mid
              /\ definitionRanges this d position rest mid = Normal locations'
              /\ forall range location,
                   rangeOf d i = Some range ->
                   withinRange position range = Normal true ->
                   definitionOf this d range location -> location ∈ mid)
      as (mid & Hsub & Hrest & Hhit).
    { unfold rangeOf.
      destruct (List.find _ _) as [r|] eqn:Hf.
      2: { exists locations. split; [done|split; [done|]]. intros ?? [=]. }
      destruct (label r === Some "range") eqn:Hl.
      2: { exists locations. split; [done|split; [done|]]. intros ?? [=]. }
      apply bind_Normal_inv in H as ([] & Hw & H).
      2: { exists locations. split; [done|split; [done|]].
           intros ?? [= <-] Hw'. congruence. }
      apply bind_Normal_inv in H as (mid & Hmid & H).
      apply (referenceItems_complete d) in Hmid as [Hsub Hhit]; [|done].
      exists mid. split; [done|split; [done|]].
      intros range location [= <-] _
        (referenceItem & targets & docUri & dd & definedItem & v
         & ? & ? & ? & ? & ? & ? & ? & ? & ? & ? & ? & ? & ?).
      by eapply Hhit. }
    destruct (IH _ Hrest) as [Hsub' Hhit']. split.
    + intros x Hx. by apply Hsub', Hsub.
    + intros rangeId range location [->|Hin]%elem_of_cons ???.
      * apply Hsub'. by eapply Hhit.
      * by eapply Hhit'.
Qed.
End DefinitionsComplete.

Lemma definitionBody_spec {host : Host} this u position r :
  definitionBody this u position = Normal r ->
  r <> Some []
  /\ forall location,
       location ∈ answered r
       <-> exists d, JSMap.get (Some u) (documents (database this)) = Some d
                     /\ definitionAt this d position location.
Proof.
  unfold definitionBody.
  destruct (JSMap.get _ _) as [d|] eqn:Hg.
  2: { intros [= <-]. split; [done|]. intros location. simpl. split.
       - intros Hin. by apply elem_of_nil in Hin.
       - intros (d & [=] & _). }
  destruct (findContains d) as [c|] eqn:Hc.
  2: { intros [= <-]. split; [done|]. intros location. simpl. split.
       - intros Hin. by apply elem_of_nil in Hin.
       - intros (d' & [= <-] & range & (c & ? & ? & Hc' & _) & _). congruence. }
  destruct (inVs c) as [rangeIds|] eqn:Hi; [|discriminate].
  intros H. apply bind_Normal_inv in H as (locs & Hlocs & H).
  injection H as <-.
  assert (answered (nonEmpty locs) = locs) as -> by (by destruct locs).
  split; [by destruct locs|].
  intros location. split.
  - intros Hin.
    apply (definitionRanges_sound this d position c rangeIds) in Hlocs;
      [|done|done|done|by apply Forall_nil].
    rewrite Forall_forall in Hlocs. exists d. split; [done|]. by apply Hlocs.
  - intros (d' & [= <-] & range & (c' & ids & rangeId & Hc' & Hi' & Hin & Hr & Hw) & Hdef).
    rewrite Hc in Hc'. injection Hc' as <-. rewrite Hi in Hi'. injection Hi' as <-.
    apply definitionRanges_complete in Hlocs as [_ Hhit]. by eapply Hhit.
Qed.


(** X13. The locations of the definition resolver are those of the index.
    When [getDefinitionData] completes, it never answers with an empty
    list, and a location is in its answer exactly when the shard of the
    decoded URI has a range vertex that holds the converted position and is
    named by the shard's contains edge, an item edge of that shard names
    the range, and an item edge with property definitions out of the same
    vertex sits in some shard that has a contains edge: the location is
    that of the first vertex of that shard whose id the definitions edge
    names, and its document is the one the edge's [shard] resolves to or
    else the key of that shard.
    A location of a vertex under a uri is the one [locatedAt] gives:
    [Uri.parse] accepts the uri and its value is the Uri of the location,
    the bounds of the vertex are at least 1 on line and character, and the
    range of the location has the two bounds with one subtracted from each
    line and character, the earlier bound first. *)
Theorem definition_locations_are_those_of_the_index {host : Host} this documentUri u
    position r :
  decodeURIComponent documentUri = Some u ->
  completion (getDefinitionData this documentUri position) = Normal r ->
  r <> Some []
  /\ forall location,
       location ∈ answered r
       <-> exists d, JSMap.get (Some u) (documents (database this)) = Some d
                     /\ definitionAt this d (bump position) location.
Proof.
  intros Hu. unfold getDefinitionData. rewrite Hu. simpl. apply definitionBody_spec.
Qed.

Lemma definition_locations_are_those_of_the_index_witness :
  Some [ {| vscode.uri := Some "file:///a";
            vscode.range := {| vscode.start := {| line := 2; character := 0 |};
                               vscode.end_ := {| line := 2; character := 4 |} |} |} ]
    <> Some []
  /\ forall location,
       location ∈ answered
         (Some [ {| vscode.uri := Some "file:///a";
                    vscode.range :=
                      {| vscode.start := {| line := 2; character := 0 |};
                         vscode.end_ := {| line := 2; character := 4 |} |} |} ])
       <-> exists d,
             JSMap.get (Some "file:///a") (documents (database crossReferenceBackend))
               = Some d
             /\ definitionAt crossReferenceBackend d
                  (bump {| line := 0; character := 0 |}) location.
Proof.
  exact (definition_locations_are_those_of_the_index crossReferenceBackend
           "file:///a" "file:///a" {| line := 0; character := 0 |} _ eq_refl eq_refl).
Defined.

(** ** Coordinates (C1) and the position argument (C10) *)

Lemma withinRange_holds position range :
  withinRange (bump position) range = Normal true <-> holds range position.
Proof.
  split.
  - intros Hw.
    assert (exists s e, start range = Some s /\ end_ range = Some e) as (s & e & Hs & He).
    { unfold withinRange in Hw.
      destruct (start range) as [s|]; [|discriminate].
      destruct (_ <=? _); [|discriminate].
      destruct (end_ range) as [e|]; [|discriminate]. eauto. }
    exists s, e. split; [done|]. split; [done|].
    by apply (withinRange_bump position range s e Hs He).
  - intros (s & e & Hs & He & Hl & Hc).
    by apply (withinRange_bump position range s e Hs He).
Qed.

Lemma matchedRange_holds d position range :
  matchedRange d (bump position) range <-> namedRange d range /\ holds range position.
Proof.
  unfold matchedRange, namedRange. split.
  - intros (c & ids & i & ? & ? & ? & ? & Hw). apply withinRange_holds in Hw.
    split; [|done]. exists c, ids, i. done.
  - intros [(c & ids & i & ? & ? & ? & ?) Hh]. apply withinRange_holds in Hh.
    exists c, ids, i. done.
Qed.

Lemma findRange_matched d position containsEdge rangeIds range :
  findContains d = Some containsEdge -> inVs containsEdge = Some rangeIds ->
  findRange d position rangeIds = Normal (Some range) ->
  matchedRange d position range.
Proof.
  intros Hc Hi.
  cut (forall ids, ids ⊆ rangeIds ->
         findRange d position ids = Normal (Some range) ->
         exists i, i ∈ rangeIds /\ rangeOf d i = Some range
                   /\ withinRange position range = Normal true).
  { intros Hcut Hf. destruct (Hcut rangeIds) as (i & ? & ? & ?); [done|done|].
    exists containsEdge, rangeIds, i. done. }
  induction ids as [|i rest IH]; intros Hsub; cbn [findRange]; [discriminate|].
  assert (rest ⊆ rangeIds) as Hrest
    by (intros x Hx; by apply Hsub, list_elem_of_further).
  destruct (List.find _ _) as [r|] eqn:Hf; [|by apply IH].
  destruct (label r === Some "range") eqn:Hl; [|by apply IH].
  intros H. apply bind_Normal_inv in H as ([] & Hw & H); [|by apply IH].
  injection H as <-. exists i. split; [apply Hsub, list_elem_of_here|].
  split; [|done]. unfold rangeOf. by rewrite Hf, Hl.
Qed.





(** ** The definition resolver on typed records *)

Lemma findIncluded_find definedItem targets vs :
  inVs definedItem = Some targets ->
  findIncluded definedItem vs
    = Normal (List.find (fun vertex => includes targets (id vertex)) vs).
Proof. intros Hi. unfold findIncluded. rewrite Hi. by destruct vs. Qed.

Section DefinitionsTotal.
Context {host : Host}.
Variable this : LSIFBackend.
Hypothesis Hstore : wellTypedStore this.
Hypothesis Htargets :
  forall key d, (key, d) ∈ documents (database this) -> definitionTargetsAreRanges d.
Hypothesis Hone : oneBasedStore this.
Hypothesis Hkeys : shardKeysAccepted this.
Hypothesis Huris : documentUrisAccepted this.

Lemma definitionDocUri_accepted definedItem docUri definitionData :
  (docUri, definitionData) ∈ documents (database this) ->
  accepted (orElse (uriOfId this (shard definedItem)) docUri).
Proof.
  intros Hdoc. unfold orElse, uriOfId.
  destruct (vertexIdToDocument (database this) !! shard definedItem) as [u|] eqn:Hu.
  - destruct (truthy u); [by eapply Huris|by eapply Hkeys].
  - simpl. by eapply Hkeys.
Qed.

Lemma definedItems_total docUri definitionData referenceItem es locations :
  (docUri, definitionData) ∈ documents (database this) ->
  es ⊆ edges definitionData ->
  exists r, definedItems this docUri definitionData referenceItem es locations = Normal r.
Proof.
  intros Hdoc. revert locations.
  induction es as [|definedItem rest IH]; intros locations Hsub;
    cbn [definedItems]; [eauto|].
  assert (definedItem ∈ edges definitionData) as Hin by (apply Hsub, list_elem_of_here).
  assert (rest ⊆ edges definitionData) as Hrest
    by (intros x Hx; by apply Hsub, list_elem_of_further).
  destruct (_ && _) eqn:Hcond; [|by apply IH].
  apply andb_prop in Hcond as [Hcond Hp]. apply andb_prop in Hcond as [Hl Ho].
  apply strictEq_true in Hl, Hp.
  destruct (Hstore _ _ Hdoc) as [Hvs Hes]. rewrite Forall_forall in Hvs, Hes.
  pose proof (Hone _ _ Hdoc) as Ho1. rewrite Forall_forall in Ho1.
  destruct (Hes definedItem Hin) as (Hi & _).
  destruct Hi as [targets Hi]; [by right|].
  rewrite (findIncluded_find definedItem targets _ Hi).
  destruct (List.find _ _) as [v|] eqn:Hf; simpl; [|by apply IH].
  pose proof (Htargets _ _ Hdoc definedItem targets v Hin Hl Hp Hi Hf) as Hrange.
  apply find_elem in Hf as [Hvin _].
  destruct (toLocation_total (orElse (uriOfId this (shard definedItem)) docUri) v
              (Hvs v Hvin) (Ho1 v Hvin) Hrange
              (definitionDocUri_accepted definedItem docUri definitionData Hdoc))
    as [location ->].
  simpl. by apply IH.
Qed.

Lemma definitionDocuments_total referenceItem docs locations :
  docs ⊆ documents (database this) ->
  exists r, definitionDocuments this referenceItem docs locations = Normal r.
Proof.
  revert locations. induction docs as [|[docUri definitionData] rest IH];
    intros locations Hsub; cbn [definitionDocuments]; [eauto|].
  assert ((docUri, definitionData) ∈ documents (database this)) as Hin
    by (apply Hsub, list_elem_of_here).
  assert (rest ⊆ documents (database this)) as Hrest
    by (intros x Hx; by apply Hsub, list_elem_of_further).
  destruct (findContains definitionData); [|by apply IH].
  destruct (definedItems_total docUri definitionData referenceItem
              (edges definitionData) locations Hin) as [r ->]; [done|].
  simpl. by apply IH.
Qed.

Lemma referenceItems_total range es locations :
  exists r, referenceItems this range es locations = Normal r.
Proof.
  revert locations. induction es as [|referenceItem rest IH]; intros locations;
    cbn [referenceItems]; [eauto|].
  destruct (_ && _); [|by apply IH].
  destruct (definitionDocuments_total referenceItem (documents (database this)) locations)
    as [r ->]; [done|].
  simpl. by apply IH.
Qed.

Lemma definitionRanges_total d position rangeIds locations :
  wellTypedShard d ->
  exists r, definitionRanges this d position rangeIds locations = Normal r.
Proof.
  intros Hd. revert locations.
  induction rangeIds as [|rangeId rest IH]; intros locations;
    cbn [definitionRanges]; [eauto|].
  destruct (List.find _ _) as [range|] eqn:Hf; [|by apply IH].
  destruct (label range === Some "range") eqn:Hl; [|by apply IH].
  apply find_elem in Hf as [Hin _]. apply strictEq_true in Hl.
  destruct Hd as [Hvs _]. rewrite Forall_forall in Hvs.
  destruct (withinRange_total position range (Hvs range Hin) Hl) as [[] ->]; simpl;
    [|by apply IH].
  destruct (referenceItems_total range (edges d) locations) as [r ->].
  simpl. by apply IH.
Qed.
End DefinitionsTotal.

(** X14. The definition resolver throws nothing, whatever the URI (once
    decoded) and the position, on a store in which every contains and item
    edge has its [inVs], every hoverResult vertex has a result whose
    [contents] is an array, every range vertex has a [start] and an [end]
    whose lines and characters are at least 1, the vertex that each
    definitions edge leads to (the first of its shard whose id the edge
    names) is a range, and [Uri.parse] accepts the key of every shard and
    every uri of the id-to-uri map.  (A bound of 0 makes [vscode.Position]
    throw.) *)
Theorem definitions_never_throw {host : Host} this documentUri position :
  wellTypedStore this ->
  (forall key d, (key, d) ∈ documents (database this) -> definitionTargetsAreRanges d) ->
  oneBasedStore this -> shardKeysAccepted this -> documentUrisAccepted this ->
  is_Some (decodeURIComponent documentUri) ->
  exists r, completion (getDefinitionData this documentUri position) = Normal r.
Proof.
  intros Hstore Htargets Hone Hkeys Huris [u Hu].
  unfold getDefinitionData. rewrite Hu. simpl.
  unfold definitionBody.
  destruct (JSMap.get _ _) as [d|] eqn:Hg; [|eauto].
  apply JSMap_get_elem in Hg. pose proof (Hstore _ _ Hg) as Hd.
  destruct (findContains d) as [c|] eqn:Hc; [|eauto].
  destruct (findContains_inVs d c Hd Hc) as [rangeIds ->].
  destruct (definitionRanges_total this Hstore Htargets Hone Hkeys Huris d
              (bump position) rangeIds [] Hd) as [r ->].
  simpl. eauto.
Qed.

Lemma definitions_never_throw_witness :
  exists r,
    completion (getDefinitionData crossReferenceBackend "file:///a"
                  {| line := 0; character := 0 |}) = Normal r.
Proof.
  refine (definitions_never_throw crossReferenceBackend "file:///a"
            {| line := 0; character := 0 |} _ _ _ _ _ _).
  - intros key d Hin. apply list_elem_of_singleton in Hin. injection Hin as -> ->.
    split; repeat constructor; simpl; try discriminate; try (by eexists);
      try (intros [?|?]; discriminate); try (intros ?; discriminate).
  - intros key d Hin. apply list_elem_of_singleton in Hin. injection Hin as -> ->.
    intros e targets v He Hl Hp Hi Hf. simpl in He.
    repeat (apply elem_of_cons in He as [->|He]; [try discriminate|]);
      [|by apply elem_of_nil in He].
    injection Hi as <-. vm_compute in Hf. by injection Hf as <-.
  - intros key d Hin. apply list_elem_of_singleton in Hin. injection Hin as -> ->.
    apply Forall_forall. intros v Hv Hl p Hp. simpl in Hv.
    repeat (apply elem_of_cons in Hv as [->|Hv];
            [simpl in *; try discriminate; destruct Hp as [[= <-]|[= <-]]; simpl; lia|]).
    by apply elem_of_nil in Hv.
  - intros key d Hin. by eexists.
  - intros k u Hk. by eexists.
  - by eexists.
Defined.

(** ** The flat backend *)

Lemma find_app_first {A} (f : A -> bool) (l1 l2 : list A) :
  List.find f (l1 ++ l2)%list
  = match List.find f l1 with Some x => Some x | None => List.find f l2 end.
Proof. induction l1 as [|x l1 IH]; simpl; [done|]. by destruct (f x). Qed.

Lemma lastRecord_cons_object ty i obj rest :
  lastRecord ty i (JSONobject obj :: rest)
  = match lastRecord ty i rest with
    | Some v => Some v
    | None => if (type obj === Some ty) && (id obj === i) then Some obj else None
    end.
Proof. unfold lastRecord. simpl. by rewrite find_app_first. Qed.

Lemma Flat_forEach_last lines this this' :
  Flat.forEach lines this = (Normal (), this') ->
  forall i,
    JSMap.get i (Flat.vertices this')
    = match lastRecord "vertex" i lines with
      | Some v => Some v
      | None => JSMap.get i (Flat.vertices this)
      end
    /\ JSMap.get i (Flat.edges this')
       = match lastRecord "edge" i lines with
         | Some e => Some e
         | None => JSMap.get i (Flat.edges this)
         end.
Proof.
  revert this. induction lines as [|ln rest IH]; intros this; cbn [Flat.forEach].
  - by intros [= <-].
  - destruct ln as [| | |obj]; try discriminate.
    cbn [Flat.ingestLine].
    destruct (type obj === Some "vertex") eqn:Hv;
      [|destruct (type obj === Some "edge") eqn:He].
    + intros H i. destruct (IH _ H i) as [-> ->]. cbn [Flat.vertices Flat.edges].
      rewrite !lastRecord_cons_object. rewrite Hv.
      apply strictEq_true in Hv.
      assert ((type obj === Some "edge") = false) as -> by (by rewrite Hv).
      cbn [andb]. split; [|by destruct (lastRecord "edge" i rest)].
      destruct (lastRecord "vertex" i rest); [done|].
      destruct (id obj === i) eqn:Hi.
      * apply strictEq_true in Hi. subst i. by rewrite JSMap_get_set_eq.
      * rewrite JSMap_get_set_ne; [done|]. intros ->.
        by rewrite strictEq_intro in Hi.
    + intros H i. destruct (IH _ H i) as [-> ->]. cbn [Flat.vertices Flat.edges].
      rewrite !lastRecord_cons_object. rewrite Hv, He. cbn [andb].
      split; [by destruct (lastRecord "vertex" i rest)|].
      destruct (lastRecord "edge" i rest); [done|].
      destruct (id obj === i) eqn:Hi.
      * apply strictEq_true in Hi. subst i. by rewrite JSMap_get_set_eq.
      * rewrite JSMap_get_set_ne; [done|]. intros ->.
        by rewrite strictEq_intro in Hi.
    + intros H i. destruct (IH _ H i) as [-> ->].
      rewrite !lastRecord_cons_object. rewrite Hv, He. cbn [andb].
      by destruct (lastRecord "vertex" i rest), (lastRecord "edge" i rest).
Qed.

Lemma nonBlank_objectsOf lines :
  objectsOf (List.filter (fun ln => negb (isBlank ln)) lines) = objectsOf lines.
Proof.
  unfold objectsOf. induction lines as [|ln rest IH]; [done|].
  destruct ln; cbn [List.filter isBlank negb omap list_omap]; by rewrite ?IH.
Qed.

(** X15. The flat backend keeps one record per id.  After a load that
    completes, the vertex stored under an id is the last record of the
    file with type vertex and that id, or the one stored before when the
    file has none; likewise for the edges.  A record of the file replaces
    an earlier one with its id and type, and touches no other id. *)
Theorem flat_load_keeps_the_last_record lines this this' :
  Flat.load lines this = (Normal (), this') ->
  forall i,
    JSMap.get i (Flat.vertices this')
    = match lastRecord "vertex" i lines with
      | Some v => Some v
      | None => JSMap.get i (Flat.vertices this)
      end
    /\ JSMap.get i (Flat.edges this')
       = match lastRecord "edge" i lines with
         | Some e => Some e
         | None => JSMap.get i (Flat.edges this)
         end.
Proof.
  unfold Flat.load. intros H i.
  destruct (Flat_forEach_last _ _ _ H i) as [Hv He].
  unfold lastRecord in *. by rewrite nonBlank_objectsOf in Hv, He.
Qed.

Lemma flat_load_keeps_the_last_record_witness :
  JSMap.get (Some 2)
    (Flat.vertices (snd (Flat.load [JSONobject (rangeVertex 2 1 1 1 5); Blank;
                                     JSONobject (rangeVertex 2 7 1 7 5)]
                                    Flat.newBackend)))
  = Some (rangeVertex 2 7 1 7 5).
Proof.
  exact (proj1 (flat_load_keeps_the_last_record
                  [JSONobject (rangeVertex 2 1 1 1 5); Blank;
                   JSONobject (rangeVertex 2 7 1 7 5)]
                  Flat.newBackend _ eq_refl (Some 2))).
Defined.

(** X16. In the flat backend the loop that looks for the range of a
    reference query has no break: the range it ends with is the last one,
    in the order of the contains edge, whose bounds hold the position.  It
    is the vertex stored under an id that the contains edge names, the
    position is within it, and the position is within no vertex named
    later. *)
Theorem flat_findRange_last_match this position rangeIds range :
  Flat.findRange this position rangeIds None = Normal (Some range) ->
  exists earlier rangeId later,
    rangeIds = (earlier ++ rangeId :: later)%list
    /\ JSMap.get (Some rangeId) (Flat.vertices this) = Some range
    /\ withinRange position range = Normal true
    /\ forall rangeId' range',
         rangeId' ∈ later ->
         JSMap.get (Some rangeId') (Flat.vertices this) = Some range' ->
         withinRange position range' = Normal false.
Proof.
  cut (forall rangeVertex,
         Flat.findRange this position rangeIds rangeVertex = Normal (Some range) ->
         (rangeVertex = Some range
          /\ forall rangeId' range',
               rangeId' ∈ rangeIds ->
               JSMap.get (Some rangeId') (Flat.vertices this) = Some range' ->
               withinRange position range' = Normal false)
         \/ exists earlier rangeId later,
              rangeIds = (earlier ++ rangeId :: later)%list
              /\ JSMap.get (Some rangeId) (Flat.vertices this) = Some range
              /\ withinRange position range = Normal true
              /\ forall rangeId' range',
                   rangeId' ∈ later ->
                   JSMap.get (Some rangeId') (Flat.vertices this) = Some range' ->
                   withinRange position range' = Normal false).
  { intros Hcut H. by destruct (Hcut None H) as [[[=] _]|?]. }
  induction rangeIds as [|rangeId rest IH]; intros rangeVertex; cbn [Flat.findRange].
  - intros [= ->]. left. split; [done|]. intros ?? Hin. by apply elem_of_nil in Hin.
  - destruct (JSMap.get _ _) as [r|] eqn:Hg; [|discriminate].
    intros H. apply bind_Normal_inv in H as (inside & Hw & H).
    destruct (IH _ H) as [[Heq Hlater]|(earlier & i & later & -> & ? & ? & ?)].
    + destruct inside.
      * injection Heq as ->. right. exists [], rangeId, rest. done.
      * left. split; [done|].
        intros i r' [->|Hin]%elem_of_cons Hg'; [|by eapply Hlater].
        rewrite Hg in Hg'. by injection Hg' as <-.
    + right. exists (rangeId :: earlier), i, later. done.
Qed.

Lemma flat_findRange_last_match_witness :
  exists earlier rangeId later,
    [2; 8] = (earlier ++ rangeId :: later)%list
    /\ JSMap.get (Some rangeId)
         (Flat.vertices
            {| Flat.vertices := [(Some 2, rangeVertex 2 1 1 9 9);
                                 (Some 8, rangeVertex 8 1 1 1 5)];
               Flat.edges := [] |}) = Some (rangeVertex 8 1 1 1 5)
    /\ withinRange {| line := 1; character := 1 |} (rangeVertex 8 1 1 1 5) = Normal true
    /\ forall rangeId' range',
         rangeId' ∈ later ->
         JSMap.get (Some rangeId')
           (Flat.vertices
              {| Flat.vertices := [(Some 2, rangeVertex 2 1 1 9 9);
                                   (Some 8, rangeVertex 8 1 1 1 5)];
                 Flat.edges := [] |}) = Some range' ->
         withinRange {| line := 1; character := 1 |} range' = Normal false.
Proof.
  exact (flat_findRange_last_match
           {| Flat.vertices := [(Some 2, rangeVertex 2 1 1 9 9);
                                (Some 8, rangeVertex 8 1 1 1 5)];
              Flat.edges := [] |}
           {| line := 1; character := 1 |} [2; 8] (rangeVertex 8 1 1 1 5) eq_refl).
Defined.

Section FlatReferences.
Context {host : Host}.
Variable this : Flat.LSIFDatabase.
Variable referenceResult : Element.

Lemma Flat_labelled_Some l o v :
  Flat.labelled l o = Some v <-> o = Some v /\ label v = Some l.
Proof.
  unfold Flat.labelled. destruct o as [w|]; [|by split; [|intros [[=] _]]].
  destruct (label w === Some l) eqn:Hl.
  - apply strictEq_true in Hl. split; [by intros [= <-]|by intros [[= <-] _]].
  - split; [done|]. intros [[= <-] Hl']. by rewrite strictEq_intro in Hl.
Qed.

Lemma Flat_itemEdgesOf_elem itemEdge :
  itemEdge ∈ Flat.itemEdgesOf this referenceResult
  <-> itemEdge ∈ Flat.values (Flat.edges this)
      /\ label itemEdge = Some "item" /\ outV itemEdge = id referenceResult
      /\ property itemEdge = Some "references".
Proof.
  unfold Flat.itemEdgesOf. rewrite list_elem_of_In, filter_In, <- list_elem_of_In.
  split.
  - intros [Hin Hc]. apply andb_prop in Hc as [Hc Hp]. apply andb_prop in Hc as [Hc _].
    apply andb_prop in Hc as [Hl Ho]. apply strictEq_true in Hl, Ho, Hp. done.
  - intros (Hin & Hl & Ho & Hp). split; [done|]. rewrite Hl, Ho, Hp.
    rewrite (strictEq_intro (id referenceResult) _ eq_refl). reflexivity.
Qed.

Lemma Flat_referenceRanges_spec documentVertex rangeIds locations locations' :
  Flat.referenceRanges this documentVertex rangeIds locations = Normal locations' ->
  forall location,
    location ∈ locations'
    <-> location ∈ locations
        \/ exists rangeId v,
             rangeId ∈ rangeIds
             /\ JSMap.get (Some rangeId) (Flat.vertices this) = Some v
             /\ label v = Some "range"
             /\ locatedAt (uri documentVertex) v location.
Proof.
  revert locations. induction rangeIds as [|i rest IH]; intros locations;
    cbn [Flat.referenceRanges].
  - intros [= <-] location. split; [by left|].
    intros [?|(? & ? & Hin & _)]; [done|]. by apply elem_of_nil in Hin.
  - destruct (Flat.labelled _ _) as [r|] eqn:Hr.
    + apply Flat_labelled_Some in Hr as [Hg Hl].
      intros H. apply bind_Normal_inv in H as (location0 & Hloc & H).
      intros location. rewrite (IH _ H location), elem_of_app, list_elem_of_singleton.
      split.
      * intros [[?| ->]|(rangeId & v & Hin & ?)].
        -- by left.
        -- right. exists i, r. apply toLocation_locatedAt in Hloc.
           split; [apply list_elem_of_here|done].
        -- right. exists rangeId, v. split; [by apply list_elem_of_further|done].
      * intros [?|(rangeId & v & [->|Hin]%elem_of_cons & Hg' & Hl' & Hloc')].
        -- by left; left.
        -- left. right. rewrite Hg in Hg'. injection Hg' as <-.
           apply toLocation_locatedAt in Hloc'. rewrite Hloc in Hloc'.
           by injection Hloc'.
        -- right. exists rangeId, v. done.
    + intros H location. rewrite (IH _ H location). split.
      * intros [?|(rangeId & v & Hin & ?)]; [by left|].
        right. exists rangeId, v. split; [by apply list_elem_of_further|done].
      * intros [?|(rangeId & v & [->|Hin]%elem_of_cons & Hg' & Hl' & ?)]; [by left| |].
        -- assert (Flat.labelled "range" (JSMap.get (Some i) (Flat.vertices this))
                   = Some v) as Hr' by (by apply Flat_labelled_Some).
           congruence.
        -- right. exists rangeId, v. done.
Qed.

Lemma Flat_referenceLocations_spec itemEdges locations locations' :
  Flat.referenceLocations this itemEdges locations = Normal locations' ->
  forall location,
    location ∈ locations'
    <-> location ∈ locations
        \/ exists itemEdge documentVertex rangeIds rangeId v,
             itemEdge ∈ itemEdges
             /\ JSMap.get (shard itemEdge) (Flat.vertices this) = Some documentVertex
             /\ inVs itemEdge = Some rangeIds /\ rangeId ∈ rangeIds
             /\ JSMap.get (Some rangeId) (Flat.vertices this) = Some v
             /\ label v = Some "range"
             /\ locatedAt (uri documentVertex) v location.
Proof.
  revert locations. induction itemEdges as [|e rest IH]; intros locations;
    cbn [Flat.referenceLocations].
  - intros [= <-] location. split; [by left|].
    intros [?|(? & ? & ? & ? & ? & Hin & _)]; [done|]. by apply elem_of_nil in Hin.
  - destruct (JSMap.get (shard e) _) as [dv|] eqn:Hg.
    + destruct (inVs e) as [ids|] eqn:Hi; [|discriminate].
      intros H. apply bind_Normal_inv in H as (mid & Hmid & H).
      intros location.
      rewrite (IH _ H location), (Flat_referenceRanges_spec _ _ _ _ Hmid location).
      split.
      * intros [[?|(rangeId & v & ? & ? & ? & ? & ?)]
               |(itemEdge & dv' & ids' & rangeId & v & Hin & ?)].
        -- by left.
        -- right. exists e, dv, ids, rangeId, v.
           split; [apply list_elem_of_here|done].
        -- right. exists itemEdge, dv', ids', rangeId, v.
           split; [by apply list_elem_of_further|done].
      * intros [?|(itemEdge & dv' & ids' & rangeId & v & [->|Hin]%elem_of_cons
                   & Hg' & Hi' & ? & ? & ? & ? & ?)].
        -- by left; left.
        -- rewrite Hg in Hg'. injection Hg' as <-. rewrite Hi in Hi'.
           injection Hi' as <-. left. right. exists rangeId, v. done.
        -- right. exists itemEdge, dv', ids', rangeId, v. done.
    + intros H location. rewrite (IH _ H location). split.
      * intros [?|(itemEdge & dv' & ids' & rangeId & v & Hin & ?)]; [by left|].
        right. exists itemEdge, dv', ids', rangeId, v.
        split; [by apply list_elem_of_further|done].
      * intros [?|(itemEdge & dv' & ids' & rangeId & v & [->|Hin]%elem_of_cons
                   & Hg' & ?)]; [by left|congruence|].
        right. exists itemEdge, dv', ids', rangeId, v. done.
Qed.
End FlatReferences.

(** X17. The locations of the flat reference resolver are those of the
    index.  When it returns locations, the first document vertex with the
    decoded URI, the first contains edge out of it, the range found for
    the converted position and the targets of the first next and
    textDocument/references edges lead to a referenceResult vertex; the
    list is not empty; and a location is in the list exactly when an item
    edge with property references out of that result has a [shard] that is
    the id of a stored vertex and names the id of a stored range vertex:
    the location is that of the range, under the uri of the vertex that the
    [shard] names.  An item edge whose [shard] names no stored vertex
    contributes nothing: this resolver has no fallback document.
    A location of a vertex under a uri is the one [locatedAt] gives:
    [Uri.parse] accepts the uri and its value is the Uri of the location,
    the bounds of the vertex are at least 1 on line and character, and the
    range of the location has the two bounds with one subtracted from each
    line and character, the earlier bound first. *)
Theorem flat_reference_locations_are_those_of_the_index {host : Host} this documentUri u position
    locations :
  decodeURIComponent documentUri = Some u ->
  fst (Flat.getReferencesData this documentUri position) = Normal (Some locations) ->
  exists documentVertex containsEdge rangeIds rangeVertex resultSetVertex referenceResult,
    Flat.findDocument this u = Some documentVertex
    /\ Flat.findContainsOf this documentVertex = Some containsEdge
    /\ inVs containsEdge = Some rangeIds
    /\ Flat.findRange this (bump position) rangeIds None = Normal (Some rangeVertex)
    /\ Flat.labelled "resultSet" (Flat.follow this "next" rangeVertex)
       = Some resultSetVertex
    /\ Flat.labelled "referenceResult"
         (Flat.follow this "textDocument/references" resultSetVertex)
       = Some referenceResult
    /\ locations <> []
    /\ forall location,
         location ∈ locations <-> flatReferenceOf this referenceResult location.
Proof.
  intros Hu. unfold Flat.getReferencesData. rewrite Hu. cbn [fst].
  destruct (Flat.findDocument this u) as [dv|] eqn:Hd; [|discriminate].
  destruct (Flat.findContainsOf this dv) as [c|] eqn:Hc; [|discriminate].
  destruct (inVs c) as [rangeIds|] eqn:Hi; [|discriminate].
  intros H. apply bind_Normal_inv in H as ([rangeVertex|] & Hr & H); [|discriminate].
  destruct (Flat.labelled "resultSet" _) as [rs|] eqn:Hrs; [|discriminate].
  destruct (Flat.labelled "referenceResult" _) as [rr|] eqn:Hrr; [|discriminate].
  pose proof (Flat_itemEdgesOf_elem this rr) as Hitems.
  destruct (Flat.itemEdgesOf this rr) as [|e0 es] eqn:Hcoll; [discriminate|].
  apply bind_Normal_inv in H as (locs & Hlocs & H).
  pose proof (Flat_referenceLocations_spec this _ _ _ Hlocs) as Hspec.
  destruct locs as [|l0 ls]; [discriminate|]. injection H as <-.
  exists dv, c, rangeIds, rangeVertex, rs, rr.
  do 6 (split; [done|]). split; [done|].
  intros location. rewrite Hspec. split.
  - intros [Hin|(itemEdge & dv' & ids & rangeId & v & Hin & ?)];
      [by apply elem_of_nil in Hin|].
    apply Hitems in Hin as (? & ? & ? & ?).
    exists itemEdge, dv', ids, rangeId, v. done.
  - intros (itemEdge & dv' & ids & rangeId & v & ? & ? & ? & ? & ?).
    right. exists itemEdge, dv', ids, rangeId, v. split; [|done].
    apply Hitems. done.
Qed.

Lemma flat_reference_locations_are_those_of_the_index_witness :
  exists documentVertex containsEdge rangeIds rangeVertex resultSetVertex referenceResult,
    Flat.findDocument (snd (Flat.load crossReference Flat.newBackend)) "file:///a"
    = Some documentVertex
    /\ Flat.findContainsOf (snd (Flat.load crossReference Flat.newBackend)) documentVertex
       = Some containsEdge
    /\ inVs containsEdge = Some rangeIds
    /\ Flat.findRange (snd (Flat.load crossReference Flat.newBackend))
         (bump {| line := 0; character := 0 |}) rangeIds None
       = Normal (Some rangeVertex)
    /\ Flat.labelled "resultSet"
         (Flat.follow (snd (Flat.load crossReference Flat.newBackend)) "next" rangeVertex)
       = Some resultSetVertex
    /\ Flat.labelled "referenceResult"
         (Flat.follow (snd (Flat.load crossReference Flat.newBackend))
            "textDocument/references" resultSetVertex)
       = Some referenceResult
    /\ [ {| vscode.uri := Some "file:///a";
            vscode.range := {| vscode.start := {| line := 0; character := 0 |};
                               vscode.end_ := {| line := 0; character := 4 |} |} |} ]
       <> []
    /\ forall location,
         location ∈
           [ {| vscode.uri := Some "file:///a";
                vscode.range := {| vscode.start := {| line := 0; character := 0 |};
                                   vscode.end_ := {| line := 0; character := 4 |} |} |} ]
         <-> flatReferenceOf (snd (Flat.load crossReference Flat.newBackend))
               referenceResult location.
Proof.
  exact (flat_reference_locations_are_those_of_the_index
           (snd (Flat.load crossReference Flat.newBackend))
           "file:///a" "file:///a" {| line := 0; character := 0 |} _ eq_refl eq_refl).
Defined.

(** ** The flat hover resolver *)

Lemma Flat_hoverText_Some o text :
  Flat.hoverText o = Normal (Some text) ->
  exists h, o = Some h /\ label h = Some "hoverResult"
            /\ joinContents (Some h) = Normal text.
Proof.
  unfold Flat.hoverText. destruct o as [h|]; [|discriminate].
  destruct (label h === Some "hoverResult") eqn:Hl; [|discriminate].
  intros H. apply bind_Normal_inv in H as (t & Ht & [= ->]).
  apply strictEq_true in Hl. by exists h.
Qed.

Lemma Flat_hoverText_None o h :
  Flat.hoverText o = Normal None -> o = Some h -> label h <> Some "hoverResult".
Proof.
  unfold Flat.hoverText. intros H ->. intros Hl. rewrite Hl in H.
  rewrite strictEq_intro in H by done.
  destruct (joinContents (Some h)); simpl in H; discriminate.
Qed.

Section FlatHover.
Variable this : Flat.LSIFDatabase.

Lemma Flat_hoverViaNext_Some edge es text :
  Flat.hoverViaNext this edge es = Normal (Some text) ->
  exists edge2 h,
    edge2 ∈ es /\ label edge2 = Some "textDocument/hover" /\ outV edge2 = inV edge
    /\ JSMap.get (inV edge2) (Flat.vertices this) = Some h
    /\ label h = Some "hoverResult" /\ joinContents (Some h) = Normal text.
Proof.
  induction es as [|edge2 rest IH]; cbn [Flat.hoverViaNext]; [discriminate|].
  assert (Flat.hoverViaNext this edge rest = Normal (Some text) ->
          exists edge0 h,
            edge0 ∈ edge2 :: rest /\ label edge0 = Some "textDocument/hover"
            /\ outV edge0 = inV edge
            /\ JSMap.get (inV edge0) (Flat.vertices this) = Some h
            /\ label h = Some "hoverResult" /\ joinContents (Some h) = Normal text)
    as Hrest.
  { intros H. destruct (IH H) as (e & h & Hin & ?). exists e, h.
    split; [by apply list_elem_of_further|done]. }
  destruct ((label edge2 === Some "textDocument/hover") && _) eqn:Hc; [|done].
  intros H. apply bind_Normal_inv in H as ([t|] & Ht & H); [|by apply Hrest].
  injection H as ->. apply Flat_hoverText_Some in Ht as (h & ? & ? & ?).
  apply andb_prop in Hc as [?%strictEq_true ?%strictEq_true].
  exists edge2, h. split; [apply list_elem_of_here|done].
Qed.

Lemma Flat_hoverViaNext_None edge es edge2 h :
  Flat.hoverViaNext this edge es = Normal None ->
  edge2 ∈ es -> label edge2 = Some "textDocument/hover" -> outV edge2 = inV edge ->
  JSMap.get (inV edge2) (Flat.vertices this) = Some h ->
  label h <> Some "hoverResult".
Proof.
  intros Hnone Hin Hl Ho Hg.
  induction es as [|e rest IH]; [by apply elem_of_nil in Hin|].
  cbn [Flat.hoverViaNext] in Hnone.
  destruct ((label e === Some "textDocument/hover") && _) eqn:Hc.
  - apply bind_Normal_inv in Hnone as ([t|] & Ht & Hnone); [discriminate|].
    apply elem_of_cons in Hin as [<-|Hin]; [|by apply IH].
    by eapply Flat_hoverText_None.
  - apply elem_of_cons in Hin as [<-|Hin]; [|by apply IH].
    rewrite Hl, Ho in Hc. by rewrite !strictEq_intro in Hc.
Qed.

Lemma Flat_hoverEdges_Some range es text :
  es ⊆ Flat.values (Flat.edges this) ->
  Flat.hoverEdges this range es = Normal (Some text) ->
  exists h, flatHoverChain this range h /\ joinContents (Some h) = Normal text.
Proof.
  induction es as [|edge rest IH]; cbn [Flat.hoverEdges]; intros Hsub; [discriminate|].
  assert (edge ∈ Flat.values (Flat.edges this)) as Hin
    by (apply Hsub, list_elem_of_here).
  assert (rest ⊆ Flat.values (Flat.edges this)) as Hrest
    by (intros x Hx; by apply Hsub, list_elem_of_further).
  destruct ((label edge === Some "next") && _) eqn:Hc.
  - intros H. apply bind_Normal_inv in H as ([t|] & Hv & H); [|by apply IH].
    injection H as ->.
    apply Flat_hoverViaNext_Some in Hv as (edge2 & h & ? & ? & ? & ? & ? & ?).
    apply andb_prop in Hc as [?%strictEq_true ?%strictEq_true].
    exists h. split; [|done]. left. exists edge, edge2. done.
  - destruct ((label edge === Some "textDocument/hover") && _) eqn:Hc2;
      [|by apply IH].
    intros H. apply bind_Normal_inv in H as ([t|] & Ht & H); [|by apply IH].
    injection H as ->. apply Flat_hoverText_Some in Ht as (h & ? & ? & ?).
    apply andb_prop in Hc2 as [?%strictEq_true ?%strictEq_true].
    exists h. split; [|done]. right. exists edge. done.
Qed.

Lemma Flat_hoverEdges_None range es h :
  Flat.hoverEdges this range es = Normal None ->
  ~ ((exists edge edge2,
        edge ∈ es /\ label edge = Some "next" /\ outV edge = id range
        /\ edge2 ∈ Flat.values (Flat.edges this)
        /\ label edge2 = Some "textDocument/hover" /\ outV edge2 = inV edge
        /\ JSMap.get (inV edge2) (Flat.vertices this) = Some h
        /\ label h = Some "hoverResult")
     \/ (exists edge,
        edge ∈ es /\ label edge = Some "textDocument/hover" /\ outV edge = id range
        /\ JSMap.get (inV edge) (Flat.vertices this) = Some h
        /\ label h = Some "hoverResult")).
Proof.
  induction es as [|e rest IH]; intros Hnone.
  - intros [(edge & ? & Hin & _)|(edge & Hin & _)]; by apply elem_of_nil in Hin.
  - cbn [Flat.hoverEdges] in Hnone.
    destruct ((label e === Some "next") && (outV e === id range)) eqn:Hc.
    + apply bind_Normal_inv in Hnone as ([t|] & Hv & Hnone); [discriminate|].
      intros [(edge & edge2 & Hin & Hl & Ho & Hin2 & Hl2 & Ho2 & Hg & Hh)
             |(edge & Hin & Hl & Ho & Hg & Hh)].
      * apply elem_of_cons in Hin as [->|Hin].
        -- by eapply (Flat_hoverViaNext_None e _ edge2 h).
        -- apply (IH Hnone). left. exists edge, edge2. done.
      * apply elem_of_cons in Hin as [->|Hin].
        -- apply andb_prop in Hc as [Hn%strictEq_true _]. congruence.
        -- apply (IH Hnone). right. exists edge. done.
    + destruct ((label e === Some "textDocument/hover") && (outV e === id range)) eqn:Hc2.
      * apply bind_Normal_inv in Hnone as ([t|] & Ht & Hnone); [discriminate|].
        intros [(edge & edge2 & Hin & Hl & Ho & Hin2 & Hl2 & Ho2 & Hg & Hh)
               |(edge & Hin & Hl & Ho & Hg & Hh)].
        -- apply elem_of_cons in Hin as [->|Hin].
           ++ rewrite Hl, Ho in Hc. by rewrite !strictEq_intro in Hc.
           ++ apply (IH Hnone). left. exists edge, edge2. done.
        -- apply elem_of_cons in Hin as [->|Hin].
           ++ by eapply Flat_hoverText_None.
           ++ apply (IH Hnone). right. exists edge. done.
      * intros [(edge & edge2 & Hin & Hl & Ho & Hin2 & Hl2 & Ho2 & Hg & Hh)
               |(edge & Hin & Hl & Ho & Hg & Hh)].
        -- apply elem_of_cons in Hin as [->|Hin].
           ++ rewrite Hl, Ho in Hc. by rewrite !strictEq_intro in Hc.
           ++ apply (IH Hnone). left. exists edge, edge2. done.
        -- apply elem_of_cons in Hin as [->|Hin].
           ++ rewrite Hl, Ho in Hc2. by rewrite !strictEq_intro in Hc2.
           ++ apply (IH Hnone). right. exists edge. done.
Qed.

Lemma Flat_hoverRanges_Some position rangeIds text :
  Flat.hoverRanges this position rangeIds = Normal (Some text) ->
  exists rangeId range h,
    rangeId ∈ rangeIds
    /\ JSMap.get (Some rangeId) (Flat.vertices this) = Some range
    /\ withinRange position range = Normal true
    /\ flatHoverChain this range h /\ joinContents (Some h) = Normal text.
Proof.
  induction rangeIds as [|rangeId rest IH]; cbn [Flat.hoverRanges]; [discriminate|].
  assert (Flat.hoverRanges this position rest = Normal (Some text) ->
          exists rangeId0 range h,
            rangeId0 ∈ rangeId :: rest
            /\ JSMap.get (Some rangeId0) (Flat.vertices this) = Some range
            /\ withinRange position range = Normal true
            /\ flatHoverChain this range h /\ joinContents (Some h) = Normal text)
    as Hrest.
  { intros H. destruct (IH H) as (i & r & h & Hi & ?). exists i, r, h.
    split; [by apply list_elem_of_further|done]. }
  destruct (JSMap.get _ _) as [range|] eqn:Hg; [|discriminate].
  intros H. apply bind_Normal_inv in H as ([] & Hw & H); [|by apply Hrest].
  apply bind_Normal_inv in H as ([t|] & He & H); [|by apply Hrest].
  injection H as ->.
  apply Flat_hoverEdges_Some in He as (h & Hch & Hj); [|done].
  exists rangeId, range, h. split; [apply list_elem_of_here|done].
Qed.

Lemma Flat_hoverRanges_None position rangeIds rangeId range h :
  Flat.hoverRanges this position rangeIds = Normal None ->
  rangeId ∈ rangeIds ->
  JSMap.get (Some rangeId) (Flat.vertices this) = Some range ->
  withinRange position range = Normal true ->
  ~ flatHoverChain this range h.
Proof.
  intros Hnone Hin Hg Hw.
  induction rangeIds as [|i rest IH]; [by apply elem_of_nil in Hin|].
  cbn [Flat.hoverRanges] in Hnone.
  destruct (JSMap.get (Some i) _) as [r|] eqn:Hgi; [|discriminate].
  apply bind_Normal_inv in Hnone as (inside & Hwi & Hnone).
  apply elem_of_cons in Hin as [->|Hin].
  - rewrite Hgi in Hg. injection Hg as ->. rewrite Hw in Hwi. injection Hwi as <-.
    apply bind_Normal_inv in Hnone as ([t|] & He & Hnone); [discriminate|].
    by apply Flat_hoverEdges_None.
  - apply IH; [|done]. destruct inside; [|done].
    by apply bind_Normal_inv in Hnone as ([t|] & _ & Hnone).
Qed.
End FlatHover.

(** X18. What a hover answer of the flat backend rests on.  When its
    [getHoverData] returns a text, the first contains edge out of the first
    document vertex with the decoded URI names the id of a stored vertex
    with the converted position within its bounds, a next edge and a hover
    edge, or a hover edge alone, lead from it to a stored hoverResult
    vertex, and the text is the contents of that vertex joined by newlines.
    When it returns none, no vertex named by that contains edge and holding
    the position has such a chain. *)
Theorem flat_hover_answers_from_the_index this documentUri u position r :
  decodeURIComponent documentUri = Some u ->
  fst (Flat.getHoverData this documentUri position) = Normal r ->
  match r with
  | Some text =>
      exists documentVertex containsEdge rangeIds rangeId range h,
        Flat.findDocument this u = Some documentVertex
        /\ Flat.findContainsOf this documentVertex = Some containsEdge
        /\ inVs containsEdge = Some rangeIds /\ rangeId ∈ rangeIds
        /\ JSMap.get (Some rangeId) (Flat.vertices this) = Some range
        /\ withinRange (bump position) range = Normal true
        /\ flatHoverChain this range h
        /\ joinContents (Some h) = Normal text
  | None =>
      forall documentVertex containsEdge rangeIds rangeId range h,
        Flat.findDocument this u = Some documentVertex ->
        Flat.findContainsOf this documentVertex = Some containsEdge ->
        inVs containsEdge = Some rangeIds -> rangeId ∈ rangeIds ->
        JSMap.get (Some rangeId) (Flat.vertices this) = Some range ->
        withinRange (bump position) range = Normal true ->
        ~ flatHoverChain this range h
  end.
Proof.
  intros Hu. unfold Flat.getHoverData. rewrite Hu. cbn [fst].
  destruct (Flat.findDocument this u) as [dv|] eqn:Hd.
  2: { intros [= <-]. intros ?????? [=]. }
  destruct (Flat.findContainsOf this dv) as [c|] eqn:Hc.
  2: { intros [= <-]. intros ?????? [= <-]. congruence. }
  destruct (inVs c) as [rangeIds|] eqn:Hi; [|discriminate].
  destruct r as [text|]; intros H.
  - apply Flat_hoverRanges_Some in H as (rangeId & range & h & ? & ? & ? & ? & ?).
    exists dv, c, rangeIds, rangeId, range, h. done.
  - intros dv' c' ids rangeId range h [= <-] Hc' Hi' Hin Hg Hw.
    rewrite Hc in Hc'. injection Hc' as <-. rewrite Hi in Hi'. injection Hi' as <-.
    by eapply Flat_hoverRanges_None.
Qed.

Lemma flat_hover_answers_from_the_index_witness :
  exists documentVertex containsEdge rangeIds rangeId range h,
    Flat.findDocument (snd (Flat.load scenario Flat.newBackend)) "file:///a"
    = Some documentVertex
    /\ Flat.findContainsOf (snd (Flat.load scenario Flat.newBackend)) documentVertex
       = Some containsEdge
    /\ inVs containsEdge = Some rangeIds /\ rangeId ∈ rangeIds
    /\ JSMap.get (Some rangeId) (Flat.vertices (snd (Flat.load scenario Flat.newBackend)))
       = Some range
    /\ withinRange (bump {| line := 1; character := 3 |}) range = Normal true
    /\ flatHoverChain (snd (Flat.load scenario Flat.newBackend)) range h
    /\ joinContents (Some h) = Normal "x".
Proof.
  exact (flat_hover_answers_from_the_index (snd (Flat.load scenario Flat.newBackend))
           "file:///a" "file:///a" {| line := 1; character := 3 |} (Some "x")
           eq_refl eq_refl).
Defined.

(** ** The flat definition resolver *)

Section FlatDefinitions.
Context {host : Host}.
Variable this : Flat.LSIFDatabase.

Lemma Flat_searchContains_spec dv es previous c :
  Flat.searchContains (Some dv) es previous = Normal c ->
  List.find (fun edge => (label edge === Some "contains") && (outV edge === id dv)) es
  = Some c
  \/ (List.find (fun edge => (label edge === Some "contains") && (outV edge === id dv)) es
      = None /\ c = previous).
Proof.
  induction es as [|edge rest IH]; cbn [Flat.searchContains List.find].
  - intros [= <-]. by right.
  - destruct (label edge === Some "contains"); cbn [andb]; [|done].
    destruct (outV edge === id dv); [|done].
    intros [= <-]. by left.
Qed.

Lemma Flat_definedRanges_sound range referenceItem targets definedItem dv containsEdge
    allIds rangeIds P locations locations' :
  (forall location, flatDefinitionOf this range location -> P location) ->
  referenceItem ∈ Flat.values (Flat.edges this) ->
  label referenceItem = Some "item" ->
  inVs referenceItem = Some targets -> includes targets (id range) = true ->
  definedItem ∈ Flat.values (Flat.edges this) ->
  label definedItem = Some "item" -> outV definedItem = outV referenceItem ->
  property definedItem = Some "definitions" ->
  JSMap.get (shard definedItem) (Flat.vertices this) = dv ->
  containsEdge ∈ Flat.values (Flat.edges this) ->
  label containsEdge = Some "contains" ->
  (forall d c, dv = Some d -> Flat.findContainsOf this d = Some c -> containsEdge = c) ->
  inVs containsEdge = Some allIds -> rangeIds ⊆ allIds ->
  Forall P locations ->
  Flat.definedRanges this dv definedItem rangeIds locations = Normal locations' ->
  Forall P locations'.
Proof.
  intros HP Hr Hrl Hri Hinc Hd Hdl Hdo Hdp Hg Hc Hcl Hfirst Hci.
  revert locations. induction rangeIds as [|i rest IH]; intros locations Hsub Hall;
    cbn [Flat.definedRanges]; [by intros [= <-]|].
  assert (rest ⊆ allIds) as Hrest
    by (intros x Hx; by apply Hsub, list_elem_of_further).
  destruct (inVs definedItem) as [definedTargets|] eqn:Hdi; [|discriminate].
  destruct (includes definedTargets (Some i)) eqn:Hinc2; [|by apply IH].
  destruct dv as [d|]; [|discriminate].
  destruct (JSMap.get (Some i) _) as [v|] eqn:Hv;
    [|by destruct (Uri_parse (uri d))].
  intros H. apply bind_Normal_inv in H as (location & Hloc & H).
  apply IH in H; [done|done|].
  apply Forall_app. split; [done|]. apply Forall_singleton. apply HP.
  apply toLocation_locatedAt in Hloc.
  exists referenceItem, targets, definedItem, d, containsEdge, allIds, i,
    definedTargets, v.
  split_and!; try done.
  - intros c. by apply Hfirst.
  - apply Hsub, list_elem_of_here.
Qed.

Lemma Flat_definedItems_sound range referenceItem targets es P st st' :
  (forall location, flatDefinitionOf this range location -> P location) ->
  referenceItem ∈ Flat.values (Flat.edges this) ->
  label referenceItem = Some "item" ->
  inVs referenceItem = Some targets -> includes targets (id range) = true ->
  es ⊆ Flat.values (Flat.edges this) ->
  holdsContains this st -> Forall P (Flat.locations st) ->
  Flat.definedItems this referenceItem es st = Normal st' ->
  holdsContains this st' /\ Forall P (Flat.locations st').
Proof.
  intros HP Hr Hrl Hri Hinc.
  revert st. induction es as [|definedItem rest IH]; intros st Hsub Hst Hall;
    cbn [Flat.definedItems]; [by intros [= <-]|].
  assert (definedItem ∈ Flat.values (Flat.edges this)) as Hin
    by (apply Hsub, list_elem_of_here).
  assert (rest ⊆ Flat.values (Flat.edges this)) as Hrest
    by (intros x Hx; by apply Hsub, list_elem_of_further).
  destruct (_ && _) eqn:Hcond; [|by apply IH].
  apply andb_prop in Hcond as [Hcond Hp]. apply andb_prop in Hcond as [Hl Ho].
  apply strictEq_true in Hl, Ho, Hp.
  intros H. apply bind_Normal_inv in H as (c & Hc & H).
  destruct (inVs c) as [rangeIds|] eqn:Hci; [|discriminate].
  apply bind_Normal_inv in H as (locations1 & H1 & H).
  assert (c ∈ Flat.values (Flat.edges this) /\ label c = Some "contains"
          /\ forall d c', JSMap.get (shard definedItem) (Flat.vertices this) = Some d ->
               Flat.findContainsOf this d = Some c' -> c = c') as (Hcin & Hcl & Hfirst).
  { destruct (JSMap.get (shard definedItem) (Flat.vertices this)) as [d|] eqn:Hg.
    - apply Flat_searchContains_spec in Hc as [Hf|[Hf ->]].
      + pose proof Hf as Hf'. apply find_elem in Hf' as [? [?%strictEq_true _]%andb_prop].
        repeat split; try done. intros d' c' [= <-]. unfold Flat.findContainsOf.
        rewrite Hf. by intros [= <-].
      + destruct Hst. repeat split; try done. intros d' c' [= <-].
        unfold Flat.findContainsOf. by rewrite Hf.
    - assert (c = Flat.containsEdge st) as ->.
      { clear -Hc. revert Hc. generalize (Flat.values (Flat.edges this)).
        intros l. induction l as [|e l IHl]; cbn [Flat.searchContains].
        - by intros [= <-].
        - destruct (label e === Some "contains"); [discriminate|done]. }
      destruct Hst. repeat split; try done. }
  apply IH in H; [done|done| |]; cbn [Flat.containsEdge Flat.locations]; [done|].
  eapply (Flat_definedRanges_sound range referenceItem targets definedItem _ c rangeIds
            rangeIds P); try done.
Qed.

Lemma Flat_referenceItems_sound range es P st st' :
  (forall location, flatDefinitionOf this range location -> P location) ->
  es ⊆ Flat.values (Flat.edges this) ->
  holdsContains this st -> Forall P (Flat.locations st) ->
  Flat.referenceItems this range es st = Normal st' ->
  holdsContains this st' /\ Forall P (Flat.locations st').
Proof.
  intros HP.
  revert st. induction es as [|referenceItem rest IH]; intros st Hsub Hst Hall;
    cbn [Flat.referenceItems]; [by intros [= <-]|].
  assert (referenceItem ∈ Flat.values (Flat.edges this)) as Hin
    by (apply Hsub, list_elem_of_here).
  assert (rest ⊆ Flat.values (Flat.edges this)) as Hrest
    by (intros x Hx; by apply Hsub, list_elem_of_further).
  destruct (_ && _) eqn:Hcond; [|by apply IH].
  apply andb_prop in Hcond as [Hl%strictEq_true Hinc].
  destruct (inVs referenceItem) as [targets|] eqn:Hi; [|discriminate].
  intros H. apply bind_Normal_inv in H as (st1 & H1 & H).
  apply (Flat_definedItems_sound range referenceItem targets _ P) in H1
    as [Hst1 Hall1]; try done.
  by apply IH in H.
Qed.

Lemma Flat_definitionRanges_sound position allIds rangeIds P st st' :
  (forall rangeID range location,
     rangeID ∈ allIds -> JSMap.get (Some rangeID) (Flat.vertices this) = Some range ->
     withinRange position range = Normal true ->
     flatDefinitionOf this range location -> P location) ->
  rangeIds ⊆ allIds ->
  holdsContains this st -> Forall P (Flat.locations st) ->
  Flat.definitionRanges this position rangeIds st = Normal st' ->
  holdsContains this st' /\ Forall P (Flat.locations st').
Proof.
  intros HP.
  revert st. induction rangeIds as [|rangeID rest IH]; intros st Hsub Hst Hall;
    cbn [Flat.definitionRanges]; [by intros [= <-]|].
  assert (rest ⊆ allIds) as Hrest
    by (intros x Hx; by apply Hsub, list_elem_of_further).
  destruct (JSMap.get _ _) as [range|] eqn:Hg; [|discriminate].
  intros H. apply bind_Normal_inv in H as ([] & Hw & H); [|by apply IH in H].
  apply bind_Normal_inv in H as (st1 & H1 & H).
  apply (Flat_referenceItems_sound range _ P) in H1 as [Hst1 Hall1]; try done.
  - by apply IH in H.
  - intros location. apply (HP rangeID range); try done. apply Hsub, list_elem_of_here.
Qed.
End FlatDefinitions.

(** X19. The locations of the flat definition resolver come from the
    index.  When it returns locations, the list is not empty and each
    location rests on a vertex that the first contains edge out of the
    first document vertex with the decoded URI names and that holds the
    converted position, on an item edge that names this vertex, and on an
    item edge with property definitions out of the same vertex whose
    [shard] is the id of a stored vertex: the location is that of a vertex
    whose id the definitions edge names and a contains edge lists, under
    the uri of the vertex that the [shard] names.  The contains edge is the
    first one out of that vertex when it has one, and otherwise the one the
    resolver held before.
    A location of a vertex under a uri is the one [locatedAt] gives:
    [Uri.parse] accepts the uri and its value is the Uri of the location,
    the bounds of the vertex are at least 1 on line and character, and the
    range of the location has the two bounds with one subtracted from each
    line and character, the earlier bound first. *)
Theorem flat_definition_locations_come_from_the_index {host : Host} this documentUri u position
    locations :
  decodeURIComponent documentUri = Some u ->
  fst (Flat.getDefinitionData this documentUri position) = Normal (Some locations) ->
  exists documentVertex containsEdge rangeIds,
    Flat.findDocument this u = Some documentVertex
    /\ Flat.findContainsOf this documentVertex = Some containsEdge
    /\ inVs containsEdge = Some rangeIds
    /\ locations <> []
    /\ Forall (fun location =>
                 exists rangeID range,
                   rangeID ∈ rangeIds
                   /\ JSMap.get (Some rangeID) (Flat.vertices this) = Some range
                   /\ withinRange (bump position) range = Normal true
                   /\ flatDefinitionOf this range location)
              locations.
Proof.
  intros Hu. unfold Flat.getDefinitionData. rewrite Hu. cbn [fst].
  destruct (Flat.findDocument this u) as [dv|] eqn:Hd; [|discriminate].
  destruct (Flat.findContainsOf this dv) as [c|] eqn:Hc; [|discriminate].
  destruct (inVs c) as [rangeIds|] eqn:Hi; [|discriminate].
  intros H. apply bind_Normal_inv in H as (st & Hst & H).
  eapply (Flat_definitionRanges_sound this (bump position) rangeIds rangeIds
            (fun location =>
               exists rangeID range,
                 rangeID ∈ rangeIds
                 /\ JSMap.get (Some rangeID) (Flat.vertices this) = Some range
                 /\ withinRange (bump position) range = Normal true
                 /\ flatDefinitionOf this range location)) in Hst as [_ Hall].
  - destruct (Flat.locations st) as [|l0 ls]; [discriminate|]. injection H as <-.
    exists dv, c, rangeIds. done.
  - intros rangeID range location ????. by exists rangeID, range.
  - done.
  - unfold Flat.findContainsOf in Hc.
    apply find_elem in Hc as [? [?%strictEq_true _]%andb_prop]. by split.
  - by apply Forall_nil.
Qed.

Lemma flat_definition_locations_come_from_the_index_witness :
  exists documentVertex containsEdge rangeIds,
    Flat.findDocument (snd (Flat.load crossReference Flat.newBackend)) "file:///a"
    = Some documentVertex
    /\ Flat.findContainsOf (snd (Flat.load crossReference Flat.newBackend)) documentVertex
       = Some containsEdge
    /\ inVs containsEdge = Some rangeIds
    /\ [ {| vscode.uri := Some "file:///a";
            vscode.range := {| vscode.start := {| line := 2; character := 0 |};
                               vscode.end_ := {| line := 2; character := 4 |} |} |} ]
       <> []
    /\ Forall (fun location =>
                 exists rangeID range,
                   rangeID ∈ rangeIds
                   /\ JSMap.get (Some rangeID)
                        (Flat.vertices (snd (Flat.load crossReference Flat.newBackend)))
                      = Some range
                   /\ withinRange (bump {| line := 0; character := 0 |}) range
                      = Normal true
                   /\ flatDefinitionOf (snd (Flat.load crossReference Flat.newBackend))
                        range location)
         [ {| vscode.uri := Some "file:///a";
              vscode.range := {| vscode.start := {| line := 2; character := 0 |};
                                 vscode.end_ := {| line := 2; character := 4 |} |} |} ].
Proof.
  exact (flat_definition_locations_come_from_the_index
           (snd (Flat.load crossReference Flat.newBackend))
           "file:///a" "file:///a" {| line := 0; character := 0 |} _ eq_refl eq_refl).
Defined.

(** ** The providers *)

Lemma freshPosition_same position : freshPosition position = position.
Proof. by destruct position. Qed.

Lemma orUndefined_same {host : Host} r : r <> Some [] -> orUndefined r = r.
Proof. by destruct r as [[|l ls]|]. Qed.

(** X20. The providers hand over what the backend answers.  The definition
    and reference providers return the locations of their resolver
    unchanged, and nothing when it answers none or throws what it throws:
    their test for an empty list never decides, since the resolvers do not
    return one.  The hover provider returns a text exactly when the
    resolver returns that text and the text is not empty. *)
Theorem providers_hand_over_the_answer {host : Host} lsifBackend uri position :
  provideDefinition lsifBackend uri position
  = completion (getDefinitionData lsifBackend uri position)
  /\ provideReferences lsifBackend uri position
     = completion (getReferencesData lsifBackend uri position)
  /\ forall text,
       provideHover lsifBackend uri position = Normal (Some text)
       <-> completion (getHoverData lsifBackend uri position) = Normal (Some text)
           /\ text <> "".
Proof.
  unfold provideDefinition, provideReferences, provideHover.
  rewrite freshPosition_same. split; [|split].
  - pose proof (getDefinitionData_not_empty lsifBackend uri position) as Hne.
    destruct (completion _) as [r|e]; simpl; [|done].
    rewrite orUndefined_same; [done|]. intros ->. by apply Hne.
  - pose proof (getReferencesData_not_empty lsifBackend uri position) as Hne.
    destruct (completion _) as [r|e]; simpl; [|done].
    rewrite orUndefined_same; [done|]. intros ->. by apply Hne.
  - intros text. destruct (completion _) as [[t|]|e]; simpl.
    + unfold strictEq. destruct (decide (t = "")) as [->|Hne].
      * rewrite bool_decide_eq_true_2 by done. split; [done|].
        intros [[= <-] Hne]. done.
      * rewrite bool_decide_eq_false_2 by done. split.
        -- intros [= <-]. done.
        -- by intros [[= <-] _].
    + split; [done|]. by intros [[=] _].
    + split; [done|]. by intros [[=] _].
Qed.
